(** * Risk dashboard: the risk computation engine of [app.py]

    A shallow embedding of the data generators, the scenario engine, the
    predefined scenarios and the handler of the run button with its result
    aggregation, as [app.py] has them.

    - Python [float] and NumPy [float64] are IEEE-754 binary64: they are
      modelled by Rocq's primitive floats, whose operations are specified
      by [SpecFloat] (round to nearest, ties to even).
    - A pandas [DataFrame] is a finite map from column names to columns;
      frames are objects, held in a store and passed by reference.
    - NumPy's global generator and the C library's [rint] are not part of
      the program: they are taken as an interface ([NumPy]) with the
      contract the program relies on ([numpy_contract]).
    - The sums of the summary are NumPy's and pandas' own: [Series.sum()]
      is NumPy's pairwise summation, the group sums and means of
      [groupby] are pandas' compensated (Kahan) sums. *)

From Stdlib Require Import Floats ZArith Lia Bool.
From stdpp Require Import gmap strings list sorting pretty.

Set Warnings "-inexact-float".
Local Open Scope Z_scope.

(** ** Python values and exceptions *)

Inductive pyerr : Type :=
| KeyError (key : string)
| TypeError
| ReferenceError.

Inductive result (A : Type) : Type :=
| Ok (a : A)
| Raise (e : pyerr).
Arguments Ok {A} a.
Arguments Raise {A} e.

Definition bind {A B : Type} (r : result A) (k : A → result B) : result B :=
  match r with
  | Ok a => k a
  | Raise e => Raise e
  end.

Notation "x ←? r ; k" := (bind r (λ x, k))
  (at level 20, r at level 100, k at level 200, right associativity,
   format "x  ←?  r ;  '/' k").

Definition raises {A : Type} (r : result A) : Prop :=
  match r with
  | Ok _ => False
  | Raise _ => True
  end.

(** [ord(c)] and [sum(ord(c) for c in s)]: Python's [sum] starts from 0 and
    adds from left to right. A name is a string of characters with codes
    below 256. *)
Definition ord (c : Ascii.ascii) : Z := Z.of_N (Ascii.N_of_ascii c).

Definition py_sum (l : list Z) : Z := fold_left Z.add l 0.

Definition ord_sum (s : string) : Z := py_sum (map ord (String.list_ascii_of_string s)).

(** ** binary64 arrays *)

Abbreviation f64 := PrimFloat.float.

Definition arr_mul (a b : list f64) : list f64 := zip_with PrimFloat.mul a b.
Definition arr_add (a b : list f64) : list f64 := zip_with PrimFloat.add a b.
Definition arr_sub (a b : list f64) : list f64 := zip_with PrimFloat.sub a b.
Definition arr_div (a b : list f64) : list f64 := zip_with PrimFloat.div a b.

(** An array times (or plus) a Python scalar. *)
Definition arr_scale (a : list f64) (k : f64) : list f64 :=
  (λ x, PrimFloat.mul x k) <$> a.
Definition scale_arr (k : f64) (a : list f64) : list f64 :=
  (λ x, PrimFloat.mul k x) <$> a.
Definition shift_arr (k : f64) (a : list f64) : list f64 :=
  (λ x, PrimFloat.add k x) <$> a.

(** [arr == key] and [arr != key] on an array of strings, as the 0/1 values
    the Boolean masks take when they are multiplied with a float array. *)
Definition mask_eq (a : list string) (key : string) : list f64 :=
  (λ c, if String.eqb c key then 1%float else 0%float) <$> a.
Definition mask_ne (a : list string) (key : string) : list f64 :=
  (λ c, if String.eqb c key then 0%float else 1%float) <$> a.

(** [ndarray.cumprod()]: running product, first entry unchanged. *)
Fixpoint cumprod_from (acc : f64) (l : list f64) : list f64 :=
  match l with
  | [] => []
  | x :: l' => let p := PrimFloat.mul acc x in p :: cumprod_from p l'
  end.

Definition cumprod (l : list f64) : list f64 :=
  match l with
  | [] => []
  | x :: l' => x :: cumprod_from x l'
  end.

(** [np.maximum(a, b)]: [a] when [a >= b] or [a] is [nan], else [b]; and
    [np.maximum.accumulate]: running maximum, first entry unchanged. *)
Definition np_maximum (a b : f64) : f64 :=
  if PrimFloat.leb b a || PrimFloat.is_nan a then a else b.

Fixpoint maximum_accumulate_from (acc : f64) (l : list f64) : list f64 :=
  match l with
  | [] => []
  | x :: l' => let m := np_maximum acc x in m :: maximum_accumulate_from m l'
  end.

Definition maximum_accumulate (l : list f64) : list f64 :=
  match l with
  | [] => []
  | x :: l' => x :: maximum_accumulate_from x l'
  end.

(** [ndarray.clip(lo)] is [np.maximum(x, lo)] entry by entry. *)
Definition clip_min (lo x : f64) : f64 := np_maximum x lo.

(** [Series.cummax()] skips missing values: they count as minus infinity
    in the running maximum, and the result is missing where the input is. *)
Definition cummax (l : list f64) : list f64 :=
  let mask := PrimFloat.is_nan <$> l in
  let vals := (λ x, if PrimFloat.is_nan x then neg_infinity else x) <$> l in
  zip_with (λ (m : bool) r, if m then nan else r) mask (maximum_accumulate vals).

(** ** The NumPy interface *)

Record NumPy : Type := {
  rng_state : Type;
  (** [np.random.seed(n)]: the global generator's state is replaced. *)
  rng_seed : Z → rng_state;
  (** [np.random.randint(lo, hi)] *)
  rng_randint : Z → Z → rng_state → Z * rng_state;
  (** [np.random.choice(a, n, p=p)] *)
  rng_choice : list string → nat → list f64 → rng_state → list string * rng_state;
  (** [np.random.uniform(lo, hi, n)] *)
  rng_uniform : f64 → f64 → nat → rng_state → list f64 * rng_state;
  (** [np.random.normal(loc, scale, n)] *)
  rng_normal : f64 → f64 → nat → rng_state → list f64 * rng_state;
  (** the C library's [rint], which [ndarray.round] calls *)
  np_rint : f64 → f64
}.

(** [ndarray.round(decimals)] for positive [decimals]: scale by the power
    of ten, round to an integer, scale back. *)
Definition pow10 (decimals : nat) : f64 :=
  Nat.iter decimals (λ x, PrimFloat.mul x 10) 1%float.

Definition np_round (np : NumPy) (decimals : nat) (a : list f64) : list f64 :=
  let f := pow10 decimals in
  (λ x, PrimFloat.div (np_rint np (PrimFloat.mul x f)) f) <$> a.

(** ** Data frames and the object store *)

Inductive column : Type :=
| StrCol (l : list string)
| NumCol (l : list f64)
| DateCol (l : list Z).

Abbreviation DataFrame := (gmap string column).

Definition loc : Type := positive.
Abbreviation store := (gmap loc (gmap string column)).

(** [df[name]] read as a float column. *)
Definition get_num (df : DataFrame) (name : string) : result (list f64) :=
  match df !! name with
  | None => Raise (KeyError name)
  | Some (NumCol l) => Ok l
  | Some _ => Raise TypeError
  end.

(** [df[name]] read as a column of strings. *)
Definition get_str (df : DataFrame) (name : string) : result (list string) :=
  match df !! name with
  | None => Raise (KeyError name)
  | Some (StrCol l) => Ok l
  | Some _ => Raise TypeError
  end.

(** The frame a reference denotes (a Python reference always denotes one). *)
Definition deref (h : store) (r : loc) : result DataFrame :=
  match h !! r with
  | Some df => Ok df
  | None => Raise ReferenceError
  end.

(** ** Data simulation *)

(** [generate_dummy_positions]: the generator state the call finds is
    [s_in]; the frame and the state the call leaves are returned. *)
Definition generate_dummy_positions (np : NumPy) (portfolio_name : string)
    (s_in : rng_state np) : DataFrame * rng_state np :=
  let seed := ord_sum portfolio_name in
  let s := rng_seed np seed in
  let '(n_positions, s) := rng_randint np 10 30 s in
  let n := Z.to_nat n_positions in
  let tickers := (λ i : nat, "TICKER_" +:+ pretty i) <$> seq 0 n in
  let '(asset_classes, s) :=
    rng_choice np ["Equity"; "Fixed Income"; "FX"; "Commodity"] n
      [0.5; 0.2; 0.15; 0.15]%float s in
  let '(market_values_usd, s) := rng_uniform np 50000 5000000 n s in
  let '(eq_draws, s) := rng_normal np 1 0.5 n s in
  let '(other_draws, s) := rng_normal np 0.1 0.1 n s in
  let beta_spx :=
    arr_add (arr_mul eq_draws (mask_eq asset_classes "Equity"))
            (arr_mul other_draws (mask_ne asset_classes "Equity")) in
  let '(dur_draws, s) := rng_normal np 5 2 n s in
  let duration := arr_mul dur_draws (mask_eq asset_classes "Fixed Income") in
  let '(oil_draws, s) := rng_normal np 0.05 0.2 n s in
  let delta_oil := arr_mul oil_draws (mask_eq asset_classes "Commodity") in
  (<["Ticker" := StrCol tickers]>
   (<["AssetClass" := StrCol asset_classes]>
   (<["MarketValueUSD" := NumCol (np_round np 2 market_values_usd)]>
   (<["Beta_SPX" := NumCol (np_round np 3 beta_spx)]>
   (<["Duration" := NumCol (np_round np 3 (clip_min 0 <$> duration))]>
   (<["Delta_Oil" := NumCol (np_round np 3 delta_oil)]> ∅))))),
   s).

(** [pd.date_range(end=today, periods=n).normalize()]: [n] consecutive
    days, the last one [today]; a date is its day number. *)
Definition date_range_end (today : Z) (n : nat) : list Z :=
  (λ i : nat, today - Z.of_nat n + 1 + Z.of_nat i) <$> seq 0 n.

Definition n_days : nat := 252 * 2.

(** [generate_dummy_risk_history]: the body that runs on a cache miss
    (the cache is keyed by the name). [today] is what [datetime.today()]
    returns; the line printed on a miss is left out. *)
Definition generate_dummy_risk_history (np : NumPy) (today : Z)
    (portfolio_name : string) (s_in : rng_state np) : DataFrame * rng_state np :=
  let seed := ord_sum portfolio_name + 1 in
  let s := rng_seed np seed in
  let dates := date_range_end today n_days in
  let nav_start := 100000000%float in
  let '(daily_returns, s) := rng_normal np 0.0005 0.01 (length dates) s in
  let nav := scale_arr nav_start (cumprod (shift_arr 1 daily_returns)) in
  let '(var_pct, s) := rng_uniform np 0.01 0.03 (length dates) s in
  let var_99 := arr_mul var_pct nav in
  let '(es_mult, s) := rng_uniform np 1.2 1.5 (length dates) s in
  let es_99 := arr_mul var_99 es_mult in
  let rolling_max := cummax nav in
  let drawdown := arr_div (arr_sub nav rolling_max) rolling_max in
  (<["Date" := DateCol dates]>
   (<["NAV" := NumCol nav]>
   (<["VaR_99_USD" := NumCol var_99]>
   (<["ES_99_USD" := NumCol es_99]>
   (<["Drawdown_Pct" := NumCol drawdown]> ∅)))),
   s).

(** ** The scenario engine *)

(** The right-hand side of the assignment, column by column. *)
Definition scenario_pnl (mv beta oil dur : list f64)
    (spx_shock rates_shock_decimal oil_shock : f64) : list f64 :=
  arr_mul mv
    (arr_sub (arr_add (arr_scale beta spx_shock) (arr_scale oil oil_shock))
             (arr_scale dur rates_shock_decimal)).

(** [simulate_scenario_pnl]: [positions_df] is a reference into the store.
    The right-hand side is evaluated first (its four column reads in
    source order), then the column is assigned on the frame the reference
    denotes, and the reference itself is returned. *)
Definition simulate_scenario_pnl (positions_df : loc)
    (spx_shock rates_shock_bps oil_shock : f64) (h : store)
    : result (loc * store) :=
  let rates_shock_decimal := (rates_shock_bps / 10000)%float in
  df ←? deref h positions_df;
  mv ←? get_num df "MarketValueUSD";
  beta ←? get_num df "Beta_SPX";
  oil ←? get_num df "Delta_Oil";
  dur ←? get_num df "Duration";
  let pnl := scenario_pnl mv beta oil dur spx_shock rates_shock_decimal oil_shock in
  Ok (positions_df, <[positions_df := <["ScenarioPnL" := NumCol pnl]> df]> h).

(** A frame that has the four columns the engine reads, of one length. *)
Definition position_book (df : DataFrame) (mv beta oil dur : list f64) : Prop :=
  df !! "MarketValueUSD" = Some (NumCol mv) ∧
  df !! "Beta_SPX" = Some (NumCol beta) ∧
  df !! "Delta_Oil" = Some (NumCol oil) ∧
  df !! "Duration" = Some (NumCol dur) ∧
  length beta = length mv ∧ length oil = length mv ∧ length dur = length mv.

(** ** Result aggregation (the summary table of the run handler) *)

(** The reductions of NumPy and pandas, over any number type: [add],
    [sub] and [zero] are its addition, subtraction and zero, [isna]
    recognises its missing values. They are instantiated to binary64
    below. *)
Section Reductions.
Context {T : Type} (add sub : T → T → T) (zero : T) (isna : T → bool).

(** NumPy's [pairwise_sum], the inner loop of [add.reduce] on a
    contiguous array. Fewer than 8 values are added from left to right.
    Up to 128 values are added in eight interleaved accumulators, which
    are then combined as a tree; the values after the last full block of
    eight are added to that result one by one. A longer array is split
    near the middle, at a multiple of eight, and the sums of the two
    parts are added. *)
Definition sum8 (r : list T) : T :=
  match r with
  | [r0; r1; r2; r3; r4; r5; r6; r7] =>
      add (add (add r0 r1) (add r2 r3)) (add (add r4 r5) (add r6 r7))
  | _ => zero
  end.

Fixpoint lanes (r a : list T) (blocks : nat) : list T :=
  match blocks with
  | O => r
  | S k => lanes (zip_with add r (take 8 a)) (drop 8 a) k
  end.

Definition block_sum (a : list T) : T :=
  let n := length a in
  let full := (n - n mod 8)%nat in
  let r := lanes (take 8 a) (drop 8 a) (full / 8 - 1) in
  fold_left add (drop full a) (sum8 r).

(** [fuel] bounds the depth of the splitting; the length of the array is
    more than enough, and more fuel changes nothing. *)
Fixpoint pairwise_sum_aux (fuel : nat) (a : list T) : T :=
  let n := length a in
  if (n <? 8)%nat then fold_left add a zero
  else if (n <=? 128)%nat then block_sum a
  else
    match fuel with
    | O => block_sum a
    | S fuel' =>
        let n2 := (n / 2 - (n / 2) mod 8)%nat in
        add (pairwise_sum_aux fuel' (take n2 a)) (pairwise_sum_aux fuel' (drop n2 a))
    end.

Definition pairwise_sum (a : list T) : T := pairwise_sum_aux (length a) a.

(** [Series.sum()]: pandas puts 0 in the place of the missing values and
    calls [ndarray.sum], which adds the pairwise sum to its initial
    value 0. (Recent versions of NumPy start from -0.0 instead; this
    changes the sign of a sum that is zero, and nothing else.) *)
Definition series_sum (l : list T) : T :=
  add zero (pairwise_sum ((λ x, if isna x then zero else x) <$> l)).

(** The sum of a group in [groupby(...).agg]: pandas' [group_sum] skips
    the missing values and adds the others with Kahan's compensation (a
    compensation that is not a number is reset to 0). A group without
    values sums to 0. *)
Fixpoint kahan_from (sumx compensation : T) (l : list T) : T :=
  match l with
  | [] => sumx
  | val :: l' =>
      if isna val then kahan_from sumx compensation l'
      else
        let y := sub val compensation in
        let t := add sumx y in
        let c := sub (sub t sumx) y in
        kahan_from t (if isna c then zero else c) l'
  end.

Definition group_sum (g : list T) : T := kahan_from zero zero g.

(** [count]: the number of values that are not missing. *)
Definition series_count (l : list T) : nat :=
  length (List.filter (λ x, negb (isna x)) l).

(** The values of the rows whose key is [k], in row order. *)
Definition group_members (k : string) (keys : list string) (vals : list T) : list T :=
  map snd (List.filter (λ kv : string * T, String.eqb (fst kv) k) (zip keys vals)).

End Reductions.

(** [groupby] takes the distinct keys in sorted order (strings compare
    character by character, by code). *)
Definition str_le (s1 s2 : string) : Prop := String.leb s1 s2 = true.

#[global] Instance str_le_dec : RelDecision str_le :=
  λ s1 s2, decide (String.leb s1 s2 = true).

Definition group_keys (keys : list string) : list string :=
  merge_sort str_le (remove_dups keys).

(** The sum of the per-group sums, as the total row computes it. *)
Definition grand_total {T : Type} (add sub : T → T → T) (zero : T) (isna : T → bool)
    (keys : list string) (vals : list T) : T :=
  series_sum add zero isna
    (map (λ k, group_sum add sub zero isna (group_members k keys vals)) (group_keys keys)).

Definition f64_sum : list f64 → f64 := series_sum PrimFloat.add 0%float PrimFloat.is_nan.
Definition f64_group_sum : list f64 → f64 :=
  group_sum PrimFloat.add PrimFloat.sub 0%float PrimFloat.is_nan.
Definition f64_count : list f64 → nat := series_count PrimFloat.is_nan.

Definition f64_of_nat (n : nat) : f64 := PrimFloat.of_uint63 (Uint63.of_Z (Z.of_nat n)).

(** The mean of a group: pandas' [group_mean] divides the compensated sum
    by the number of values, and is missing for a group without values. *)
Definition f64_mean (l : list f64) : f64 :=
  if (f64_count l =? 0)%nat then PrimFloat.nan
  else (f64_group_sum l / f64_of_nat (f64_count l))%float.

Record summary_row : Type := {
  sr_class : string;
  sr_total : f64;
  sr_avg : f64;
  sr_n : Z
}.

(** From [total_pnl = ...] to [summary_df = pd.concat(...)]: the total of
    the scenario column, the per-class rows and the appended total row. *)
Definition summarize (df_results : DataFrame) : result (list summary_row * f64) :=
  pnl ←? get_num df_results "ScenarioPnL";
  let total_pnl := f64_sum pnl in
  classes ←? get_str df_results "AssetClass";
  let summary :=
    map (λ k, let g := group_members k classes pnl in
              {| sr_class := k; sr_total := f64_group_sum g; sr_avg := f64_mean g;
                 sr_n := Z.of_nat (f64_count g) |})
        (group_keys classes) in
  let total_row :=
    {| sr_class := "**TOTAL**";
       sr_total := f64_sum (map sr_total summary);
       sr_avg := PrimFloat.nan;
       sr_n := py_sum (map sr_n summary) |} in
  Ok (summary ++ [total_row], total_pnl).

(** ** What the program relies on from NumPy *)

Record numpy_contract (np : NumPy) : Prop := {
  (** arrays have the requested size *)
  choice_length : ∀ a n p s, length (fst (rng_choice np a n p s)) = n;
  uniform_length : ∀ lo hi n s, length (fst (rng_uniform np lo hi n s)) = n;
  normal_length : ∀ mu sigma n s, length (fst (rng_normal np mu sigma n s)) = n;
  (** uniform draws lie between the two bounds *)
  uniform_range : ∀ lo hi n s x,
    (lo <=? hi)%float = true → x ∈ fst (rng_uniform np lo hi n s) →
    (lo <=? x)%float = true ∧ (x <=? hi)%float = true;
  (** normal draws are finite numbers *)
  normal_finite : ∀ mu sigma n s x,
    PrimFloat.is_finite mu = true → PrimFloat.is_finite sigma = true →
    x ∈ fst (rng_normal np mu sigma n s) → PrimFloat.is_finite x = true;
  (** a simulated daily return is at most one half in magnitude *)
  returns_bounded : ∀ n s r,
    r ∈ fst (rng_normal np 0.0005 0.01 n s) →
    (-0.5 <=? r)%float = true ∧ (r <=? 0.5)%float = true;
  (** [rint] keeps the sign, and does not go below 1 *)
  rint_nonneg : ∀ x, (0 <=? x)%float = true → (0 <=? np_rint np x)%float = true;
  rint_ge_one : ∀ x, (1 <=? x)%float = true → (1 <=? np_rint np x)%float = true
}.

(** A small deterministic generator with the same interface, to run the
    model on examples: a linear congruential state, and two-point
    distributions in place of the uniform and the normal one. *)
Definition lcg_next (s : Z) : Z := (1103515245 * s + 12345) mod 2147483648.

Definition lcg_bit (s : Z) : bool := Z.odd (s / 65536).

Fixpoint lcg_draws {A : Type} (f : Z → A) (n : nat) (s : Z) : list A * Z :=
  match n with
  | O => ([], s)
  | S n' =>
      let s' := lcg_next s in
      let '(l, s'') := lcg_draws f n' s' in
      (f s' :: l, s'')
  end.

Definition two_point (mu sigma : f64) (s : Z) : f64 :=
  let y := (if lcg_bit s then mu + sigma else mu - sigma)%float in
  if PrimFloat.is_finite y then y else mu.

Definition demo_numpy : NumPy := {|
  rng_state := Z;
  rng_seed := λ n, n mod 2147483648;
  rng_randint := λ lo hi s,
    let s' := lcg_next s in
    (if lo <? hi then lo + s' mod (hi - lo) else lo, s');
  rng_choice := λ a n p s,
    lcg_draws (λ s', nth (Z.to_nat ((s' / 65536) mod Z.of_nat (length a))) a EmptyString) n s;
  rng_uniform := λ lo hi n s, lcg_draws (λ s', if lcg_bit s' then hi else lo) n s;
  rng_normal := λ mu sigma n s, lcg_draws (two_point mu sigma) n s;
  np_rint := λ x, x
|}.

(** ** Predefined scenarios and the run handler *)

Record shocks : Type := {
  spx_shock : f64;
  rates_shock_bps : f64;
  oil_shock : f64
}.

(** The dictionary, in source order; [Custom] holds [None]. *)
Definition PREDEFINED_SCENARIOS : list (string * option shocks) :=
  [ ("None (Baseline)",
     Some {| spx_shock := 0; rates_shock_bps := 0; oil_shock := 0 |});
    ("Market Crash (-15% SPX)",
     Some {| spx_shock := -0.15; rates_shock_bps := 0; oil_shock := 0 |});
    ("Rates Shock (+50bps)",
     Some {| spx_shock := 0; rates_shock_bps := 50; oil_shock := 0 |});
    ("Oil Spike (+20%)",
     Some {| spx_shock := 0; rates_shock_bps := 0; oil_shock := 0.20 |});
    ("Recession Combo (-10% SPX, -75bps Rates)",
     Some {| spx_shock := -0.10; rates_shock_bps := -75; oil_shock := -0.10 |});
    ("Custom", None) ]%float.

(** [d[k]] and [k in d] for a dictionary with string keys. *)
Definition dict_get {V : Type} (d : list (string * V)) (k : string) : option V :=
  snd <$> List.find (λ kv : string * V, String.eqb (fst kv) k) d.

(** [x or 0.0] for a number that may be [None]: a float is false when it
    equals zero. *)
Definition or_zero (x : option f64) : f64 :=
  match x with
  | Some v => if PrimFloat.eqb v 0 then 0%float else v
  | None => 0%float
  end.

(** The shocks of a run: the custom inputs (in percent for the index and
    the oil price), the dictionary entry, or zeros for an unknown name. *)
Definition resolve_shocks (scenario_name : string)
    (custom_spx_shock custom_rates_shock custom_oil_shock : option f64)
    : option shocks :=
  if String.eqb scenario_name "Custom" then
    Some {| spx_shock := (or_zero custom_spx_shock / 100)%float;
            rates_shock_bps := or_zero custom_rates_shock;
            oil_shock := (or_zero custom_oil_shock / 100)%float |}
  else
    match dict_get PREDEFINED_SCENARIOS scenario_name with
    | Some sh => sh
    | None => Some {| spx_shock := 0; rates_shock_bps := 0; oil_shock := 0 |}
    end.

(** [simulate_scenario_pnl(df_positions, **shocks)]: unpacking [None]
    raises a [TypeError]. *)
Definition simulate_with (positions_df : loc) (sh : option shocks) (h : store)
    : result (loc * store) :=
  match sh with
  | Some sh =>
      simulate_scenario_pnl positions_df
        (spx_shock sh) (rates_shock_bps sh) (oil_shock sh) h
  | None => Raise TypeError
  end.

(** [f"Portfolio {chr(ord('A') + i)}" for i in range(5)] *)
Definition portfolio_name (i : nat) : string :=
  "Portfolio " +:+ String (Ascii.ascii_of_nat (65 + i)) EmptyString.

Definition portfolio_list : list string := portfolio_name <$> seq 0 5.

(** What a run stores: the portfolio, the summary table, the total, and
    the frame of results (the figures and the display name are left out). *)
Record run_result : Type := {
  res_portfolio : string;
  res_summary : list summary_row;
  res_total_pnl : f64;
  res_frame : loc
}.

(** The handler of the run button: resolve the shocks, generate the
    positions of the selected portfolio as a new frame, simulate,
    summarize. *)
Definition run_scenario (np : NumPy) (selected_portfolio scenario_name : string)
    (custom_spx_shock custom_rates_shock custom_oil_shock : option f64)
    (s : rng_state np) (h : store)
    : result (run_result * rng_state np * store) :=
  let sh := resolve_shocks scenario_name
              custom_spx_shock custom_rates_shock custom_oil_shock in
  let '(df, s) := generate_dummy_positions np selected_portfolio s in
  let df_positions := fresh (dom h) in
  let h := <[df_positions := df]> h in
  rh ←? simulate_with df_positions sh h;
  df_results ←? deref (snd rh) (fst rh);
  st ←? summarize df_results;
  Ok ({| res_portfolio := selected_portfolio;
         res_summary := fst st;
         res_total_pnl := snd st;
         res_frame := fst rh |}, s, snd rh).

(** ** Vocabulary of the proofs about binary64 *)

(** One truncation step of [SpecFloat]'s rounding: the mantissa [m] of
    [m * 2^e] is shifted right until the exponent is the one of its
    binade, and [pack] builds the number from the final mantissa. *)
Definition trunc (m e : Z) : Z * Z :=
  let n := fexp prec emax (Zdigits2 m + e) - e in
  if 0 <? n then (m / 2 ^ n, e + n) else (m, e).

Definition pack (s : bool) (me : Z * Z) : spec_float :=
  match fst me with
  | Z0 => S754_zero s
  | Zpos m => if snd me <=? emax - prec then S754_finite s m (snd me) else S754_infinity s
  | Zneg _ => S754_nan
  end.

(** A number with sign bit [s] (zero included), and one that is not zero. *)
Definition has_sign (s : bool) (f : spec_float) : Prop :=
  match f with
  | S754_zero s' | S754_finite s' _ _ | S754_infinity s' => s' = s
  | S754_nan => False
  end.

Definition strict_sign (s : bool) (f : spec_float) : Prop :=
  match f with
  | S754_finite s' _ _ | S754_infinity s' => s' = s
  | _ => False
  end.

(** A positive normal number whose exponent lies in [[lo, hi]]: its value
    is between [2^(lo+52)] and [2^(hi+53)]. *)
Definition normal_pos (lo hi : Z) (f : spec_float) : Prop :=
  match f with
  | S754_finite false m e => Zpos (digits2_pos m) = 53 ∧ lo ≤ e ≤ hi
  | _ => False
  end.

Definition sf_nonpos (f : spec_float) : Prop :=
  match f with
  | S754_zero _ | S754_finite true _ _ | S754_infinity true => True
  | _ => False
  end.

Definition sf_nonneg (f : spec_float) : Prop :=
  match f with
  | S754_zero _ | S754_finite false _ _ | S754_infinity false => True
  | _ => False
  end.

Definition sf_zero (f : spec_float) : Prop :=
  match f with
  | S754_zero _ => True
  | _ => False
  end.

Definition sf_finite (f : spec_float) : Prop :=
  match f with
  | S754_zero _ | S754_finite _ _ _ => True
  | _ => False
  end.

(** At least 1: infinite, or normal with exponent at least -52. *)
Definition sf_ge_one (f : spec_float) : Prop :=
  match f with
  | S754_infinity false => True
  | S754_finite false m e => Zpos (digits2_pos m) = 53 ∧ -52 ≤ e
  | _ => False
  end.

(** A number of magnitude at most one half. *)
Definition sf_small (f : spec_float) : Prop :=
  match f with
  | S754_zero _ => True
  | S754_finite _ m e => e ≤ -53 ∧ Zpos m ≤ 2 ^ (- e - 1)
  | _ => False
  end.

(** A binary64 value that is positive and normal, by exponent range. *)
Definition fnormal (lo hi : Z) (x : f64) : Prop := normal_pos lo hi (Prim2SF x).

(** The NAV path of the risk history, from the daily returns. *)
Definition history_nav (r : list f64) : list f64 :=
  scale_arr 100000000 (cumprod (shift_arr 1 r)).

(** [rmax] is the maximum of [navs] up to and including position [t]. *)
Definition is_running_max (navs : list f64) (t : nat) (rmax : f64) : Prop :=
  (∃ j, (j <= t)%nat ∧ navs !! j = Some rmax) ∧
  ∀ j x, (j <= t)%nat → navs !! j = Some x → (x <=? rmax)%float = true.

(** A number of sign [s]: at most 0 for [true], at least 0 for [false]. *)
Definition sf_signed (s : bool) (f : spec_float) : Prop :=
  if s then sf_nonpos f else sf_nonneg f.

(** The shocks of the baseline. *)
Definition zero_shocks : shocks :=
  {| spx_shock := 0; rates_shock_bps := 0; oil_shock := 0 |}.

(** ** Example books *)

Definition rate_book : DataFrame :=
  <["Ticker" := StrCol ["TICKER_0"]]>
  (<["AssetClass" := StrCol ["Fixed Income"]]>
  (<["MarketValueUSD" := NumCol [1000000]%float]>
  (<["Beta_SPX" := NumCol [0]%float]>
  (<["Duration" := NumCol [4]%float]>
  (<["Delta_Oil" := NumCol [0]%float]> ∅))))).

Definition short_book : DataFrame :=
  <["Ticker" := StrCol ["TICKER_0"; "TICKER_1"]]>
  (<["AssetClass" := StrCol ["Equity"; "FX"]]>
  (<["MarketValueUSD" := NumCol [-250000; 0]%float]>
  (<["Beta_SPX" := NumCol [1.2; 0.1]%float]>
  (<["Duration" := NumCol [0; 0]%float]>
  (<["Delta_Oil" := NumCol [0; 0]%float]> ∅))))).

Definition crash_book : DataFrame :=
  <["Ticker" := StrCol ["TICKER_0"; "TICKER_1"; "TICKER_2"]]>
  (<["AssetClass" := StrCol ["Equity"; "FX"; "FX"]]>
  (<["MarketValueUSD" := NumCol [1767307.88; 1068520.7; 3387057.42]%float]>
  (<["Beta_SPX" := NumCol [0.676; 0.7; 1.134]%float]>
  (<["Duration" := NumCol [0; 0; 0]%float]>
  (<["Delta_Oil" := NumCol [0; 0; 0]%float]> ∅))))).

(** * Properties *)

(** ** binary64 arithmetic *)

(** *** Rounding *)

Lemma shr_1_m mrs : 0 <= shr_m mrs -> shr_m (shr_1 mrs) = shr_m mrs / 2.
Proof.
  destruct mrs as [m r s]; simpl. intros Hm.
  destruct m as [|p|p]; [reflexivity| |lia].
  destruct p as [p|p|]; simpl shr_m.
  - rewrite Pos2Z.inj_xI. apply Z.div_unique with (r := 1); lia.
  - rewrite Pos2Z.inj_xO. apply Z.div_unique with (r := 0); lia.
  - reflexivity.
Qed.

Lemma iter_shr_1_m p : forall mrs, 0 <= shr_m mrs ->
  shr_m (SpecFloat.iter_pos shr_1 p mrs) = shr_m mrs / 2 ^ Zpos p.
Proof.
  induction p as [p IH|p IH|]; intros mrs Hm; simpl SpecFloat.iter_pos.
  - assert (H1 : 0 <= shr_m (shr_1 mrs)).
    { rewrite shr_1_m by done. apply Z.div_pos; lia. }
    assert (H2 : 0 <= shr_m (SpecFloat.iter_pos shr_1 p (shr_1 mrs))).
    { rewrite IH by done. apply Z.div_pos; lia. }
    rewrite IH, IH, shr_1_m by done.
    rewrite !Z.div_div by lia. f_equal.
    rewrite Pos2Z.inj_xI, <- !Z.pow_add_r by lia. 
    replace (2 * Z.pos p + 1) with (1 + Z.pos p + Z.pos p) by lia.
    rewrite !Z.pow_add_r by lia. lia.
  - assert (H2 : 0 <= shr_m (SpecFloat.iter_pos shr_1 p mrs)).
    { rewrite IH by done. apply Z.div_pos; lia. }
    rewrite IH, IH by done.
    rewrite !Z.div_div by lia. f_equal.
    rewrite Pos2Z.inj_xO, <- Z.pow_add_r by lia. f_equal. lia.
  - apply shr_1_m. done.
Qed.

Lemma shr_fexp_trunc m e l : 0 <= m ->
  exists mrs, shr_fexp prec emax m e l = (mrs, snd (trunc m e)) /\ shr_m mrs = fst (trunc m e).
Proof.
  intros Hm. unfold shr_fexp, trunc, shr.
  set (n := fexp prec emax (Zdigits2 m + e) - e).
  assert (Hl : shr_m (shr_record_of_loc m l) = m).
  { destruct l as [|[]]; reflexivity. }
  destruct n as [|p|p] eqn:Hn; simpl (0 <? _).
  - eexists; split; [reflexivity|done].
  - eexists; split; [reflexivity|]. simpl fst.
    rewrite iter_shr_1_m by lia. by rewrite Hl.
  - eexists; split; [reflexivity|done].
Qed.

Lemma round_nearest_even_bounds m l :
  m <= round_nearest_even m l <= m + 1.
Proof.
  unfold round_nearest_even. destruct l as [|[]]; try lia.
  destruct (Z.even m); lia.
Qed.

Lemma trunc_nonneg m e : 0 <= m -> 0 <= fst (trunc m e).
Proof.
  intros Hm. unfold trunc.
  destruct (Z.ltb_spec 0 (fexp prec emax (Zdigits2 m + e) - e)); simpl; [|lia].
  apply Z.div_pos; [lia|]. apply Z.pow_pos_nonneg; lia.
Qed.

(** The rounding step of every operation, as two truncations around an
    increment of at most one. *)
Lemma binary_round_aux_trunc s m e l : 0 <= m ->
  exists m2, fst (trunc m e) <= m2 <= fst (trunc m e) + 1 /\
    binary_round_aux prec emax s m e l = pack s (trunc m2 (snd (trunc m e))).
Proof.
  intros Hm. unfold binary_round_aux.
  destruct (shr_fexp_trunc m e l Hm) as (mrs & -> & Hmrs).
  set (m2 := round_nearest_even (shr_m mrs) (loc_of_shr_record mrs)).
  assert (Hb : fst (trunc m e) <= m2 <= fst (trunc m e) + 1).
  { rewrite <- Hmrs. apply round_nearest_even_bounds. }
  assert (H2 : 0 <= m2) by (pose proof (trunc_nonneg m e Hm); lia).
  destruct (shr_fexp_trunc m2 (snd (trunc m e)) loc_Exact H2) as (mrs' & -> & Hmrs').
  exists m2. split; [done|]. unfold pack. rewrite Hmrs'. reflexivity.
Qed.

(** *** Digits *)

Lemma digits2_pos_bounds p :
  2 ^ (Zpos (digits2_pos p) - 1) <= Zpos p < 2 ^ Zpos (digits2_pos p).
Proof.
  induction p as [p IH|p IH|]; simpl digits2_pos; [| |simpl; lia].
  all: rewrite Pos2Z.inj_succ.
  all: replace (Z.succ (Z.pos (digits2_pos p)) - 1)
         with (Z.succ (Z.pos (digits2_pos p) - 1)) by lia.
  all: rewrite !Z.pow_succ_r by lia.
  all: set (a := 2 ^ (Z.pos (digits2_pos p) - 1)) in *.
  all: set (b := 2 ^ Z.pos (digits2_pos p)) in *.
  all: lia.
Qed.

Lemma Zdigits2_bounds m : 0 < m ->
  1 <= Zdigits2 m /\ 2 ^ (Zdigits2 m - 1) <= m < 2 ^ Zdigits2 m.
Proof.
  destruct m as [|p|p]; try lia. intros _. simpl Zdigits2.
  split; [lia|apply digits2_pos_bounds].
Qed.

Lemma Zdigits2_unique m k : 1 <= k -> 2 ^ (k - 1) <= m < 2 ^ k -> Zdigits2 m = k.
Proof.
  intros Hk [Hlo Hhi].
  assert (Hm : 0 < m).
  { assert (0 < 2 ^ (k - 1)) by (apply Z.pow_pos_nonneg; lia). lia. }
  destruct (Zdigits2_bounds m Hm) as (Hd & Hl & Hh).
  destruct (Z.lt_trichotomy (Zdigits2 m) k) as [Hlt|[Heq|Hgt]]; [|done|].
  - assert (2 ^ Zdigits2 m <= 2 ^ (k - 1)) by (apply Z.pow_le_mono_r; lia). lia.
  - assert (2 ^ k <= 2 ^ (Zdigits2 m - 1)) by (apply Z.pow_le_mono_r; lia). lia.
Qed.

Lemma Zdigits2_ge m k : 1 <= k -> 2 ^ (k - 1) <= m -> k <= Zdigits2 m.
Proof.
  intros Hk Hlo.
  assert (Hm : 0 < m).
  { assert (0 < 2 ^ (k - 1)) by (apply Z.pow_pos_nonneg; lia). lia. }
  destruct (Zdigits2_bounds m Hm) as (Hd & Hl & Hh).
  destruct (Z.le_gt_cases k (Zdigits2 m)) as [|Hgt]; [done|].
  assert (2 ^ Zdigits2 m <= 2 ^ (k - 1)) by (apply Z.pow_le_mono_r; lia). lia.
Qed.

(** Truncation keeps the leading bit as long as the number is above the
    smallest subnormal: the magnitude [digits + exponent] is unchanged. *)
Lemma trunc_mag m e : 0 < m -> emin < Zdigits2 m + e ->
  0 < fst (trunc m e) /\
  Zdigits2 (fst (trunc m e)) + snd (trunc m e) = Zdigits2 m + e.
Proof.
  intros Hm Hmag. destruct (Zdigits2_bounds m Hm) as (Hd & Hl & Hh).
  unfold trunc. set (d := Zdigits2 m) in *.
  set (n := fexp prec emax (d + e) - e).
  destruct (Z.ltb_spec 0 n) as [Hn|Hn]; simpl; [|done].
  assert (Hnd : n <= d - 1).
  { unfold n, fexp, SpecFloat.emin, emax, prec in *. lia. }
  assert (Hp : 0 < 2 ^ n) by (apply Z.pow_pos_nonneg; lia).
  assert (Hq : 2 ^ (d - n - 1) <= m / 2 ^ n < 2 ^ (d - n)).
  { split.
    - apply Z.div_le_lower_bound; [done|].
      rewrite <- Z.pow_add_r by lia. by replace (n + (d - n - 1)) with (d - 1) by lia.
    - apply Z.div_lt_upper_bound; [done|].
      rewrite <- Z.pow_add_r by lia. by replace (n + (d - n)) with d by lia. }
  assert (0 < 2 ^ (d - n - 1)) by (apply Z.pow_pos_nonneg; lia).
  split; [lia|]. rewrite (Zdigits2_unique _ (d - n)); [lia|lia|done].
Qed.

(** *** Sign of a rounded result *)

Lemma pack_has_sign s me : 0 <= fst me -> has_sign s (pack s me).
Proof.
  unfold pack. destruct (fst me); [done| |lia]. intros _.
  by destruct (snd me <=? emax - prec).
Qed.

Lemma pack_strict_sign s me : 0 < fst me -> strict_sign s (pack s me).
Proof.
  unfold pack. destruct (fst me); [lia| |lia]. intros _.
  by destruct (snd me <=? emax - prec).
Qed.

Lemma binary_round_aux_sign s m e l : 0 <= m ->
  has_sign s (binary_round_aux prec emax s m e l).
Proof.
  intros Hm. destruct (binary_round_aux_trunc s m e l Hm) as (m2 & Hb & ->).
  apply pack_has_sign, trunc_nonneg. pose proof (trunc_nonneg m e Hm). lia.
Qed.

Lemma Zdigits2_mono a b : 0 < a -> a <= b -> Zdigits2 a <= Zdigits2 b.
Proof.
  intros Ha Hab. destruct (Zdigits2_bounds a Ha) as (Hd & Hl & Hh).
  apply Zdigits2_ge; lia.
Qed.

Lemma binary_round_aux_nonzero s m e l : 0 < m -> emin < Zdigits2 m + e ->
  strict_sign s (binary_round_aux prec emax s m e l).
Proof.
  intros Hm Hmag.
  destruct (binary_round_aux_trunc s m e l) as (m2 & Hb & ->); [lia|].
  destruct (trunc_mag m e Hm Hmag) as (H1 & H2).
  apply pack_strict_sign, trunc_mag; [lia|].
  pose proof (Zdigits2_mono (fst (trunc m e)) m2). lia.
Qed.

(** *** Normal positive numbers *)

Lemma fexp_eq k : fexp prec emax k = Z.max (k - 53) (-1074).
Proof. reflexivity. Qed.

Lemma valid_finite s m e : valid_binary (S754_finite s m e) = true ->
  Z.max (Zpos (digits2_pos m) + e - 53) (-1074) = e /\ e <= 971.
Proof.
  unfold SpecFloat.valid_binary, bounded, canonical_mantissa.
  rewrite andb_true_iff, Z.eqb_eq, Z.leb_le, fexp_eq. unfold emax, prec. lia.
Qed.

Lemma trunc_shift m e n : 0 < n -> fexp prec emax (Zdigits2 m + e) - e = n ->
  trunc m e = (m / 2 ^ n, e + n).
Proof.
  intros Hn He. unfold trunc. rewrite He.
  by destruct (Z.ltb_spec 0 n); [|lia].
Qed.

Lemma trunc_id m e : fexp prec emax (Zdigits2 m + e) - e <= 0 -> trunc m e = (m, e).
Proof.
  intros He. unfold trunc.
  by destruct (Z.ltb_spec 0 (fexp prec emax (Zdigits2 m + e) - e)); [lia|].
Qed.

Lemma pack_finite s p e : e <= 971 -> pack s (Zpos p, e) = S754_finite s p e.
Proof.
  intros He. unfold pack; simpl. unfold emax, prec.
  by destruct (Z.leb_spec e (1024 - 53)); [|lia].
Qed.

Lemma digits53 m : Zpos (digits2_pos m) = 53 ->
  4503599627370496 <= Zpos m < 9007199254740992.
Proof.
  intros Hd. pose proof (digits2_pos_bounds m) as H. rewrite Hd in H.
  change (2 ^ (53 - 1)) with 4503599627370496 in H.
  by change (2 ^ 53) with 9007199254740992 in H.
Qed.

Lemma digits53_intro m : 4503599627370496 <= m < 9007199254740992 -> Zdigits2 m = 53.
Proof. intros H. by apply Zdigits2_unique. Qed.

(** A 53-bit mantissa, possibly incremented by one, sits in a normal
    number once the carry is absorbed. *)
Lemma pack_trunc_53 s m e : 4503599627370496 <= m <= 9007199254740992 ->
  -1074 <= e -> e <= 971 -> (m = 9007199254740992 -> e + 1 <= 971) ->
  exists m3 e3, pack s (trunc m e) = S754_finite s m3 e3 /\
    Zpos (digits2_pos m3) = 53 /\ e <= e3 <= e + 1 /\
    (m < 9007199254740992 -> e3 = e /\ Zpos m3 = m) /\
    (m = 9007199254740992 -> e3 = e + 1).
Proof.
  intros Hm He1 He2 He3.
  destruct (Z.eq_dec m 9007199254740992) as [->|Hne].
  - specialize (He3 eq_refl). rewrite (trunc_shift _ _ 1); [|lia|].
    2:{ rewrite fexp_eq. change (Zdigits2 9007199254740992) with 54. lia. }
    change (9007199254740992 / 2 ^ 1) with (Zpos 4503599627370496).
    rewrite pack_finite by lia.
    eexists _, _; split; [reflexivity|]. split; [reflexivity|]. lia.
  - assert (Hd : Zdigits2 m = 53) by (apply digits53_intro; lia).
    rewrite trunc_id by (rewrite fexp_eq, Hd; lia).
    destruct m as [|p|p]; try lia.
    rewrite pack_finite by lia.
    eexists _, _; split; [reflexivity|]. simpl in Hd. split; [lia|]. lia.
Qed.

Lemma SFmul_normal mx ex my ey :
  Zpos (digits2_pos mx) = 53 -> Zpos (digits2_pos my) = 53 ->
  -1074 <= ex + ey + 52 -> ex + ey + 53 <= 971 ->
  exists m3 e3,
    SFmul prec emax (S754_finite false mx ex) (S754_finite false my ey)
      = S754_finite false m3 e3 /\
    Zpos (digits2_pos m3) = 53 /\
    ex + ey + 52 <= e3 <= ex + ey + 53 /\
    (e3 = ex + ey + 52 -> Zpos mx * Zpos my / 4503599627370496 <= Zpos m3).
Proof.
  intros Hdx Hdy Hlo Hhi.
  pose proof (digits53 mx Hdx) as Hx. pose proof (digits53 my Hdy) as Hy.
  simpl SFmul. rewrite Pos2Z.inj_mul.
  set (M := Zpos mx * Zpos my). set (E := ex + ey).
  assert (HM : 4503599627370496 * 4503599627370496 <= M
               <= 9007199254740991 * 9007199254740991) by (unfold M; nia).
  destruct (binary_round_aux_trunc false M E loc_Exact) as (m2 & Hb & ->); [lia|].
  destruct (Z.lt_ge_cases M (2 ^ 105)) as [Hlt|Hge].
  - assert (Hd : Zdigits2 M = 105).
    { apply Zdigits2_unique; [lia|]. change (2 ^ (105 - 1)) with (4503599627370496 * 4503599627370496). lia. }
    rewrite (trunc_shift M E 52) in * by (rewrite ?fexp_eq, ?Hd; lia).
    simpl fst in Hb. simpl snd.
    change (2 ^ 52) with 4503599627370496 in *.
    assert (H1 : 4503599627370496 <= M / 4503599627370496 < 9007199254740992).
    { split; [apply Z.div_le_lower_bound; lia|].
      apply Z.div_lt_upper_bound; [lia|].
      change (2 ^ 105) with (4503599627370496 * 9007199254740992) in Hlt. lia. }
    destruct (pack_trunc_53 false m2 (E + 52)) as (m3 & e3 & -> & Hd3 & He3 & Hno & Hcarry);
      [lia|lia|lia|lia|].
    exists m3, e3. split; [done|]. split; [done|]. split; [lia|].
    intros He. destruct (Z.eq_dec m2 9007199254740992) as [Heq|Hne]; [specialize (Hcarry Heq); lia|].
    destruct Hno as [_ ->]; lia.
  - assert (Hd : Zdigits2 M = 106).
    { apply Zdigits2_unique; [lia|].
      change (2 ^ (106 - 1)) with (2 ^ 105).
      change (2 ^ 106) with (9007199254740992 * 9007199254740992). lia. }
    rewrite (trunc_shift M E 53) in * by (rewrite ?fexp_eq, ?Hd; lia).
    simpl fst in Hb. simpl snd.
    change (2 ^ 53) with 9007199254740992 in *.
    assert (H1 : 4503599627370496 <= M / 9007199254740992 < 9007199254740991).
    { split; [apply Z.div_le_lower_bound; [lia|]|].
      - change (2 ^ 105) with (9007199254740992 * 4503599627370496) in Hge. lia.
      - apply Z.div_lt_upper_bound; lia. }
    destruct (pack_trunc_53 false m2 (E + 53)) as (m3 & e3 & -> & Hd3 & He3 & Hno & Hcarry);
      [lia|lia|lia|lia|].
    exists m3, e3. split; [done|]. split; [done|].
    destruct Hno as [-> _]; [lia|]. lia.
Qed.

(** *** Comparisons *)

Lemma SFleb_finite_pos m1 e1 m2 e2 :
  SFleb (S754_finite false m1 e1) (S754_finite false m2 e2) = true <->
  e1 < e2 \/ (e1 = e2 /\ Zpos m1 <= Zpos m2).
Proof.
  unfold SFleb, SFcompare.
  change (Pos.compare_cont Eq m1 m2) with (Pos.compare m1 m2).
  destruct (Z.compare_spec e1 e2) as [He|He|He].
  - destruct (Pos.compare_spec m1 m2) as [Hm|Hm|Hm]; split; try done; try lia.
  - split; [lia|done].
  - split; [done|lia].
Qed.

(** A valid number between two positive normal numbers is positive and
    normal, with its exponent between theirs. *)
Lemma between_normal f m1 e1 m2 e2 :
  valid_binary f = true -> -1074 < e1 ->
  SFleb (S754_finite false m1 e1) f = true ->
  SFleb f (S754_finite false m2 e2) = true ->
  normal_pos e1 e2 f.
Proof.
  intros Hv He1 Hlo Hhi.
  destruct f as [s|s| |s m e]; try done.
  - by destruct s.
  - destruct s; [done|].
    apply SFleb_finite_pos in Hlo, Hhi. apply valid_finite in Hv.
    simpl. lia.
Qed.

Lemma normal_pos_weaken lo hi lo' hi' f :
  normal_pos lo hi f -> lo' <= lo -> hi <= hi' -> normal_pos lo' hi' f.
Proof. destruct f as [| | |[] m e]; simpl; try done. lia. Qed.

Lemma normal_pos_ltb lo hi f : normal_pos lo hi f -> SFltb (S754_zero false) f = true.
Proof. by destruct f as [| | |[] m e]. Qed.

Lemma normal_pos_leb_refl lo hi f : normal_pos lo hi f -> SFleb f f = true.
Proof.
  destruct f as [| | |[] m e]; simpl; try done. intros _.
  apply SFleb_finite_pos. lia.
Qed.

(** Products of positive normal numbers, by exponent ranges. *)
Lemma SFmul_normal_pos a b c d x y :
  normal_pos a b x -> normal_pos c d y ->
  -1074 <= a + c + 52 -> b + d + 53 <= 971 ->
  normal_pos (a + c + 52) (b + d + 53) (SFmul prec emax x y).
Proof.
  destruct x as [| | |[] mx ex]; try done. destruct y as [| | |[] my ey]; try done.
  intros [Hdx Hx] [Hdy Hy] Hlo Hhi.
  destruct (SFmul_normal mx ex my ey) as (m3 & e3 & -> & Hd3 & He3 & _); try done; try lia.
  simpl. lia.
Qed.

(** Multiplying a positive normal number by one that is at least 1 does
    not make it smaller. *)
Lemma SFmul_ge_one a b d x y :
  normal_pos a b x -> normal_pos (-52) d y ->
  -1074 <= a -> b + d + 53 <= 971 ->
  SFleb x (SFmul prec emax x y) = true.
Proof.
  destruct x as [| | |[] mx ex]; try done. destruct y as [| | |[] my ey]; try done.
  intros [Hdx Hx] [Hdy Hy] Hlo Hhi.
  destruct (SFmul_normal mx ex my ey) as (m3 & e3 & -> & Hd3 & He3 & Hm3); try done; try lia.
  apply SFleb_finite_pos.
  destruct (Z.eq_dec e3 ex) as [->|Hne]; [right|left; lia].
  split; [done|]. 
  assert (Hey : ey = -52) by lia. specialize (Hm3 ltac:(lia)).
  pose proof (digits53 my Hdy) as Hmy.
  etrans; [|exact Hm3]. apply Z.div_le_lower_bound; [lia|]. nia.
Qed.

(** *** Differences and quotients *)

Lemma has_sign_nonpos f : has_sign true f -> sf_nonpos f.
Proof. destruct f as [| | |[] ? ?]; simpl; try done; by intros ->. Qed.

Lemma has_sign_nonneg f : has_sign false f -> sf_nonneg f.
Proof. destruct f as [| | |[] ? ?]; simpl; try done; by intros ->. Qed.

Lemma iter_xO_val m d : Zpos (Pos.iter xO m d) = Zpos m * 2 ^ Zpos d.
Proof.
  induction d as [|d IH] using Pos.peano_ind.
  - simpl. lia.
  - rewrite Pos.iter_succ, Pos2Z.inj_xO, IH, Pos2Z.inj_succ, Z.pow_succ_r by lia. lia.
Qed.

Lemma shl_align_val m e e' : e' <= e ->
  Zpos (fst (shl_align m e e')) = Zpos m * 2 ^ (e - e').
Proof.
  intros He. unfold shl_align.
  destruct (e' - e) as [|p|p] eqn:Hd; simpl fst.
  - replace (e - e') with 0 by lia. lia.
  - lia.
  - rewrite iter_xO_val. f_equal. f_equal. lia.
Qed.

Lemma binary_round_sign s m e : has_sign s (binary_round prec emax s m e).
Proof.
  unfold binary_round. destruct (shl_align m e _) as [mz ez].
  by apply binary_round_aux_sign.
Qed.

Lemma SFsub_diag s m e :
  SFsub prec emax (S754_finite s m e) (S754_finite s m e) = S754_zero false.
Proof. simpl. by rewrite Z.sub_diag. Qed.

(** For positive normal numbers, [x <= y] makes [x - y] zero or negative. *)
Lemma SFsub_le_nonpos a b c d x y :
  normal_pos a b x -> normal_pos c d y -> SFleb x y = true ->
  sf_nonpos (SFsub prec emax x y).
Proof.
  destruct x as [| | |[] mx ex]; try done. destruct y as [| | |[] my ey]; try done.
  intros [Hdx _] [Hdy _] Hle. apply SFleb_finite_pos in Hle.
  pose proof (digits53 mx Hdx) as Hx. pose proof (digits53 my Hdy) as Hy.
  unfold SFsub, cond_Zopp.
  set (ez := Z.min ex ey).
  rewrite !shl_align_val by lia.
  set (D := Zpos mx * 2 ^ (ex - ez) - Zpos my * 2 ^ (ey - ez)).
  assert (HD : D <= 0).
  { unfold D. destruct Hle as [Hlt|[-> Hm]].
    - replace (ex - ez) with 0 by lia. replace (ey - ez) with (Z.succ (ey - ez - 1)) by lia.
      rewrite Z.pow_succ_r by lia.
      assert (0 < 2 ^ (ey - ez - 1)) by (apply Z.pow_pos_nonneg; lia). nia.
    - replace (ey - ez) with 0 by lia. simpl. lia. }
  destruct D as [|p|p]; simpl; [done|lia|].
  apply has_sign_nonpos, binary_round_sign.
Qed.

Lemma SFdiv_core_quotient m1 e1 m2 e2 :
  0 < m1 -> 0 < m2 ->
  0 <= fst (fst (SFdiv_core_binary prec emax m1 e1 m2 e2)).
Proof.
  intros H1 H2. unfold SFdiv_core_binary.
  set (s := _ - _ - _).
  set (m' := match s with Z0 => m1 | Zpos _ => Z.shiftl m1 s | Zneg _ => 0 end).
  assert (Hm' : 0 <= m').
  { unfold m'. destruct s; [lia| |lia]. apply Z.shiftl_nonneg. lia. }
  destruct (Z.div_eucl m' m2) as [q r] eqn:Hqr. simpl.
  assert (Hq : q = m' / m2) by (unfold Z.div; by rewrite Hqr).
  rewrite Hq. apply Z.div_pos; lia.
Qed.

(** A quotient of a non-positive number by a positive finite one is
    non-positive; likewise for non-negative numbers. *)
Lemma SFdiv_nonpos x my ey :
  sf_nonpos x -> sf_nonpos (SFdiv prec emax x (S754_finite false my ey)).
Proof.
  destruct x as [s|[]| |[] mx ex]; simpl; try done. intros _.
  pose proof (SFdiv_core_quotient (Zpos mx) ex (Zpos my) ey) as Hq.
  destruct (SFdiv_core_binary _ _ _ _ _ _) as [[mz ez] lz]. simpl in Hq.
  apply has_sign_nonpos, binary_round_aux_sign. lia.
Qed.

Lemma SFdiv_nonneg x my ey :
  sf_nonneg x -> sf_nonneg (SFdiv prec emax x (S754_finite false my ey)).
Proof.
  destruct x as [s|[]| |[] mx ex]; simpl; try done. intros _.
  pose proof (SFdiv_core_quotient (Zpos mx) ex (Zpos my) ey) as Hq.
  destruct (SFdiv_core_binary _ _ _ _ _ _) as [[mz ez] lz]. simpl in Hq.
  apply has_sign_nonneg, binary_round_aux_sign. lia.
Qed.

Lemma SFmul_nonneg x my ey :
  sf_nonneg x -> sf_nonneg (SFmul prec emax x (S754_finite false my ey)).
Proof.
  destruct x as [s|[]| |[] mx ex]; simpl; try done. intros _.
  apply has_sign_nonneg, binary_round_aux_sign. lia.
Qed.

(** A number that is at least 1, divided by a positive normal number that
    is not huge, is positive. *)
Lemma SFdiv_pos x my ey :
  sf_ge_one x -> Zpos (digits2_pos my) = 53 -> ey <= 900 ->
  strict_sign false (SFdiv prec emax x (S754_finite false my ey)).
Proof.
  destruct x as [s|[]| |[] mx ex]; simpl; try done. intros [Hdx Hex] Hdy Hey.
  pose proof (digits53 mx Hdx) as Hx. pose proof (digits53 my Hdy) as Hy.
  unfold SFdiv_core_binary. simpl Zdigits2. rewrite Hdx, Hdy, fexp_eq.
  replace (Z.min _ _) with (ex - ey - 53) by lia.
  replace (ex - ey - (ex - ey - 53)) with 53 by lia.
  rewrite Z.shiftl_mul_pow2 by lia. change (2 ^ 53) with 9007199254740992.
  destruct (Z.div_eucl _ _) as [q r] eqn:Hqr.
  assert (Hq : q = Zpos mx * 9007199254740992 / Zpos my) by (unfold Z.div; by rewrite Hqr).
  assert (Hq1 : 4503599627370496 <= q).
  { rewrite Hq. apply Z.div_le_lower_bound; [lia|nia]. }
  apply binary_round_aux_nonzero; [lia|].
  pose proof (Zdigits2_ge q 53). unfold SpecFloat.emin, emax, prec.
  change (2 ^ (53 - 1)) with 4503599627370496 in *. lia.
Qed.

(** *** Zero-valued terms *)

Lemma SFmul_finite_zero x z : sf_finite x -> sf_zero z -> sf_zero (SFmul prec emax x z).
Proof. by destruct x, z. Qed.

Lemma SFadd_zero_zero x y : sf_zero x -> sf_zero y -> sf_zero (SFadd prec emax x y).
Proof. destruct x as [[]| | |], y as [[]| | |]; by simpl. Qed.

Lemma SFsub_zero_zero x y : sf_zero x -> sf_zero y -> sf_zero (SFsub prec emax x y).
Proof. destruct x as [[]| | |], y as [[]| | |]; by simpl. Qed.

(** *** Sums with 1 *)

Lemma SFleb_finite_neg m1 e1 m2 e2 :
  SFleb (S754_finite true m1 e1) (S754_finite true m2 e2) = true <->
  e2 < e1 \/ (e1 = e2 /\ Zpos m2 <= Zpos m1).
Proof.
  unfold SFleb, SFcompare.
  change (Pos.compare_cont Eq m1 m2) with (Pos.compare m1 m2).
  destruct (Z.compare_spec e1 e2) as [He|He|He].
  - destruct (Pos.compare_spec m1 m2) as [Hm|Hm|Hm]; simpl; split; try done; try lia.
  - split; [done|lia].
  - split; [lia|done].
Qed.

Lemma valid_mantissa s m e :
  valid_binary (S754_finite s m e) = true -> Zpos m < 9007199254740992.
Proof.
  intros Hv. apply valid_finite in Hv as [Hc _].
  pose proof (digits2_pos_bounds m) as [_ Hm].
  assert (2 ^ Zpos (digits2_pos m) <= 2 ^ 53) by (apply Z.pow_le_mono_r; lia).
  change (2 ^ 53) with 9007199254740992 in *. lia.
Qed.

Lemma sf_small_intro f :
  valid_binary f = true ->
  SFleb (S754_finite true 4503599627370496 (-53)) f = true ->
  SFleb f (S754_finite false 4503599627370496 (-53)) = true ->
  sf_small f.
Proof.
  intros Hv Hlo Hhi. destruct f as [s|[]| |[] m e]; try done.
  - apply SFleb_finite_neg in Hlo. pose proof (valid_mantissa _ _ _ Hv) as Hm. simpl.
    destruct Hlo as [He|[<- Hle]].
    + split; [lia|].
      assert (2 ^ 53 <= 2 ^ (- e - 1)) by (apply Z.pow_le_mono_r; lia).
      change (2 ^ 53) with 9007199254740992 in *. lia.
    + split; [lia|]. change (2 ^ (- -53 - 1)) with 4503599627370496. lia.
  - apply SFleb_finite_pos in Hhi. pose proof (valid_mantissa _ _ _ Hv) as Hm. simpl.
    destruct Hhi as [He|[-> Hle]].
    + split; [lia|].
      assert (2 ^ 53 <= 2 ^ (- e - 1)) by (apply Z.pow_le_mono_r; lia).
      change (2 ^ 53) with 9007199254740992 in *. lia.
    + split; [lia|]. change (2 ^ (- -53 - 1)) with 4503599627370496. lia.
Qed.

(** Rounding a number between one half and three halves gives a normal
    number between one half and two. *)
Lemma binary_round_near_one S e :
  e <= -53 -> 2 ^ (- e - 1) <= S <= 3 * 2 ^ (- e - 1) ->
  normal_pos (-53) (-52) (binary_round_aux prec emax false S e loc_Exact).
Proof.
  intros He [Hlo Hhi].
  assert (Hp : 0 < 2 ^ (- e - 1)) by (apply Z.pow_pos_nonneg; lia).
  assert (Hp2 : 2 ^ (- e + 1) = 4 * 2 ^ (- e - 1)).
  { replace (- e + 1) with (2 + (- e - 1)) by lia. by rewrite Z.pow_add_r by lia. }
  assert (Hp1 : 2 ^ (- e) = 2 * 2 ^ (- e - 1)).
  { replace (- e) with (1 + (- e - 1)) at 1 by lia. by rewrite Z.pow_add_r by lia. }
  destruct (binary_round_aux_trunc false S e loc_Exact) as (m2 & Hb & ->); [lia|].
  destruct (Z.lt_ge_cases S (2 ^ (- e))) as [Hlt|Hge].
  - (* one half <= value < 1 *)
    assert (Hd : Zdigits2 S = - e) by (apply Zdigits2_unique; [lia|lia]).
    destruct (Z.eq_dec e (-53)) as [->|Hne].
    + rewrite (trunc_id S (-53)) in * by (rewrite fexp_eq, Hd; lia).
      simpl fst in Hb. simpl snd.
      change (2 ^ (- -53 - 1)) with 4503599627370496 in *.
      change (2 ^ (- -53)) with 9007199254740992 in *.
      destruct (pack_trunc_53 false m2 (-53)) as (m3 & e3 & -> & Hd3 & He3 & _);
        [lia|lia|lia|lia|].
      simpl. lia.
    + rewrite (trunc_shift S e (-53 - e)) in * by (rewrite ?fexp_eq, ?Hd; lia).
      simpl fst in Hb. simpl snd. replace (e + (-53 - e)) with (-53) by lia.
      assert (H1 : 4503599627370496 <= S / 2 ^ (-53 - e) < 9007199254740992).
      { assert (0 < 2 ^ (-53 - e)) by (apply Z.pow_pos_nonneg; lia).
        assert (Hq : 2 ^ (- e - 1) = 4503599627370496 * 2 ^ (-53 - e)).
        { replace (- e - 1) with (52 + (-53 - e)) by lia. by rewrite Z.pow_add_r by lia. }
        split; [apply Z.div_le_lower_bound; lia|apply Z.div_lt_upper_bound; lia]. }
      destruct (pack_trunc_53 false m2 (-53)) as (m3 & e3 & -> & Hd3 & He3 & _);
        [lia|lia|lia|lia|].
      simpl. lia.
  - (* 1 <= value <= three halves *)
    assert (Hd : Zdigits2 S = - e + 1).
    { apply Zdigits2_unique; [lia|]. replace (- e + 1 - 1) with (- e) by lia. lia. }
    rewrite (trunc_shift S e (-52 - e)) in * by (rewrite ?fexp_eq, ?Hd; lia).
    simpl fst in Hb. simpl snd. replace (e + (-52 - e)) with (-52) by lia.
    assert (H1 : 4503599627370496 <= S / 2 ^ (-52 - e) <= 6755399441055744).
    { assert (0 < 2 ^ (-52 - e)) by (apply Z.pow_pos_nonneg; lia).
      assert (Hq : 2 ^ (- e - 1) = 2251799813685248 * 2 ^ (-52 - e)).
      { replace (- e - 1) with (51 + (-52 - e)) by lia. by rewrite Z.pow_add_r by lia. }
      split; [apply Z.div_le_lower_bound; lia|].
      apply Z.lt_succ_r, Z.div_lt_upper_bound; lia. }
    destruct (pack_trunc_53 false m2 (-52)) as (m3 & e3 & -> & Hd3 & He3 & Hno & _);
      [lia|lia|lia|lia|].
    destruct Hno as [-> _]; [lia|]. simpl. lia.
Qed.

Lemma SFadd_one_small r :
  sf_small r ->
  normal_pos (-53) (-52)
    (SFadd prec emax (S754_finite false 4503599627370496 (-52)) r).
Proof.
  destruct r as [s| | |s m e]; try done.
  intros [He Hm]. unfold SFadd.
    replace (Z.min (-52) e) with e by lia.
    rewrite !shl_align_val by lia. replace (e - e) with 0 by lia.
    rewrite Z.pow_0_r, Z.mul_1_r.
    change (Zpos 4503599627370496) with (2 ^ 52).
    rewrite <- Z.pow_add_r by lia. replace (52 + (-52 - e)) with (- e) by lia.
    assert (Hp : 0 < 2 ^ (- e - 1)) by (apply Z.pow_pos_nonneg; lia).
    assert (Hp1 : 2 ^ (- e) = 2 * 2 ^ (- e - 1)).
    { replace (- e) with (1 + (- e - 1)) at 1 by lia. by rewrite Z.pow_add_r by lia. }
    set (S := cond_Zopp false (2 ^ (- e)) + cond_Zopp s (Zpos m)).
    assert (HS : 2 ^ (- e - 1) <= S <= 3 * 2 ^ (- e - 1)).
    { unfold S, cond_Zopp. destruct s; lia. }
    destruct S as [|p|p] eqn:ES; [lia| |lia]. unfold binary_normalize, binary_round.
    assert (Hd : fexp prec emax (Zpos (digits2_pos p) + e) >= e).
    { pose proof (Zdigits2_ge (Zpos p) (- e)) as Hg. simpl Zdigits2 in Hg.
      rewrite fexp_eq. specialize (Hg ltac:(lia) ltac:(lia)). lia. }
    unfold shl_align.
    destruct (fexp prec emax (Z.pos (digits2_pos p) + e) - e) as [|q|q] eqn:E; [| |lia].
    all: by apply binary_round_near_one.
Qed.

(** ** binary64 values of the program *)

Lemma f64_between lo hi x m1 e1 m2 e2 :
  Prim2SF lo = S754_finite false m1 e1 -> Prim2SF hi = S754_finite false m2 e2 ->
  -1074 < e1 ->
  (lo <=? x)%float = true -> (x <=? hi)%float = true -> fnormal e1 e2 x.
Proof.
  rewrite !leb_spec. intros -> -> He. apply between_normal; [apply Prim2SF_valid|done].
Qed.

Lemma fnormal_weaken lo hi lo' hi' x :
  fnormal lo hi x -> lo' <= lo -> hi <= hi' -> fnormal lo' hi' x.
Proof. apply normal_pos_weaken. Qed.

Lemma fnormal_mul a b c d x y :
  fnormal a b x -> fnormal c d y -> -1074 <= a + c + 52 -> b + d + 53 <= 971 ->
  fnormal (a + c + 52) (b + d + 53) (x * y)%float.
Proof. unfold fnormal. rewrite mul_spec. apply SFmul_normal_pos. Qed.

Lemma fnormal_one_plus r :
  (-0.5 <=? r)%float = true -> (r <=? 0.5)%float = true -> fnormal (-53) (-52) (1 + r)%float.
Proof.
  unfold fnormal. rewrite !leb_spec, add_spec. intros Hlo Hhi.
  apply SFadd_one_small, sf_small_intro; [apply Prim2SF_valid|done|done].
Qed.

Lemma fnormal_pos lo hi x : fnormal lo hi x -> (0 <? x)%float = true.
Proof. unfold fnormal. rewrite ltb_spec. apply normal_pos_ltb. Qed.

Lemma fnormal_mul_ge_one a b d x y :
  fnormal a b x -> fnormal (-52) d y -> -1074 <= a -> b + d + 53 <= 971 ->
  (x <=? x * y)%float = true.
Proof. unfold fnormal. rewrite leb_spec, mul_spec. apply SFmul_ge_one. Qed.

Lemma cumprod_from_normal l : forall acc a b,
  fnormal a b acc -> Forall (fnormal (-53) (-52)) l ->
  -1074 <= a - Z.of_nat (length l) -> b + Z.of_nat (length l) <= 971 ->
  Forall (fnormal (a - Z.of_nat (length l)) (b + Z.of_nat (length l))) (cumprod_from acc l).
Proof.
  induction l as [|x l IH]; intros acc a b Hacc Hl Hlo Hhi; simpl; [constructor|].
  apply Forall_cons in Hl as [Hx Hl]. simpl length in *.
  assert (Hp : fnormal (a - 1) (b + 1) (acc * x)%float).
  { eapply fnormal_weaken; [eapply (fnormal_mul _ _ _ _ _ _ Hacc Hx)|..]; lia. }
  constructor.
  - eapply fnormal_weaken; [exact Hp|lia|lia].
  - eapply Forall_impl; [apply (IH _ _ _ Hp Hl); lia|].
    intros y Hy. eapply fnormal_weaken; [exact Hy|lia|lia].
Qed.

Lemma cumprod_normal l :
  Forall (fnormal (-53) (-52)) l -> Z.of_nat (length l) <= 504 ->
  Forall (fnormal (-556) 451) (cumprod l).
Proof.
  destruct l as [|x l]; intros Hl Hn; simpl; [constructor|].
  apply Forall_cons in Hl as [Hx Hl]. simpl length in *. constructor.
  - eapply fnormal_weaken; [exact Hx|lia|lia].
  - eapply Forall_impl; [apply (cumprod_from_normal l x _ _ Hx Hl); lia|].
    intros y Hy. eapply fnormal_weaken; [exact Hy|lia|lia].
Qed.

Lemma length_cumprod_from l : forall acc, length (cumprod_from acc l) = length l.
Proof. induction l; intros; simpl; [done|by rewrite IHl]. Qed.

Lemma length_cumprod l : length (cumprod l) = length l.
Proof. destruct l; simpl; [done|by rewrite length_cumprod_from]. Qed.

(** ** The risk history *)

Lemma history_frame np today name s :
  exists r u m (s1 s2 s3 : rng_state np),
    rng_normal np 0.0005 0.01 n_days (rng_seed np (ord_sum name + 1)) = (r, s1) /\
    rng_uniform np 0.01 0.03 n_days s1 = (u, s2) /\
    rng_uniform np 1.2 1.5 n_days s2 = (m, s3) /\
    generate_dummy_risk_history np today name s =
      (<["Date" := DateCol (date_range_end today n_days)]>
       (<["NAV" := NumCol (history_nav r)]>
       (<["VaR_99_USD" := NumCol (arr_mul u (history_nav r))]>
       (<["ES_99_USD" := NumCol (arr_mul (arr_mul u (history_nav r)) m)]>
       (<["Drawdown_Pct" :=
            NumCol (arr_div (arr_sub (history_nav r) (cummax (history_nav r)))
                            (cummax (history_nav r)))]> ∅)))), s3).
Proof.
  unfold generate_dummy_risk_history.
  assert (Hlen : length (date_range_end today n_days) = n_days).
  { unfold date_range_end. by rewrite length_fmap, length_seq. }
  rewrite Hlen.
  destruct (rng_normal np 0.0005 0.01 n_days _) as [r s1] eqn:Hr.
  destruct (rng_uniform np 0.01 0.03 n_days s1) as [u s2] eqn:Hu.
  destruct (rng_uniform np 1.2 1.5 n_days s2) as [m s3] eqn:Hm.
  by exists r, u, m, s1, s2, s3.
Qed.

Section History.
Context (np : NumPy) (Hnp : numpy_contract np).

Lemma returns_normal n s :
  Forall (fnormal (-53) (-52)) (shift_arr 1 (fst (rng_normal np 0.0005 0.01 n s))).
Proof.
  unfold shift_arr. apply Forall_fmap, Forall_forall. intros r Hr. simpl.
  destruct (returns_bounded np Hnp n s r Hr) as [Hlo Hhi].
  by apply fnormal_one_plus.
Qed.

Lemma nav_normal n s : (n <= 504)%nat ->
  Forall (fnormal (-530) 478) (history_nav (fst (rng_normal np 0.0005 0.01 n s))).
Proof.
  intros Hn. unfold history_nav, scale_arr. apply Forall_fmap.
  eapply Forall_impl; [apply cumprod_normal; [apply returns_normal|]|].
  - unfold shift_arr. rewrite length_fmap, (normal_length np Hnp). lia.
  - intros p Hp. simpl.
    eapply fnormal_weaken; [eapply (fnormal_mul (-26) (-26) _ _ 100000000%float p)|..];
      [|exact Hp|lia|lia|lia|lia].
    unfold fnormal. simpl. done.
Qed.

Lemma uniform_normal lo hi m1 e1 m2 e2 n s :
  Prim2SF lo = S754_finite false m1 e1 -> Prim2SF hi = S754_finite false m2 e2 ->
  -1074 < e1 -> (lo <=? hi)%float = true ->
  Forall (fnormal e1 e2) (fst (rng_uniform np lo hi n s)).
Proof.
  intros Hlo Hhi He Hle. apply Forall_forall. intros x Hx.
  destruct (uniform_range np Hnp lo hi n s x Hle Hx).
  by eapply f64_between.
Qed.

End History.

Lemma length_history_nav r : length (history_nav r) = length r.
Proof.
  unfold history_nav, scale_arr, shift_arr.
  by rewrite length_fmap, length_cumprod, length_fmap.
Qed.

Section EsDominance.
Context (np : NumPy) (Hnp : numpy_contract np).

(** C5. At every point of the risk history the expected shortfall is at
    least the value at risk, and both are positive. *)
Theorem es_dominance today name s :
  exists vars ess,
    get_num (fst (generate_dummy_risk_history np today name s)) "VaR_99_USD" = Ok vars /\
    get_num (fst (generate_dummy_risk_history np today name s)) "ES_99_USD" = Ok ess /\
    length vars = n_days /\ length ess = n_days /\
    forall t v e, vars !! t = Some v -> ess !! t = Some e ->
      (v <=? e)%float = true /\ (0 <? v)%float = true /\ (0 <? e)%float = true.
Proof.
  destruct (history_frame np today name s) as (r & u & m & s1 & s2 & s3 & Hr & Hu & Hm & ->).
  pose proof (normal_length np Hnp 0.0005 0.01 n_days (rng_seed np (ord_sum name + 1))) as Lr.
  pose proof (uniform_length np Hnp 0.01 0.03 n_days s1) as Lu.
  pose proof (uniform_length np Hnp 1.2 1.5 n_days s2) as Lm.
  pose proof (nav_normal np Hnp n_days (rng_seed np (ord_sum name + 1))) as Nnav.
  pose proof (uniform_normal np Hnp 0.01 0.03 _ (-59) _ (-58) n_days s1 eq_refl eq_refl) as Nu.
  pose proof (uniform_normal np Hnp 1.2 1.5 _ (-52) _ (-52) n_days s2 eq_refl eq_refl) as Nm.
  rewrite Hr in Lr, Nnav. rewrite Hu in Lu, Nu. rewrite Hm in Lm, Nm. cbn [fst] in *.
  assert (Hd : (n_days <= 504)%nat) by (vm_compute; lia).
  specialize (Nnav Hd).
  specialize (Nu ltac:(lia) eq_refl). specialize (Nm ltac:(lia) eq_refl).
  eexists _, _. unfold get_num.
  rewrite !lookup_insert_ne, !lookup_insert_eq by done.
  rewrite !lookup_insert_ne, !lookup_insert_eq by done.
  split; [reflexivity|]. split; [reflexivity|].
  assert (Lv : length (arr_mul u (history_nav r)) = n_days).
  { unfold arr_mul. rewrite length_zip_with, length_history_nav, Lu, Lr. apply Nat.min_id. }
  split; [done|]. split.
  { unfold arr_mul at 1. rewrite length_zip_with, Lv, Lm. apply Nat.min_id. }
  intros t v e Hv He.
  apply lookup_zip_with_Some in He as (v' & mt & -> & Hv' & Hmt).
  rewrite Hv in Hv'. injection Hv' as <-.
  apply lookup_zip_with_Some in Hv as (ut & nt & -> & Hut & Hnt).
  pose proof (proj1 (Forall_lookup _ _) Nnav _ _ Hnt) as Pn.
  pose proof (proj1 (Forall_lookup _ _) Nu _ _ Hut) as Pu.
  pose proof (proj1 (Forall_lookup _ _) Nm _ _ Hmt) as Pm.
  assert (Pv : fnormal (-537) 473 (ut * nt)%float).
  { eapply fnormal_weaken; [apply (fnormal_mul _ _ _ _ _ _ Pu Pn)|..]; lia. }
  split; [|split].
  - eapply fnormal_mul_ge_one; [exact Pv|exact Pm|lia|lia].
  - eapply fnormal_pos, Pv.
  - eapply fnormal_pos, (fnormal_mul _ _ _ _ _ _ Pv Pm); lia.
Qed.
End EsDominance.

(** ** Running maximum and drawdown *)

Lemma normal_pos_leb_trans a b x y z :
  normal_pos a b x -> normal_pos a b y -> normal_pos a b z ->
  SFleb x y = true -> SFleb y z = true -> SFleb x z = true.
Proof.
  destruct x as [| | |[] mx ex]; try done. destruct y as [| | |[] my ey]; try done.
  destruct z as [| | |[] mz ez]; try done.
  intros _ _ _. rewrite !SFleb_finite_pos. lia.
Qed.

Lemma normal_pos_leb_antisym a b x y :
  normal_pos a b x -> normal_pos a b y ->
  SFleb x y = true -> SFleb y x = true -> x = y.
Proof.
  destruct x as [| | |[] mx ex]; try done. destruct y as [| | |[] my ey]; try done.
  intros _ _. rewrite !SFleb_finite_pos. intros H1 H2.
  assert (ex = ey) as -> by lia. assert (Zpos mx = Zpos my) as Hm by lia.
  by injection Hm as ->.
Qed.

Lemma fnormal_leb_refl a b x : fnormal a b x -> (x <=? x)%float = true.
Proof. unfold fnormal. rewrite leb_spec. apply normal_pos_leb_refl. Qed.

Lemma fnormal_leb_trans a b x y z :
  fnormal a b x -> fnormal a b y -> fnormal a b z ->
  (x <=? y)%float = true -> (y <=? z)%float = true -> (x <=? z)%float = true.
Proof. unfold fnormal. rewrite !leb_spec. apply normal_pos_leb_trans. Qed.

Lemma fnormal_leb_antisym a b x y :
  fnormal a b x -> fnormal a b y ->
  (x <=? y)%float = true -> (y <=? x)%float = true -> x = y.
Proof.
  unfold fnormal. rewrite !leb_spec. intros Hx Hy H1 H2.
  apply Prim2SF_inj. by eapply normal_pos_leb_antisym.
Qed.

Lemma normal_pos_total_leb a b x y :
  normal_pos a b x -> normal_pos a b y -> SFleb x y = false -> SFleb y x = true.
Proof.
  destruct x as [| | |[] mx ex]; try done. destruct y as [| | |[] my ey]; try done.
  intros _ _ Hle. apply SFleb_finite_pos.
  destruct (Z.lt_trichotomy ey ex) as [?|[->|?]]; [by left| |].
  - right. split; [done|]. destruct (Z.le_gt_cases (Zpos my) (Zpos mx)); [done|].
    rewrite (proj2 (SFleb_finite_pos mx ex my ex)) in Hle; [done|lia].
  - rewrite (proj2 (SFleb_finite_pos mx ex my ey)) in Hle; [done|lia].
Qed.

Lemma fnormal_not_nan a b x : fnormal a b x -> is_nan x = false.
Proof.
  unfold fnormal, is_nan. rewrite FloatAxioms.eqb_spec.
  destruct (Prim2SF x) as [| | |[] m e] eqn:E; try done. intros _.
  unfold SFeqb. simpl. by rewrite Z.compare_refl, Pos.compare_cont_refl.
Qed.

Lemma np_maximum_spec a b acc x :
  fnormal a b acc -> fnormal a b x ->
  fnormal a b (np_maximum acc x) /\
  (np_maximum acc x = acc \/ np_maximum acc x = x) /\
  (acc <=? np_maximum acc x)%float = true /\ (x <=? np_maximum acc x)%float = true.
Proof.
  intros Hacc Hx. unfold np_maximum. rewrite (fnormal_not_nan a b acc Hacc), orb_false_r.
  destruct (x <=? acc)%float eqn:Hle.
  - split; [done|]. split; [by left|]. split; [by eapply fnormal_leb_refl|done].
  - split; [done|]. split; [by right|]. split.
    + rewrite leb_spec in *. by eapply normal_pos_total_leb.
    + by eapply fnormal_leb_refl.
Qed.

Lemma maximum_accumulate_from_spec a b l : forall acc t rm,
  fnormal a b acc -> Forall (fnormal a b) l ->
  maximum_accumulate_from acc l !! t = Some rm ->
  fnormal a b rm /\ (acc <=? rm)%float = true /\
  (rm = acc \/ exists j, (j <= t)%nat /\ l !! j = Some rm) /\
  (forall j x, (j <= t)%nat -> l !! j = Some x -> (x <=? rm)%float = true).
Proof.
  induction l as [|x0 l IH]; intros acc t rm Hacc Hl Hrm; [done|].
  apply Forall_cons in Hl as [Hx0 Hl].
  destruct (np_maximum_spec a b acc x0 Hacc Hx0) as (Hm & Hor & Hle1 & Hle2).
  destruct t as [|t]; simpl in Hrm.
  - injection Hrm as <-. split; [done|]. split; [done|]. split.
    + destruct Hor as [->| ->]; [by left|right]. exists 0%nat. by split.
    + intros j x Hj Hx. assert (j = 0)%nat as -> by lia.
      simpl in Hx. by injection Hx as <-.
  - destruct (IH _ _ _ Hm Hl Hrm) as (Hn & Hle & Hin & Hall).
    split; [done|].
    split; [by eapply (fnormal_leb_trans a b acc (np_maximum acc x0) rm)|]. split.
    + destruct Hin as [->|(j & Hj & Hjl)].
      * destruct Hor as [->| ->]; [by left|right]. exists 0%nat. split; [lia|done].
      * right. exists (S j). split; [lia|done].
    + intros [|j] x Hj Hx; simpl in Hx.
      * injection Hx as <-.
        by eapply (fnormal_leb_trans a b x0 (np_maximum acc x0) rm).
      * apply (Hall j x); [lia|done].
Qed.

Lemma maximum_accumulate_spec a b l t rm :
  Forall (fnormal a b) l -> maximum_accumulate l !! t = Some rm ->
  fnormal a b rm /\ is_running_max l t rm.
Proof.
  destruct l as [|x0 l]; [done|]. intros Hl Hrm.
  apply Forall_cons in Hl as [Hx0 Hl]. unfold is_running_max.
  destruct t as [|t]; simpl in Hrm.
  - injection Hrm as <-. split; [done|]. split.
    + exists 0%nat. by split.
    + intros j x Hj Hx. assert (j = 0)%nat as -> by lia.
      simpl in Hx. injection Hx as <-. by eapply fnormal_leb_refl.
  - destruct (maximum_accumulate_from_spec a b l x0 t rm Hx0 Hl Hrm)
      as (Hn & Hle & Hin & Hall).
    split; [done|]. split.
    + destruct Hin as [->|(j & Hj & Hjl)].
      * exists 0%nat. split; [lia|done].
      * exists (S j). split; [lia|done].
    + intros [|j] x Hj Hx; simpl in Hx.
      * by injection Hx as <-.
      * apply (Hall j x); [lia|done].
Qed.

Lemma length_maximum_accumulate_from l : forall acc,
  length (maximum_accumulate_from acc l) = length l.
Proof. induction l; intros; simpl; [done|by rewrite IHl]. Qed.

Lemma length_maximum_accumulate l : length (maximum_accumulate l) = length l.
Proof. destruct l; simpl; [done|by rewrite length_maximum_accumulate_from]. Qed.

(** Without missing values, [cummax] is the running maximum itself. *)
Lemma cummax_no_nan l :
  Forall (fun x => is_nan x = false) l -> cummax l = maximum_accumulate l.
Proof.
  intros Hl. unfold cummax.
  assert (Hv : ((fun x => if is_nan x then neg_infinity else x) <$> l) = l).
  { induction Hl as [|x l Hx _ IH]; [done|]. rewrite fmap_cons, IH. by rewrite Hx. }
  rewrite Hv. clear Hv.
  assert (Hz : forall k : list f64, length k = length l ->
            zip_with (fun (m : bool) r => if m then nan else r) (is_nan <$> l) k = k).
  { induction Hl as [|x l Hx _ IH]; intros [|y k] Hk; try done.
    rewrite fmap_cons. simpl. rewrite Hx, IH; [done|]. by injection Hk. }
  apply Hz, length_maximum_accumulate.
Qed.

Lemma cummax_spec a b l t rm :
  Forall (fnormal a b) l -> cummax l !! t = Some rm ->
  fnormal a b rm /\ is_running_max l t rm.
Proof.
  intros Hl. rewrite cummax_no_nan; [by apply maximum_accumulate_spec|].
  eapply Forall_impl; [exact Hl|]. intros x. apply fnormal_not_nan.
Qed.

Lemma length_cummax l : length (cummax l) = length l.
Proof.
  unfold cummax. by rewrite length_zip_with, !length_fmap, length_maximum_accumulate,
    length_fmap, Nat.min_id.
Qed.

Lemma sf_nonpos_leb f : sf_nonpos f -> SFleb f (S754_zero false) = true.
Proof. by destruct f as [[]|[]| |[] ? ?]. Qed.

Lemma drawdown_nonpos a b nav rmax :
  fnormal a b nav -> fnormal a b rmax -> (nav <=? rmax)%float = true ->
  ((nav - rmax) / rmax <=? 0)%float = true.
Proof.
  unfold fnormal. rewrite !leb_spec, div_spec, sub_spec. intros Hn Hr Hle.
  change (Prim2SF 0) with (S754_zero false). apply sf_nonpos_leb.
  pose proof (SFsub_le_nonpos a b a b _ _ Hn Hr Hle) as Hs.
  destruct (Prim2SF rmax) as [| | |[] mr er]; try done.
  by apply SFdiv_nonpos.
Qed.

Lemma drawdown_at_high a b nav : fnormal a b nav -> ((nav - nav) / nav)%float = 0%float.
Proof.
  unfold fnormal. intros Hn. apply Prim2SF_inj. rewrite div_spec, sub_spec.
  destruct (Prim2SF nav) as [| | |[] m e]; try done.
  unfold SF64sub, SF64div. by rewrite SFsub_diag.
Qed.

Section Drawdown.
Context (np : NumPy) (Hnp : numpy_contract np).

(** C6. At every point of the risk history the drawdown is
    [(nav - rmax) / rmax] for the running maximum [rmax] of the NAV up to
    and including that point; it is at most 0, and it is 0 where the NAV
    is a new all-time high. *)
Theorem drawdown_bound today name s :
  exists navs dds,
    get_num (fst (generate_dummy_risk_history np today name s)) "NAV" = Ok navs /\
    get_num (fst (generate_dummy_risk_history np today name s)) "Drawdown_Pct" = Ok dds /\
    length navs = n_days /\ length dds = n_days /\
    forall t nav dd, navs !! t = Some nav -> dds !! t = Some dd ->
      exists rmax, is_running_max navs t rmax /\
        dd = ((nav - rmax) / rmax)%float /\
        (dd <=? 0)%float = true /\
        ((forall j x, (j <= t)%nat -> navs !! j = Some x -> (x <=? nav)%float = true) ->
         dd = 0%float).
Proof.
  destruct (history_frame np today name s) as (r & u & m & s1 & s2 & s3 & Hr & Hu & Hm & ->).
  pose proof (normal_length np Hnp 0.0005 0.01 n_days (rng_seed np (ord_sum name + 1))) as Lr.
  pose proof (nav_normal np Hnp n_days (rng_seed np (ord_sum name + 1))) as Nnav.
  rewrite Hr in Lr, Nnav. cbn [fst] in *.
  assert (Hd : (n_days <= 504)%nat) by (vm_compute; lia).
  specialize (Nnav Hd).
  set (navs := history_nav r) in *.
  assert (Ln : length navs = n_days) by (unfold navs; by rewrite length_history_nav).
  eexists _, _. unfold get_num.
  rewrite !lookup_insert_ne, !lookup_insert_eq by done.
  rewrite !lookup_insert_ne, !lookup_insert_eq by done.
  split; [reflexivity|]. split; [reflexivity|]. split; [done|]. split.
  { unfold arr_div, arr_sub. rewrite !length_zip_with, length_cummax, Ln.
    by rewrite !Nat.min_id. }
  intros t nav dd Hnav Hdd.
  apply lookup_zip_with_Some in Hdd as (d & rmax & -> & Hd' & Hrm).
  apply lookup_zip_with_Some in Hd' as (nav' & rmax' & -> & Hnav' & Hrm').
  rewrite Hnav in Hnav'. injection Hnav' as <-.
  rewrite Hrm in Hrm'. injection Hrm' as <-.
  destruct (cummax_spec _ _ _ _ _ Nnav Hrm) as (Nr & Hmax).
  pose proof (proj1 (Forall_lookup _ _) Nnav _ _ Hnav) as Nn.
  assert (Hle : (nav <=? rmax)%float = true) by (apply (proj2 Hmax t nav); [lia|done]).
  exists rmax. split; [done|]. split; [done|]. split.
  - by eapply drawdown_nonpos.
  - intros Hhigh. destruct Hmax as [(j & Hj & Hjr) _].
    assert (rmax = nav) as ->.
    { eapply fnormal_leb_antisym; [done|done| |done]. by apply (Hhigh j). }
    by eapply drawdown_at_high.
Qed.
End Drawdown.

(** ** Signs and finiteness of binary64 values *)

Lemma sf_nonneg_leb f : sf_nonneg f <-> SFleb (S754_zero false) f = true.
Proof. by destruct f as [[]|[]| |[] ? ?]. Qed.

Lemma strict_sign_ltb f : strict_sign false f -> SFltb (S754_zero false) f = true.
Proof. destruct f as [| | |[] ? ?]; simpl; try done; by intros ->. Qed.

Lemma sf_ge_one_intro f :
  valid_binary f = true -> SFleb (S754_finite false 4503599627370496 (-52)) f = true ->
  sf_ge_one f.
Proof.
  intros Hv Hle. destruct f as [s|[]| |[] m e]; try done.
  apply SFleb_finite_pos in Hle. apply valid_finite in Hv. simpl. lia.
Qed.

Lemma normal_pos_ge_one a b f :
  normal_pos a b f -> -52 <= a ->
  SFleb (S754_finite false 4503599627370496 (-52)) f = true.
Proof.
  destruct f as [| | |[] m e]; try done. intros [Hd He] Ha.
  apply SFleb_finite_pos. pose proof (digits53 m Hd). lia.
Qed.

Lemma is_finite_sf x : PrimFloat.is_finite x = true -> sf_finite (Prim2SF x).
Proof.
  unfold PrimFloat.is_finite, is_nan, is_infinity.
  rewrite !FloatAxioms.eqb_spec, abs_spec. change (Prim2SF infinity) with (S754_infinity false).
  by destruct (Prim2SF x) as [[]|[]| |[] m e].
Qed.

Lemma SFeqb_refl s f : has_sign s f -> SFeqb f f = true.
Proof.
  destruct f as [[]|[]| |[] m e]; try done; intros _; unfold SFeqb; simpl.
  all: by rewrite Z.compare_refl, Pos.compare_cont_refl.
Qed.

Lemma SFmul_finite_sign x y :
  sf_finite x -> sf_finite y -> exists s, has_sign s (SFmul prec emax x y).
Proof.
  destruct x as [sx| | |sx mx ex]; try done; destruct y as [sy| | |sy my ey]; try done.
  all: intros _ _; eexists; simpl; try reflexivity.
  by apply binary_round_aux_sign.
Qed.

(** The entries of a 0/1 mask. *)
Lemma mask_eq_values a key k : k ∈ mask_eq a key -> k = 1%float \/ k = 0%float.
Proof.
  unfold mask_eq. intros (c & -> & _)%list_elem_of_fmap.
  destruct (String.eqb c key); auto.
Qed.

(** ** Rounded columns of the position book *)

Section Rounding.
Context (np : NumPy) (Hnp : numpy_contract np).

Lemma clip_min_nonneg d k :
  PrimFloat.is_finite d = true -> k = 1%float \/ k = 0%float ->
  (0 <=? clip_min 0 (d * k))%float = true.
Proof.
  intros Hd Hk. unfold clip_min, np_maximum.
  destruct (0 <=? d * k)%float eqn:Hle; simpl; [done|].
  assert (Hn : is_nan (d * k) = false).
  { unfold is_nan. rewrite FloatAxioms.eqb_spec, mul_spec.
    destruct (SFmul_finite_sign (Prim2SF d) (Prim2SF k)) as [s Hs].
    - by apply is_finite_sf.
    - by destruct Hk as [-> | ->].
    - unfold SF64mul. by rewrite (SFeqb_refl s). }
  by rewrite Hn.
Qed.

Lemma round_nonneg decimals m e x :
  Prim2SF (pow10 decimals) = S754_finite false m e ->
  (0 <=? x)%float = true ->
  (0 <=? np_rint np (x * pow10 decimals) / pow10 decimals)%float = true.
Proof.
  intros Hp Hx.
  assert (H1 : (0 <=? x * pow10 decimals)%float = true).
  { rewrite leb_spec in *. rewrite mul_spec, Hp.
    change (Prim2SF 0) with (S754_zero false) in *.
    apply sf_nonneg_leb, SFmul_nonneg. by apply sf_nonneg_leb. }
  apply (rint_nonneg np Hnp) in H1.
  rewrite leb_spec in *. rewrite div_spec, Hp.
  change (Prim2SF 0) with (S754_zero false) in *.
  apply sf_nonneg_leb, SFdiv_nonneg. by apply sf_nonneg_leb.
Qed.

Lemma round_market_value x :
  (50000 <=? x)%float = true -> (x <=? 5000000)%float = true ->
  (0 <? np_rint np (x * pow10 2) / pow10 2)%float = true.
Proof.
  intros Hlo Hhi. change (pow10 2) with 100%float.
  assert (Hx : fnormal (-37) (-30) x).
  { by eapply (f64_between 50000 5000000); [reflexivity|reflexivity|lia|..]. }
  assert (Hy : fnormal (-31) (-23) (x * 100)%float).
  { eapply fnormal_weaken;
      [eapply (fnormal_mul _ _ (-46) (-46) x 100%float Hx)|..]; try lia.
    unfold fnormal. simpl. done. }
  assert (H1 : (1 <=? x * 100)%float = true).
  { rewrite leb_spec. eapply normal_pos_ge_one; [exact Hy|lia]. }
  apply (rint_ge_one np Hnp) in H1.
  rewrite ltb_spec, div_spec. apply strict_sign_ltb.
  change (Prim2SF 100) with (S754_finite false 7036874417766400 (-46)).
  apply SFdiv_pos; [|reflexivity|lia].
  apply sf_ge_one_intro; [apply Prim2SF_valid|]. by rewrite leb_spec in H1.
Qed.

End Rounding.

Section Positions.
Context (np : NumPy) (Hnp : numpy_contract np).

(** C8. Every generated position has a positive market value and a
    non-negative duration: both columns have one entry per position, every
    entry of [MarketValueUSD] is greater than 0 and every entry of
    [Duration] is at least 0. *)
Theorem generation_invariant name s :
  exists mvs durs,
    get_num (fst (generate_dummy_positions np name s)) "MarketValueUSD" = Ok mvs /\
    get_num (fst (generate_dummy_positions np name s)) "Duration" = Ok durs /\
    length durs = length mvs /\
    (forall x, x ∈ mvs -> (0 <? x)%float = true) /\
    (forall d, d ∈ durs -> (0 <=? d)%float = true).
Proof.
  unfold generate_dummy_positions.
  destruct (rng_randint np 10 30 _) as [n_positions s1].
  set (n := Z.to_nat n_positions).
  destruct (rng_choice np _ n _ s1) as [cls s2] eqn:Hc.
  destruct (rng_uniform np 50000 5000000 n s2) as [mvs s3] eqn:Hu.
  destruct (rng_normal np 1 0.5 n s3) as [b1 s4].
  destruct (rng_normal np 0.1 0.1 n s4) as [b2 s5].
  destruct (rng_normal np 5 2 n s5) as [dd s6] eqn:Hd.
  destruct (rng_normal np 0.05 0.2 n s6) as [oo s7].
  cbn [fst]. eexists _, _. unfold get_num.
  rewrite !lookup_insert_ne, !lookup_insert_eq by done.
  rewrite !lookup_insert_ne, !lookup_insert_eq by done.
  split; [reflexivity|]. split; [reflexivity|].
  pose proof (choice_length np Hnp ["Equity"; "Fixed Income"; "FX"; "Commodity"]%string
                n [0.5; 0.2; 0.15; 0.15]%float s1) as Lc.
  pose proof (uniform_length np Hnp 50000 5000000 n s2) as Lu.
  pose proof (normal_length np Hnp 5 2 n s5) as Ld.
  rewrite Hc in Lc. rewrite Hu in Lu. rewrite Hd in Ld. cbn [fst] in *.
  split; [|split].
  - unfold np_round, arr_mul, mask_eq.
    rewrite !length_fmap, length_zip_with, length_fmap, Lc, Lu, Ld.
    apply Nat.min_id.
  - intros x (y & -> & Hy)%list_elem_of_fmap.
    destruct (uniform_range np Hnp 50000 5000000 n s2 y eq_refl) as [Hlo Hhi].
    { by rewrite Hu. }
    by apply round_market_value.
  - intros d (c & -> & Hcl)%list_elem_of_fmap.
    apply list_elem_of_fmap in Hcl as (v & -> & Hv).
    apply elem_of_zip_with in Hv as (dr & k & -> & Hdr & Hk).
    apply (round_nonneg np Hnp 3 8796093022208000 (-43)); [reflexivity|].
    apply clip_min_nonneg; [|by eapply mask_eq_values].
    apply (normal_finite np Hnp 5 2 n s5); [reflexivity|reflexivity|].
    by rewrite Hd.
Qed.

End Positions.

(** ** The scenario engine *)

Lemma simulate_ok (h : store) (r : loc) (df : DataFrame) mv beta oil dur spx bps oilk :
  h !! r = Some df -> position_book df mv beta oil dur ->
  simulate_scenario_pnl r spx bps oilk h =
    Ok (r, <[r := <["ScenarioPnL" :=
                      NumCol (scenario_pnl mv beta oil dur spx (bps / 10000)%float oilk)]> df]> h).
Proof.
  intros Hr (Hmv & Hb & Ho & Hd & _).
  unfold simulate_scenario_pnl, deref, get_num.
  by rewrite Hr; simpl; rewrite Hmv; simpl; rewrite Hb; simpl; rewrite Ho; simpl; rewrite Hd.
Qed.

Lemma scenario_pnl_lookup mv beta oil dur spx rate oilk i m b o d :
  mv !! i = Some m -> beta !! i = Some b -> oil !! i = Some o -> dur !! i = Some d ->
  scenario_pnl mv beta oil dur spx rate oilk !! i
    = Some (m * (b * spx + o * oilk - d * rate))%float.
Proof.
  intros Hm Hb Ho Hd.
  unfold scenario_pnl, arr_mul, arr_sub, arr_add, arr_scale.
  rewrite !lookup_zip_with, !list_lookup_fmap, Hm, Hb, Ho, Hd. reflexivity.
Qed.

Lemma length_scenario_pnl mv beta oil dur spx rate oilk :
  length beta = length mv -> length oil = length mv -> length dur = length mv ->
  length (scenario_pnl mv beta oil dur spx rate oilk) = length mv.
Proof.
  intros Hb Ho Hd. unfold scenario_pnl, arr_mul, arr_sub, arr_add, arr_scale.
  rewrite !length_zip_with, !length_fmap, Hb, Ho, Hd. by rewrite !Nat.min_id.
Qed.

(** C3. The engine computes, for every position,
    [MarketValueUSD * (Beta_SPX * spx_shock + Delta_Oil * oil_shock
     - Duration * (rates_shock_bps / 10000))]; a position of market value
    1,000,000 and duration 4, with no other sensitivity, gets exactly
    -40,000 under a rate shock of 100 bps. *)
Theorem scenario_formula (h : store) (r : loc) (df : DataFrame)
    mv beta oil dur spx bps oilk :
  h !! r = Some df -> position_book df mv beta oil dur ->
  (exists pnl h' df',
    simulate_scenario_pnl r spx bps oilk h = Ok (r, h') /\
    h' !! r = Some df' /\ df' !! "ScenarioPnL" = Some (NumCol pnl) /\
    length pnl = length mv /\
    forall i m b o d,
      mv !! i = Some m -> beta !! i = Some b -> oil !! i = Some o -> dur !! i = Some d ->
      pnl !! i = Some (m * (b * spx + o * oilk - d * (bps / 10000)))%float) /\
  scenario_pnl [1000000]%float [0]%float [0]%float [4]%float 0 (100 / 10000) 0
    = [-40000]%float.
Proof.
  intros Hr Hbook. split; [|reflexivity].
  eexists _, _, _. rewrite (simulate_ok h r df mv beta oil dur) by done.
  split; [reflexivity|]. rewrite lookup_insert_eq. split; [reflexivity|].
  rewrite lookup_insert_eq. split; [reflexivity|].
  destruct Hbook as (_ & _ & _ & _ & Lb & Lo & Ld).
  split; [by apply length_scenario_pnl|].
  intros i m b o d. apply scenario_pnl_lookup.
Qed.

Lemma sf_zero_eqb f : sf_zero f -> SFeqb f (S754_zero false) = true.
Proof. by destruct f. Qed.

Lemma zero_shock_term m b o d :
  PrimFloat.is_finite m = true -> PrimFloat.is_finite b = true ->
  PrimFloat.is_finite o = true -> PrimFloat.is_finite d = true ->
  (m * (b * 0 + o * 0 - d * (0 / 10000)) =? 0)%float = true.
Proof.
  intros Hm Hb Ho Hd. apply is_finite_sf in Hm, Hb, Ho, Hd.
  change (0 / 10000)%float with 0%float.
  rewrite FloatAxioms.eqb_spec, !mul_spec, sub_spec, add_spec, !mul_spec.
  change (Prim2SF 0) with (S754_zero false).
  apply sf_zero_eqb, SFmul_finite_zero; [done|].
  apply SFsub_zero_zero; [apply SFadd_zero_zero|]; by apply SFmul_finite_zero.
Qed.

(** C7. Under the empty shock (0, 0, 0) every position of a book of
    finite numbers gets a scenario P&L equal to 0. *)
Theorem zero_shock_identity (h : store) (r : loc) (df : DataFrame) mv beta oil dur :
  h !! r = Some df -> position_book df mv beta oil dur ->
  Forall (fun x => PrimFloat.is_finite x = true) mv ->
  Forall (fun x => PrimFloat.is_finite x = true) beta ->
  Forall (fun x => PrimFloat.is_finite x = true) oil ->
  Forall (fun x => PrimFloat.is_finite x = true) dur ->
  exists pnl h' df',
    simulate_scenario_pnl r 0 0 0 h = Ok (r, h') /\
    h' !! r = Some df' /\ df' !! "ScenarioPnL" = Some (NumCol pnl) /\
    length pnl = length mv /\
    forall x, x ∈ pnl -> (x =? 0)%float = true.
Proof.
  intros Hr Hbook Fm Fb Fo Fd.
  eexists _, _, _. rewrite (simulate_ok h r df mv beta oil dur) by done.
  split; [reflexivity|]. rewrite lookup_insert_eq. split; [reflexivity|].
  rewrite lookup_insert_eq. split; [reflexivity|].
  destruct Hbook as (_ & _ & _ & _ & Lb & Lo & Ld).
  split; [by apply length_scenario_pnl|].
  intros x Hx. unfold scenario_pnl, arr_mul, arr_sub, arr_add, arr_scale in Hx.
  apply elem_of_zip_with in Hx as (m & t & -> & Hm & Ht).
  apply elem_of_zip_with in Ht as (t1 & t2 & -> & Ht1 & Ht2).
  apply elem_of_zip_with in Ht1 as (t3 & t4 & -> & Ht3 & Ht4).
  apply list_elem_of_fmap in Ht2 as (d & -> & Hd).
  apply list_elem_of_fmap in Ht3 as (b & -> & Hb).
  apply list_elem_of_fmap in Ht4 as (o & -> & Ho).
  rewrite Forall_forall in Fm, Fb, Fo, Fd.
  apply zero_shock_term; auto.
Qed.



(** C1, counterexample: after a call on a one-position book the
    reference returned is the argument, and the frame it denotes is no
    longer the one the caller passed. *)
Lemma purity_counterexample :
  exists h' : store,
    simulate_scenario_pnl 1%positive 0 100 0 {[1%positive := rate_book]} = Ok (1%positive, h') /\
    h' !! 1%positive ≠ ({[1%positive := rate_book]} : store) !! 1%positive.
Proof.
  eexists. split; [reflexivity|].
  rewrite lookup_insert_eq, lookup_singleton_eq. intros H.
  assert (K := f_equal (fun o : option DataFrame => o ≫= (.!! "ScenarioPnL")) H).
  vm_compute in K. discriminate K.
Qed.

(** C1 (as amended). The engine works in place: it assigns the
    [ScenarioPnL] column on the frame its argument refers to and returns
    that same reference; the other columns of the frame and the other
    objects of the store are unchanged, and the column written depends
    only on the four columns read and on the shocks. *)
Theorem scenario_in_place (h : store) (r : loc) (df : DataFrame)
    mv beta oil dur spx bps oilk :
  h !! r = Some df -> position_book df mv beta oil dur ->
  exists h' df',
    simulate_scenario_pnl r spx bps oilk h = Ok (r, h') /\
    h' !! r = Some df' /\
    df' !! "ScenarioPnL"
      = Some (NumCol (scenario_pnl mv beta oil dur spx (bps / 10000)%float oilk)) /\
    (forall c, c ≠ "ScenarioPnL" -> df' !! c = df !! c) /\
    (forall r2, r2 ≠ r -> h' !! r2 = h !! r2).
Proof.
  intros Hr Hbook. eexists _, _.
  rewrite (simulate_ok h r df mv beta oil dur) by done.
  split; [reflexivity|]. rewrite lookup_insert_eq. split; [reflexivity|].
  rewrite lookup_insert_eq. split; [reflexivity|]. split.
  - intros c Hc. by rewrite lookup_insert_ne.
  - intros r2 Hr2. by rewrite lookup_insert_ne.
Qed.

(** C9, counterexample: a book with a negative and a zero market value
    is processed without any error. *)
Lemma fail_fast_counterexample :
  get_num short_book "MarketValueUSD" = Ok [-250000; 0]%float /\
  ¬ raises (simulate_scenario_pnl 1%positive (-0.15) 0 0 {[1%positive := short_book]}).
Proof. split; [reflexivity|]. vm_compute. tauto. Qed.

(** C9 (as amended). The engine raises when one of the four columns it
    reads is missing, and only then: a book that has the four numeric
    columns is processed whatever the sign of its market values. The
    aggregation raises when the scenario column or the asset class column
    is missing. *)
Theorem missing_column_raises (h : store) (r : loc) (df : DataFrame) spx bps oilk :
  h !! r = Some df ->
  (df !! "MarketValueUSD" = None \/ df !! "Beta_SPX" = None \/
   df !! "Delta_Oil" = None \/ df !! "Duration" = None ->
   raises (simulate_scenario_pnl r spx bps oilk h)) /\
  (forall mv beta oil dur, position_book df mv beta oil dur ->
   ¬ raises (simulate_scenario_pnl r spx bps oilk h)) /\
  (df !! "ScenarioPnL" = None \/ df !! "AssetClass" = None -> raises (summarize df)).
Proof.
  intros Hr. split; [|split].
  3:{ intros Hmiss. unfold summarize, get_num, get_str.
      destruct (df !! "ScenarioPnL") as [[]|]; simpl; try done.
      destruct (df !! "AssetClass") as [[]|]; simpl; try done.
      destruct Hmiss as [H|H]; discriminate H. }
  - intros Hmiss. unfold simulate_scenario_pnl, deref, get_num. rewrite Hr. simpl.
    destruct (df !! "MarketValueUSD") as [[]|]; simpl; try done.
    destruct (df !! "Beta_SPX") as [[]|]; simpl; try done.
    destruct (df !! "Delta_Oil") as [[]|]; simpl; try done.
    destruct (df !! "Duration") as [[]|]; simpl; try done.
    destruct Hmiss as [H|[H|[H|H]]]; discriminate H.
  - intros mv beta oil dur Hbook.
    rewrite (simulate_ok h r df mv beta oil dur) by done. simpl. tauto.
Qed.

(** ** Aggregation *)

Lemma summarize_ok (df : DataFrame) pnl classes :
  df !! "ScenarioPnL" = Some (NumCol pnl) -> df !! "AssetClass" = Some (StrCol classes) ->
  exists rows tr,
    summarize df = Ok (rows ++ [tr], f64_sum pnl) /\
    sr_class tr = "**TOTAL**"%string /\
    sr_total tr
      = grand_total PrimFloat.add PrimFloat.sub 0%float PrimFloat.is_nan classes pnl.
Proof.
  intros Hp Hc. unfold summarize, get_num, get_str. rewrite Hp; simpl. rewrite Hc; simpl.
  eexists _, _. split; [reflexivity|]. split; [reflexivity|]. simpl.
  unfold grand_total, f64_sum. by rewrite map_map.
Qed.

(** The rows of the summary, column by column. *)
Lemma summarize_rows (df : DataFrame) pnl classes :
  df !! "ScenarioPnL" = Some (NumCol pnl) -> df !! "AssetClass" = Some (StrCol classes) ->
  exists rows tr,
    summarize df = Ok (rows ++ [tr], f64_sum pnl) /\
    sr_class <$> rows = group_keys classes /\
    sr_total <$> rows
      = (fun k => f64_group_sum (group_members k classes pnl)) <$> group_keys classes /\
    sr_n <$> rows
      = (fun k => Z.of_nat (f64_count (group_members k classes pnl))) <$> group_keys classes /\
    sr_class tr = "**TOTAL**"%string /\
    sr_total tr = f64_sum (sr_total <$> rows) /\
    sr_avg tr = PrimFloat.nan /\
    sr_n tr = py_sum (sr_n <$> rows).
Proof.
  intros Hp Hc. unfold summarize, get_num, get_str. rewrite Hp; simpl. rewrite Hc; simpl.
  eexists _, _. split; [reflexivity|].
  split; [|split; [|split; [|done]]].
  - rewrite <- list_fmap_compose.
    rewrite <- (list_fmap_id (group_keys classes)) at 2. by apply list_fmap_ext.
  - rewrite <- list_fmap_compose. by apply list_fmap_ext.
  - rewrite <- list_fmap_compose. by apply list_fmap_ext.
Qed.

(** *** The reductions over exact numbers *)

Section Exact.
Context {T : Type} (add sub : T -> T -> T) (zero : T).
Hypothesis add_assoc : forall x y z, add x (add y z) = add (add x y) z.
Hypothesis add_comm : forall x y, add x y = add y x.
Hypothesis add_zero : forall x, add zero x = x.
Hypothesis sub_add : forall x y, sub (add x y) y = x.

Local Abbreviation total l := (fold_left add l zero).

Lemma fold_left_add l : forall a, fold_left add l a = add a (total l).
Proof.
  induction l as [|x l IH]; intros a; simpl.
  - by rewrite add_comm, add_zero.
  - rewrite (IH (add a x)), (IH (add zero x)), add_zero. by rewrite add_assoc.
Qed.

Lemma total_cons x l : total (x :: l) = add x (total l).
Proof. simpl. rewrite add_zero. apply fold_left_add. Qed.

Lemma total_app l1 l2 : total (l1 ++ l2) = add (total l1) (total l2).
Proof. rewrite fold_left_app. apply fold_left_add. Qed.

Lemma total_zip_with r : forall b, length r = length b ->
  total (zip_with add r b) = add (total r) (total b).
Proof.
  induction r as [|x r IH]; intros [|y b] Hlen; try done.
  simpl zip_with. rewrite !total_cons, IH by (by injection Hlen).
  rewrite !add_assoc. f_equal. rewrite <- !add_assoc. f_equal. apply add_comm.
Qed.

Lemma sum8_exact r : length r = 8%nat -> sum8 add zero r = total r.
Proof.
  intros Hlen. do 9 (destruct r as [|? r]; try done).
  simpl. by rewrite add_zero, !add_assoc.
Qed.

Lemma lanes_exact k : forall r a, length r = 8%nat -> (8 * k <= length a)%nat ->
  length (lanes add r a k) = 8%nat /\
  total (lanes add r a k) = add (total r) (total (take (8 * k) a)).
Proof.
  induction k as [|k IH]; intros r a Hr Ha.
  - simpl. split; [done|]. by rewrite add_comm, add_zero.
  - cbn [lanes].
    assert (L8 : length (take 8 a) = 8%nat) by (rewrite length_take; lia).
    destruct (IH (zip_with add r (take 8 a)) (drop 8 a)) as [HL HT].
    { rewrite length_zip_with; lia. }
    { rewrite length_drop; lia. }
    split; [done|]. rewrite HT, total_zip_with by lia.
    rewrite <- add_assoc. f_equal. rewrite <- total_app. f_equal.
    replace (8 * S k)%nat with (8 + 8 * k)%nat by lia.
    by rewrite take_take_drop.
Qed.

Lemma block_sum_exact a : (8 <= length a)%nat -> block_sum add zero a = total a.
Proof.
  intros Hn. unfold block_sum.
  set (n := length a) in *. set (full := (n - n mod 8)%nat).
  pose proof (Nat.div_mod_eq n 8) as Hdm.
  pose proof (Nat.mod_upper_bound n 8 ltac:(lia)) as Hm.
  assert (Hfull : full = (8 * (n / 8))%nat) by (unfold full; lia).
  assert (Hq : (1 <= n / 8)%nat) by lia.
  assert (Hk : (full / 8 - 1 = n / 8 - 1)%nat).
  { rewrite Hfull, Nat.mul_comm, Nat.div_mul by lia. done. }
  rewrite Hk.
  destruct (lanes_exact (n / 8 - 1) (take 8 a) (drop 8 a)) as [HL HT].
  { rewrite length_take. fold n. lia. }
  { rewrite length_drop. fold n. lia. }
  rewrite fold_left_add, sum8_exact, HT by done.
  rewrite <- total_app, <- total_app. f_equal.
  rewrite <- (take_drop full a) at 4. f_equal.
  rewrite <- (take_drop 8 (take full a)). f_equal.
  - rewrite take_take. f_equal. lia.
  - rewrite take_drop_commute. f_equal. f_equal. lia.
Qed.

Lemma pairwise_sum_aux_exact fuel : forall a, pairwise_sum_aux add zero fuel a = total a.
Proof.
  induction fuel as [|fuel IH]; intros a; simpl.
  - destruct (Nat.ltb_spec (length a) 8); [done|].
    destruct (Nat.leb_spec (length a) 128); by apply block_sum_exact.
  - destruct (Nat.ltb_spec (length a) 8); [done|].
    destruct (Nat.leb_spec (length a) 128); [by apply block_sum_exact|].
    rewrite !IH, <- total_app. by rewrite take_drop.
Qed.

Lemma series_sum_exact l : series_sum add zero (fun _ => false) l = total l.
Proof.
  unfold series_sum, pairwise_sum. rewrite pairwise_sum_aux_exact, add_zero.
  by rewrite list_fmap_id.
Qed.

Lemma sub_zero x : sub x zero = x.
Proof. rewrite <- (add_zero x) at 1. rewrite (add_comm zero x). apply sub_add. Qed.

Lemma sub_diag x : sub x x = zero.
Proof. rewrite <- (add_zero x) at 1. apply sub_add. Qed.

Lemma kahan_from_exact l : forall s,
  kahan_from add sub zero (fun _ => false) s zero l = add s (total l).
Proof.
  induction l as [|x l IH]; intros s; simpl.
  - by rewrite add_comm, add_zero.
  - rewrite sub_zero, (add_comm s x), sub_add, sub_diag, IH.
    rewrite add_zero, (fold_left_add l x). by rewrite add_assoc, (add_comm x s).
Qed.

Lemma group_sum_exact l : group_sum add sub zero (fun _ => false) l = total l.
Proof. unfold group_sum. by rewrite kahan_from_exact, add_zero. Qed.

Lemma total_zeros (K : list string) (f : string -> T) :
  (forall k, f k = zero) -> total (map f K) = zero.
Proof.
  intros Hf. induction K as [|k K IH]; [done|].
  cbn [map]. by rewrite total_cons, IH, Hf, add_zero.
Qed.

Lemma total_map_ext (K : list string) (f g : string -> T) :
  (forall k, k ∈ K -> f k = g k) -> total (map f K) = total (map g K).
Proof.
  intros Hfg. f_equal. induction K as [|k K IH]; simpl; [done|].
  rewrite Hfg by left. f_equal. apply IH. intros k' Hk'. apply Hfg. by right.
Qed.

Lemma total_map_update (K : list string) k0 v0 (f g : string -> T) :
  NoDup K -> k0 ∈ K -> f k0 = add v0 (g k0) -> (forall k, k ≠ k0 -> f k = g k) ->
  total (map f K) = add v0 (total (map g K)).
Proof.
  intros Hnd Hin H0 Hne. induction K as [|k K IH]; [by apply elem_of_nil in Hin|].
  apply NoDup_cons in Hnd as [Hk Hnd]. cbn [map]. rewrite !total_cons.
  destruct (decide (k = k0)) as [->|Hkk].
  - rewrite H0, <- add_assoc. f_equal. f_equal. apply total_map_ext.
    intros k' Hk'. apply Hne. by intros ->.
  - apply elem_of_cons in Hin as [->|Hin]; [done|].
    rewrite IH, Hne by done.
    rewrite !add_assoc. f_equal. apply add_comm.
Qed.

Lemma group_members_cons (k k0 : string) (v0 : T) keys vals :
  group_members k (k0 :: keys) (v0 :: vals) =
    if String.eqb k0 k then v0 :: group_members k keys vals
    else group_members k keys vals.
Proof. unfold group_members. simpl. by destruct (String.eqb k0 k). Qed.

Lemma group_totals keys : forall vals (K : list string),
  length keys = length vals -> NoDup K -> (forall k, k ∈ keys -> k ∈ K) ->
  total (map (fun k => total (group_members k keys vals)) K) = total vals.
Proof.
  induction keys as [|k0 keys IH]; intros [|v0 vals] K Hlen Hnd Hin; try done.
  - by apply total_zeros.
  - rewrite total_cons, <- (IH vals K); [|by injection Hlen|done|].
    2:{ intros k Hk. apply Hin. by right. }
    apply (total_map_update K k0 v0); [done|apply Hin; by left| |].
    + by rewrite group_members_cons, String.eqb_refl, total_cons.
    + intros k Hk. rewrite group_members_cons.
      destruct (String.eqb_spec k0 k) as [->|_]; done.
Qed.

Lemma grand_total_exact keys vals :
  length keys = length vals ->
  grand_total add sub zero (fun _ => false) keys vals = total vals.
Proof.
  intros Hlen. unfold grand_total. rewrite series_sum_exact.
  rewrite <- (group_totals keys vals (group_keys keys) Hlen).
  - f_equal. apply map_ext. intros k. apply group_sum_exact.
  - unfold group_keys. rewrite merge_sort_Permutation. apply NoDup_remove_dups.
  - intros k Hk. unfold group_keys.
    rewrite merge_sort_Permutation. by apply elem_of_remove_dups.
Qed.

End Exact.

(** More fuel than the length of the array does not change the pairwise
    sum. *)
Lemma pairwise_sum_fuel {T : Type} (add : T -> T -> T) (zero : T) f1 : forall f2 a,
  (length a <= f1)%nat -> (length a <= f2)%nat ->
  pairwise_sum_aux add zero f1 a = pairwise_sum_aux add zero f2 a.
Proof.
  induction f1 as [|f1 IH]; intros f2 a H1 H2.
  - destruct a; [|simpl in H1; lia]. by destruct f2.
  - destruct f2 as [|f2]; [destruct a; [done|simpl in H2; lia]|].
    cbn [pairwise_sum_aux]. destruct (Nat.ltb_spec (length a) 8); [done|].
    destruct (Nat.leb_spec (length a) 128); [done|].
    set (n := length a) in *.
    pose proof (Nat.div_mod_eq n 2) as Hdm.
    pose proof (Nat.mod_upper_bound n 2 ltac:(lia)) as Hm.
    pose proof (Nat.mod_upper_bound (n / 2) 8 ltac:(lia)) as Hm8.
    f_equal; apply IH; rewrite ?length_take, ?length_drop; fold n; lia.
Qed.

(** C2 (as amended). The total returned with the summary is
    [Series.sum()] of the scenario P&L column, and the total row holds
    [Series.sum()] of the per-class group sums. Run over exact numbers (an
    addition that is associative and commutative with 0 neutral, and the
    subtraction that undoes it) each of the two reductions gives the plain
    sum of the column, so there they are equal: in binary64 they agree up
    to the rounding of the additions. *)
Theorem conservation_up_to_rounding (df : DataFrame) pnl classes :
  df !! "ScenarioPnL" = Some (NumCol pnl) -> df !! "AssetClass" = Some (StrCol classes) ->
  (exists rows tr,
    summarize df = Ok (rows ++ [tr], f64_sum pnl) /\
    sr_class tr = "**TOTAL**"%string /\
    sr_total tr
      = grand_total PrimFloat.add PrimFloat.sub 0%float PrimFloat.is_nan classes pnl) /\
  (forall (T : Type) (add sub : T -> T -> T) (zero : T),
    (forall x y z, add x (add y z) = add (add x y) z) ->
    (forall x y, add x y = add y x) ->
    (forall x, add zero x = x) ->
    (forall x y, sub (add x y) y = x) ->
    forall keys vals, length keys = length vals ->
      series_sum add zero (fun _ => false) vals = fold_left add vals zero /\
      grand_total add sub zero (fun _ => false) keys vals = fold_left add vals zero).
Proof.
  intros Hp Hc. split; [by apply summarize_ok|].
  intros T add sub zero Ha Hcm Hz Hs keys vals Hlen. split.
  - by apply series_sum_exact.
  - by apply grand_total_exact.
Qed.

(** C2, counterexample: for three positions under the market-crash
    scenario the total of the scenario column and the sum held by the total
    row differ in the last digit. *)
Lemma conservation_counterexample :
  exists (h' : store) (df' : DataFrame) rows tr total,
    simulate_scenario_pnl 1%positive (-0.15) 0 0 {[1%positive := crash_book]}
      = Ok (1%positive, h') /\
    h' !! 1%positive = Some df' /\
    summarize df' = Ok (rows ++ [tr], total) /\
    sr_class tr = "**TOTAL**"%string /\
    total = (-867538.1596739998)%float /\
    sr_total tr = (-867538.1596739999)%float /\
    (total =? sr_total tr)%float = false.
Proof.
  eexists _, _, [_; _], _, _.
  split; [reflexivity|]. split; [apply lookup_insert_eq|].
  split; [vm_compute; reflexivity|].
  split; [reflexivity|]. split; [reflexivity|]. split; reflexivity.
Qed.

(** ** Seeding *)

(** C4. Two calls of [generate_dummy_positions] with the same portfolio
    name return the same frame (and leave the generator in the same
    state), whatever the generator did in between. *)
Theorem positions_deterministic (np : NumPy) (name : string) (s1 s2 : rng_state np) :
  generate_dummy_positions np name s1 = generate_dummy_positions np name s2.
Proof. reflexivity. Qed.

Lemma fold_left_Zadd l : forall a, fold_left Z.add l a = a + fold_left Z.add l 0.
Proof.
  induction l as [|x l IH]; intros a; simpl; [lia|].
  rewrite (IH (a + x)), (IH (0 + x)). lia.
Qed.

Lemma py_sum_cons x l : py_sum (x :: l) = x + py_sum l.
Proof. unfold py_sum. simpl. apply fold_left_Zadd. Qed.

Lemma py_sum_perm l1 l2 : l1 ≡ₚ l2 -> py_sum l1 = py_sum l2.
Proof.
  induction 1 as [|x l1 l2 _ IH|x y l|l1 l2 l3 _ IH1 _ IH2]; [done|..].
  - by rewrite !py_sum_cons, IH.
  - rewrite !py_sum_cons. lia.
  - by rewrite IH1.
Qed.

(** Anagrams have the same sum of character codes. *)
Lemma ord_sum_anagram (n1 n2 : string) :
  String.list_ascii_of_string n1 ≡ₚ String.list_ascii_of_string n2 ->
  ord_sum n1 = ord_sum n2.
Proof.
  intros Hp. unfold ord_sum. apply py_sum_perm.
  induction Hp; simpl; [done|by constructor|by constructor|by etrans].
Qed.

(** C10. The generators use the portfolio name only through the sum of
    its character codes: two names with the same sum get the same
    position book and, on the same day, the same risk history. *)
Theorem seed_collision (np : NumPy) (today : Z) (n1 n2 : string) (s1 s2 : rng_state np) :
  ord_sum n1 = ord_sum n2 ->
  generate_dummy_positions np n1 s1 = generate_dummy_positions np n2 s2 /\
  generate_dummy_risk_history np today n1 s1 = generate_dummy_risk_history np today n2 s2.
Proof.
  intros Hs. unfold generate_dummy_positions, generate_dummy_risk_history.
  by rewrite Hs.
Qed.

(** ** The demonstration generator meets the contract *)

Lemma lcg_draws_length {A : Type} (f : Z -> A) n : forall s,
  length (fst (lcg_draws f n s)) = n.
Proof.
  induction n as [|n IH]; intros s; simpl; [done|].
  specialize (IH (lcg_next s)). destruct (lcg_draws f n (lcg_next s)). simpl in *. lia.
Qed.

Lemma lcg_draws_elem {A : Type} (f : Z -> A) n : forall s x,
  x ∈ fst (lcg_draws f n s) -> exists s', x = f s'.
Proof.
  induction n as [|n IH]; intros s x; simpl; [by intros ?%elem_of_nil|].
  specialize (IH (lcg_next s) x). destruct (lcg_draws f n (lcg_next s)). simpl in *.
  intros [->|Hx]%elem_of_cons; [by eexists|auto].
Qed.

Lemma SFleb_refl f : f ≠ S754_nan -> SFleb f f = true.
Proof.
  destruct f as [[]|[]| |[] m e]; try done; intros _; unfold SFleb; simpl.
  all: by rewrite Z.compare_refl, Pos.compare_cont_refl.
Qed.

Lemma SFleb_not_nan x y : SFleb x y = true -> x ≠ S754_nan /\ y ≠ S754_nan.
Proof. destruct x as [[]|[]| |[] ? ?], y as [[]|[]| |[] ? ?]; by simpl. Qed.

Lemma demo_numpy_contract : numpy_contract demo_numpy.
Proof.
  split; simpl.
  - intros. apply lcg_draws_length.
  - intros. apply lcg_draws_length.
  - intros. apply lcg_draws_length.
  - intros lo hi n s x Hle Hx. apply lcg_draws_elem in Hx as [s' ->].
    rewrite !leb_spec in *. destruct (SFleb_not_nan _ _ Hle) as [Hlo Hhi].
    destruct (lcg_bit s'); split; try done; by apply SFleb_refl.
  - intros mu sigma n s x Hmu _ Hx. apply lcg_draws_elem in Hx as [s' ->].
    unfold two_point. set (y := if lcg_bit s' then _ else _).
    by destruct (PrimFloat.is_finite y) eqn:E.
  - intros n s r Hr. apply lcg_draws_elem in Hr as [s' ->].
    unfold two_point. by destruct (lcg_bit s').
  - done.
  - done.
Qed.

(** ** The theorems at concrete inputs *)

Lemma rate_book_is_book : position_book rate_book [1000000]%float [0]%float [0]%float [4]%float.
Proof. by repeat split. Qed.

Lemma scenario_formula_witness :
  (exists pnl (h' : store) (df' : DataFrame),
    simulate_scenario_pnl 1%positive 0 100 0 {[1%positive := rate_book]} = Ok (1%positive, h') /\
    h' !! 1%positive = Some df' /\ df' !! "ScenarioPnL" = Some (NumCol pnl) /\
    length pnl = length [1000000]%float /\
    forall i m b o d,
      [1000000]%float !! i = Some m -> [0]%float !! i = Some b ->
      [0]%float !! i = Some o -> [4]%float !! i = Some d ->
      pnl !! i = Some (m * (b * 0 + o * 0 - d * (100 / 10000)))%float) /\
  scenario_pnl [1000000]%float [0]%float [0]%float [4]%float 0 (100 / 10000) 0
    = [-40000]%float.
Proof.
  apply (scenario_formula {[1%positive := rate_book]} 1%positive rate_book
           [1000000]%float [0]%float [0]%float [4]%float 0 100 0).
  - reflexivity.
  - exact rate_book_is_book.
Defined.

Lemma zero_shock_identity_witness :
  exists pnl (h' : store) (df' : DataFrame),
    simulate_scenario_pnl 1%positive 0 0 0 {[1%positive := rate_book]} = Ok (1%positive, h') /\
    h' !! 1%positive = Some df' /\ df' !! "ScenarioPnL" = Some (NumCol pnl) /\
    length pnl = length [1000000]%float /\
    forall x, x ∈ pnl -> (x =? 0)%float = true.
Proof.
  apply (zero_shock_identity {[1%positive := rate_book]} 1%positive rate_book
           [1000000]%float [0]%float [0]%float [4]%float).
  - reflexivity.
  - exact rate_book_is_book.
  - by repeat constructor.
  - by repeat constructor.
  - by repeat constructor.
  - by repeat constructor.
Defined.

Lemma scenario_in_place_witness :
  exists (h' : store) (df' : DataFrame),
    simulate_scenario_pnl 1%positive 0 100 0 {[1%positive := rate_book]} = Ok (1%positive, h') /\
    h' !! 1%positive = Some df' /\
    df' !! "ScenarioPnL"
      = Some (NumCol (scenario_pnl [1000000]%float [0]%float [0]%float [4]%float
                        0 (100 / 10000)%float 0)) /\
    (forall c, c ≠ "ScenarioPnL" -> df' !! c = rate_book !! c) /\
    (forall r2, r2 ≠ 1%positive -> h' !! r2 = ({[1%positive := rate_book]} : store) !! r2).
Proof.
  apply (scenario_in_place {[1%positive := rate_book]} 1%positive rate_book
           [1000000]%float [0]%float [0]%float [4]%float 0 100 0).
  - reflexivity.
  - exact rate_book_is_book.
Defined.

Lemma missing_column_raises_witness :
  (delete "Duration" rate_book !! "MarketValueUSD" = None \/
   delete "Duration" rate_book !! "Beta_SPX" = None \/
   delete "Duration" rate_book !! "Delta_Oil" = None \/
   delete "Duration" rate_book !! "Duration" = None ->
   raises (simulate_scenario_pnl 1%positive 0 100 0
             {[1%positive := delete "Duration" rate_book]})) /\
  (forall mv beta oil dur, position_book (delete "Duration" rate_book) mv beta oil dur ->
   ¬ raises (simulate_scenario_pnl 1%positive 0 100 0
               {[1%positive := delete "Duration" rate_book]})) /\
  (delete "Duration" rate_book !! "ScenarioPnL" = None \/
   delete "Duration" rate_book !! "AssetClass" = None ->
   raises (summarize (delete "Duration" rate_book))).
Proof.
  apply (missing_column_raises {[1%positive := delete "Duration" rate_book]} 1%positive
           (delete "Duration" rate_book) 0 100 0).
  reflexivity.
Defined.

Lemma conservation_up_to_rounding_witness :
  (exists rows tr,
    summarize (<["ScenarioPnL" := NumCol [0.1; 0.2; 0.3]%float]> crash_book)
      = Ok (rows ++ [tr], f64_sum [0.1; 0.2; 0.3]%float) /\
    sr_class tr = "**TOTAL**"%string /\
    sr_total tr = grand_total PrimFloat.add PrimFloat.sub 0%float PrimFloat.is_nan
                    ["Equity"; "FX"; "FX"]%string [0.1; 0.2; 0.3]%float) /\
  (forall (T : Type) (add sub : T -> T -> T) (zero : T),
    (forall x y z, add x (add y z) = add (add x y) z) ->
    (forall x y, add x y = add y x) ->
    (forall x, add zero x = x) ->
    (forall x y, sub (add x y) y = x) ->
    forall keys vals, length keys = length vals ->
      series_sum add zero (fun _ => false) vals = fold_left add vals zero /\
      grand_total add sub zero (fun _ => false) keys vals = fold_left add vals zero).
Proof.
  apply (conservation_up_to_rounding
           (<["ScenarioPnL" := NumCol [0.1; 0.2; 0.3]%float]> crash_book)
           [0.1; 0.2; 0.3]%float ["Equity"; "FX"; "FX"]%string).
  - reflexivity.
  - reflexivity.
Defined.

Lemma seed_collision_witness :
  generate_dummy_positions demo_numpy "Portfolio AB" 0
    = generate_dummy_positions demo_numpy "Portfolio BA" 7 /\
  generate_dummy_risk_history demo_numpy 20000 "Portfolio AB" 0
    = generate_dummy_risk_history demo_numpy 20000 "Portfolio BA" 7.
Proof.
  apply (seed_collision demo_numpy 20000 "Portfolio AB" "Portfolio BA" 0 7).
  reflexivity.
Defined.

Lemma es_dominance_witness :
  exists vars ess,
    get_num (fst (generate_dummy_risk_history demo_numpy 20000 "Portfolio A" 0))
      "VaR_99_USD" = Ok vars /\
    get_num (fst (generate_dummy_risk_history demo_numpy 20000 "Portfolio A" 0))
      "ES_99_USD" = Ok ess /\
    length vars = n_days /\ length ess = n_days /\
    forall t v e, vars !! t = Some v -> ess !! t = Some e ->
      (v <=? e)%float = true /\ (0 <? v)%float = true /\ (0 <? e)%float = true.
Proof.
  exact (es_dominance demo_numpy demo_numpy_contract 20000 "Portfolio A" 0).
Defined.

Lemma drawdown_bound_witness :
  exists navs dds,
    get_num (fst (generate_dummy_risk_history demo_numpy 20000 "Portfolio A" 0)) "NAV"
      = Ok navs /\
    get_num (fst (generate_dummy_risk_history demo_numpy 20000 "Portfolio A" 0))
      "Drawdown_Pct" = Ok dds /\
    length navs = n_days /\ length dds = n_days /\
    forall t nav dd, navs !! t = Some nav -> dds !! t = Some dd ->
      exists rmax, is_running_max navs t rmax /\
        dd = ((nav - rmax) / rmax)%float /\
        (dd <=? 0)%float = true /\
        ((forall j x, (j <= t)%nat -> navs !! j = Some x -> (x <=? nav)%float = true) ->
         dd = 0%float).
Proof.
  exact (drawdown_bound demo_numpy demo_numpy_contract 20000 "Portfolio A" 0).
Defined.

Lemma generation_invariant_witness :
  exists mvs durs,
    get_num (fst (generate_dummy_positions demo_numpy "Portfolio A" 0)) "MarketValueUSD"
      = Ok mvs /\
    get_num (fst (generate_dummy_positions demo_numpy "Portfolio A" 0)) "Duration"
      = Ok durs /\
    length durs = length mvs /\
    (forall x, x ∈ mvs -> (0 <? x)%float = true) /\
    (forall d, d ∈ durs -> (0 <=? d)%float = true).
Proof.
  exact (generation_invariant demo_numpy demo_numpy_contract "Portfolio A" 0).
Defined.

(** ** Shocks on one factor *)

(** *** Results that do not overflow *)

Lemma Zdigits2_le m k : 0 <= m -> 0 <= k -> m < 2 ^ k -> Zdigits2 m <= k.
Proof.
  intros Hm Hk Hlt. destruct (Z.eq_dec m 0) as [->|Hne]; [simpl; lia|].
  destruct (Zdigits2_bounds m) as (Hd & Hl & Hh); [lia|].
  destruct (Z.le_gt_cases (Zdigits2 m) k) as [|Hgt]; [done|].
  assert (2 ^ k <= 2 ^ (Zdigits2 m - 1)) by (apply Z.pow_le_mono_r; lia). lia.
Qed.

Lemma Zdigits2_nonneg m : 0 <= m -> 0 <= Zdigits2 m.
Proof.
  intros Hm. destruct (Z.eq_dec m 0) as [->|Hne]; [simpl; lia|].
  destruct (Zdigits2_bounds m) as (Hd & _); lia.
Qed.

Lemma Zdigits2_lt_pow m : 0 <= m -> m < 2 ^ Zdigits2 m.
Proof.
  intros Hm. destruct (Z.eq_dec m 0) as [->|Hne]; [simpl; lia|].
  destruct (Zdigits2_bounds m) as (Hd & Hl & Hh); lia.
Qed.

Lemma Zdigits2_incr a b : 0 <= a -> a <= b <= a + 1 -> Zdigits2 b <= Zdigits2 a + 1.
Proof.
  intros Ha Hb. pose proof (Zdigits2_nonneg a Ha). pose proof (Zdigits2_lt_pow a Ha).
  apply Zdigits2_le; [lia|lia|]. rewrite Z.pow_add_r by lia. lia.
Qed.

Lemma trunc_exp_bound m e : e <= 971 -> Zdigits2 m + e <= 1024 -> snd (trunc m e) <= 971.
Proof.
  intros He Hd. unfold trunc. rewrite fexp_eq.
  destruct (Z.ltb_spec 0 (Z.max (Zdigits2 m + e - 53) (-1074) - e)); simpl; lia.
Qed.

Lemma trunc_digits m e : 0 <= m ->
  Zdigits2 (fst (trunc m e)) + snd (trunc m e) <= Z.max (Zdigits2 m + e) (snd (trunc m e)).
Proof.
  intros Hm. unfold trunc.
  set (n := fexp prec emax (Zdigits2 m + e) - e).
  destruct (Z.ltb_spec 0 n) as [Hn|Hn]; simpl; [|lia].
  pose proof (Zdigits2_nonneg m Hm) as Hd. pose proof (Zdigits2_lt_pow m Hm) as Hlt.
  assert (Hp : 0 < 2 ^ n) by (apply Z.pow_pos_nonneg; lia).
  assert (Hq : 0 <= m / 2 ^ n) by (apply Z.div_pos; lia).
  destruct (Z.le_gt_cases n (Zdigits2 m)) as [Hle|Hgt].
  - assert (Zdigits2 (m / 2 ^ n) <= Zdigits2 m - n); [|lia].
    apply Zdigits2_le; [done|lia|].
    apply Z.div_lt_upper_bound; [done|].
    rewrite <- Z.pow_add_r by lia. by replace (n + (Zdigits2 m - n)) with (Zdigits2 m) by lia.
  - assert (m / 2 ^ n = 0) as ->; [|simpl; lia].
    apply Z.div_small. split; [done|].
    assert (2 ^ Zdigits2 m <= 2 ^ n) by (apply Z.pow_le_mono_r; lia). lia.
Qed.

Lemma binary_round_aux_finite s m e l :
  0 <= m -> e <= 971 -> Zdigits2 m + e <= 1023 ->
  sf_finite (binary_round_aux prec emax s m e l).
Proof.
  intros Hm He Hd.
  destruct (binary_round_aux_trunc s m e l Hm) as (m2 & Hb & ->).
  pose proof (trunc_nonneg m e Hm) as H1.
  pose proof (trunc_exp_bound m e He ltac:(lia)) as He1.
  pose proof (trunc_digits m e Hm) as Hd1.
  pose proof (Zdigits2_incr (fst (trunc m e)) m2 H1 Hb) as Hd2.
  pose proof (trunc_nonneg m2 (snd (trunc m e)) ltac:(lia)) as H3.
  pose proof (trunc_exp_bound m2 (snd (trunc m e)) He1 ltac:(lia)) as He3.
  unfold pack. destruct (fst (trunc m2 _)) as [|p|p]; simpl; [done| |lia].
  unfold emax, prec. by destruct (Z.leb_spec (snd (trunc m2 (snd (trunc m e)))) (1024 - 53)); [|lia].
Qed.

(** A finite number divided by a number that is at least 2 is finite. *)
Lemma SFdiv_finite x my ey :
  valid_binary x = true -> sf_finite x ->
  Zpos (digits2_pos my) = 53 -> -51 <= ey ->
  sf_finite (SFdiv prec emax x (S754_finite false my ey)).
Proof.
  destruct x as [sx| | |sx mx ex]; try done. intros Hv _ Hdy Hey.
  apply valid_finite in Hv as [Hc Hex].
  pose proof (digits2_pos_bounds mx) as [Hmx1 Hmx2].
  pose proof (digits53 my Hdy) as Hmy.
  unfold SFdiv, SFdiv_core_binary.
  change (Zdigits2 (Z.pos mx)) with (Z.pos (digits2_pos mx)).
  change (Zdigits2 (Z.pos my)) with (Z.pos (digits2_pos my)). rewrite Hdy.
  set (d1 := Z.pos (digits2_pos mx)) in *.
  rewrite fexp_eq.
  set (e' := Z.min (Z.max (d1 + ex - (53 + ey) - 53) (-1074)) (ex - ey)).
  set (sh := ex - ey - e').
  assert (Hsh : 0 <= sh) by (unfold sh, e'; lia).
  set (m' := match sh with Z0 => Z.pos mx | Zpos _ => Z.shiftl (Z.pos mx) sh | Zneg _ => 0 end).
  assert (Hm' : m' = Z.pos mx * 2 ^ sh).
  { unfold m'. destruct sh as [|p|p] eqn:E; [simpl; lia| |lia].
    by rewrite Z.shiftl_mul_pow2. }
  assert (Hps : 0 < 2 ^ sh) by (apply Z.pow_pos_nonneg; lia).
  pose proof (Z.div_eucl_eq m' (Z.pos my) ltac:(lia)) as Heq.
  pose proof (Z.mod_pos_bound m' (Z.pos my) ltac:(lia)) as Hr.
  unfold Z.modulo in Hr.
  destruct (Z.div_eucl m' (Z.pos my)) as [q r]. 
  assert (Hq0 : 0 <= q) by nia.
  apply binary_round_aux_finite; [done|unfold e'; lia|].
  assert (Hlt : m' < 2 ^ (d1 + sh)).
  { rewrite Hm', Z.pow_add_r by lia. nia. }
  destruct (Z.le_gt_cases 52 (d1 + sh)) as [Hge|Hsmall].
  - assert (Zdigits2 q <= d1 + sh - 52); [|unfold sh in *; lia].
    apply Zdigits2_le; [done|lia|].
    assert (Hpow : 2 ^ (d1 + sh) = 4503599627370496 * 2 ^ (d1 + sh - 52)).
    { change 4503599627370496 with (2 ^ 52). rewrite <- Z.pow_add_r by lia. f_equal. lia. }
    assert (0 < 2 ^ (d1 + sh - 52)) by (apply Z.pow_pos_nonneg; lia).
    nia.
  - assert (2 ^ (d1 + sh) <= 2 ^ 52) by (apply Z.pow_le_mono_r; lia).
    change (2 ^ 52) with 4503599627370496 in *.
    assert (q = 0) as -> by nia. simpl. unfold e'. lia.
Qed.

(** *** Signs of sums, differences and products *)

Lemma SFmul_signed s1 s2 x y :
  sf_finite x -> sf_finite y -> sf_signed s1 x -> sf_signed s2 y ->
  sf_signed (xorb s1 s2) (SFmul prec emax x y).
Proof.
  destruct s1, s2, x as [[]| | |[] mx ex], y as [[]| | |[] my ey]; simpl; try done.
  all: intros _ _ _ _.
  all: first [apply has_sign_nonpos | apply has_sign_nonneg].
  all: by apply binary_round_aux_sign.
Qed.

Lemma SFmul_pos_signed s mx ex y :
  sf_signed s y -> sf_signed s (SFmul prec emax (S754_finite false mx ex) y).
Proof.
  destruct s, y as [[]|[]| |[] my ey]; simpl; try done.
  all: intros _.
  all: first [apply has_sign_nonpos | apply has_sign_nonneg].
  all: by apply binary_round_aux_sign.
Qed.

Lemma SFadd_signed_zero s x z :
  sf_signed s x -> sf_zero z -> sf_signed s (SFadd prec emax x z).
Proof. destruct s, x as [[]|[]| |[] mx ex], z as [[]| | |]; by simpl. Qed.

Lemma SFadd_zero_signed s z x :
  sf_zero z -> sf_signed s x -> sf_signed s (SFadd prec emax z x).
Proof. destruct s, x as [[]|[]| |[] mx ex], z as [[]| | |]; by simpl. Qed.

Lemma SFsub_signed_zero s x z :
  sf_signed s x -> sf_zero z -> sf_signed s (SFsub prec emax x z).
Proof. destruct s, x as [[]|[]| |[] mx ex], z as [[]| | |]; by simpl. Qed.

Lemma SFsub_zero_signed s z x :
  sf_zero z -> sf_signed s x -> sf_signed (negb s) (SFsub prec emax z x).
Proof. destruct s, x as [[]|[]| |[] mx ex], z as [[]| | |]; by simpl. Qed.

Lemma sf_zero_signed s z : sf_zero z -> sf_signed s z.
Proof. by destruct s, z. Qed.

Lemma leb_zero_signed x : (0 <=? x)%float = true -> sf_signed false (Prim2SF x).
Proof.
  rewrite leb_spec. change (Prim2SF 0) with (S754_zero false). apply sf_nonneg_leb.
Qed.

Lemma sf_nonpos_of_leb f : SFleb f (S754_zero false) = true -> sf_nonpos f.
Proof. by destruct f as [[]|[]| |[] ? ?]. Qed.

Lemma leb_signed_zero x : (x <=? 0)%float = true -> sf_signed true (Prim2SF x).
Proof.
  rewrite leb_spec. change (Prim2SF 0) with (S754_zero false). apply sf_nonpos_of_leb.
Qed.

Lemma signed_leb s x :
  sf_signed s (Prim2SF x) ->
  if s then (x <=? 0)%float = true else (0 <=? x)%float = true.
Proof.
  destruct s; simpl; rewrite leb_spec; change (Prim2SF 0) with (S754_zero false).
  - apply sf_nonpos_leb.
  - apply sf_nonneg_leb.
Qed.

Lemma positive_finite m :
  PrimFloat.is_finite m = true -> (0 <? m)%float = true ->
  exists mm em, Prim2SF m = S754_finite false mm em.
Proof.
  intros Hf%is_finite_sf. rewrite ltb_spec. change (Prim2SF 0) with (S754_zero false).
  destruct (Prim2SF m) as [[]|[]| |[] mm em]; try done. eauto.
Qed.

Lemma zero_term x : PrimFloat.is_finite x = true -> sf_zero (Prim2SF (x * 0)%float).
Proof.
  intros Hx%is_finite_sf. rewrite mul_spec. by apply SFmul_finite_zero.
Qed.

(** The P&L of one position under a shock on one factor alone. *)
Lemma rate_term_signed s m b o d bps :
  PrimFloat.is_finite m = true -> (0 <? m)%float = true ->
  PrimFloat.is_finite b = true -> PrimFloat.is_finite o = true ->
  PrimFloat.is_finite d = true -> (0 <=? d)%float = true ->
  PrimFloat.is_finite bps = true -> sf_signed s (Prim2SF bps) ->
  sf_signed (negb s) (Prim2SF (m * (b * 0 + o * 0 - d * (bps / 10000)))%float).
Proof.
  intros Fm Pm Fb Fo Fd%is_finite_sf Pd%leb_zero_signed Fbps%is_finite_sf Sbps.
  destruct (positive_finite m Fm Pm) as (mm & em & Em).
  rewrite mul_spec, Em. apply SFmul_pos_signed.
  rewrite sub_spec. apply SFsub_zero_signed.
  { rewrite add_spec. apply SFadd_zero_zero; by apply zero_term. }
  rewrite mul_spec. change s with (xorb false s). apply SFmul_signed; try done.
  - rewrite div_spec.
    change (Prim2SF 10000) with (S754_finite false 5497558138880000 (-39)).
    apply SFdiv_finite; [apply Prim2SF_valid|done|reflexivity|lia].
  - rewrite div_spec.
    change (Prim2SF 10000) with (S754_finite false 5497558138880000 (-39)).
    destruct s; simpl in *; [by apply SFdiv_nonpos|by apply SFdiv_nonneg].
Qed.

Lemma beta_term_signed s m b o d spx :
  PrimFloat.is_finite m = true -> (0 <? m)%float = true ->
  PrimFloat.is_finite b = true -> (0 <=? b)%float = true ->
  PrimFloat.is_finite o = true -> PrimFloat.is_finite d = true ->
  PrimFloat.is_finite spx = true -> sf_signed s (Prim2SF spx) ->
  sf_signed s (Prim2SF (m * (b * spx + o * 0 - d * (0 / 10000)))%float).
Proof.
  intros Fm Pm Fb%is_finite_sf Pb%leb_zero_signed Fo Fd Fs%is_finite_sf Ss.
  destruct (positive_finite m Fm Pm) as (mm & em & Em).
  rewrite mul_spec, Em. apply SFmul_pos_signed.
  rewrite sub_spec. apply SFsub_signed_zero.
  2:{ change (0 / 10000)%float with 0%float. by apply zero_term. }
  rewrite add_spec. apply SFadd_signed_zero; [|by apply zero_term].
  rewrite mul_spec. change s with (xorb false s). by apply SFmul_signed.
Qed.

(** A shock on the rates alone moves no long position with the shock:
    in a book of finite numbers with positive market values and
    non-negative durations, no position gains when the rates rise and no
    position loses when they fall. *)
Theorem rate_shock_sign (h : store) (r : loc) (df : DataFrame) mv beta oil dur bps :
  h !! r = Some df -> position_book df mv beta oil dur ->
  Forall (fun x => PrimFloat.is_finite x = true /\ (0 <? x)%float = true) mv ->
  Forall (fun x => PrimFloat.is_finite x = true) beta ->
  Forall (fun x => PrimFloat.is_finite x = true) oil ->
  Forall (fun x => PrimFloat.is_finite x = true /\ (0 <=? x)%float = true) dur ->
  PrimFloat.is_finite bps = true ->
  exists pnl h' df',
    simulate_scenario_pnl r 0 bps 0 h = Ok (r, h') /\
    h' !! r = Some df' /\ df' !! "ScenarioPnL" = Some (NumCol pnl) /\
    length pnl = length mv /\
    ((0 <=? bps)%float = true -> forall x, x ∈ pnl -> (x <=? 0)%float = true) /\
    ((bps <=? 0)%float = true -> forall x, x ∈ pnl -> (0 <=? x)%float = true).
Proof.
  intros Hr Hbook Fm Fb Fo Fd Fbps.
  eexists _, _, _. rewrite (simulate_ok h r df mv beta oil dur) by done.
  split; [reflexivity|]. rewrite lookup_insert_eq. split; [reflexivity|].
  rewrite lookup_insert_eq. split; [reflexivity|].
  destruct Hbook as (_ & _ & _ & _ & Lb & Lo & Ld).
  split; [by apply length_scenario_pnl|].
  rewrite Forall_forall in Fm, Fb, Fo, Fd.
  assert (Hterm : forall s x, sf_signed s (Prim2SF bps) ->
            x ∈ scenario_pnl mv beta oil dur 0 (bps / 10000) 0 ->
            sf_signed (negb s) (Prim2SF x)).
  { intros s x Hs Hx.
    unfold scenario_pnl, arr_mul, arr_sub, arr_add, arr_scale in Hx.
    apply elem_of_zip_with in Hx as (m & t & -> & Hm & Ht).
    apply elem_of_zip_with in Ht as (t1 & t2 & -> & Ht1 & Ht2).
    apply elem_of_zip_with in Ht1 as (t3 & t4 & -> & Ht3 & Ht4).
    apply list_elem_of_fmap in Ht2 as (d & -> & Hd).
    apply list_elem_of_fmap in Ht3 as (b & -> & Hb).
    apply list_elem_of_fmap in Ht4 as (o & -> & Ho).
    destruct (Fm m Hm), (Fd d Hd). apply rate_term_signed; auto. }
  split.
  - intros Hs%leb_zero_signed x Hx. apply (signed_leb true), (Hterm false); done.
  - intros Hs%leb_signed_zero x Hx. apply (signed_leb false), (Hterm true); done.
Qed.

Lemma rate_shock_sign_witness :
  exists pnl h' df',
    simulate_scenario_pnl 1%positive 0 50 0 {[1%positive := rate_book]}
      = Ok (1%positive, h') /\
    h' !! 1%positive = Some df' /\ df' !! "ScenarioPnL" = Some (NumCol pnl) /\
    length pnl = length [1000000]%float /\
    ((0 <=? 50)%float = true -> forall x, x ∈ pnl -> (x <=? 0)%float = true) /\
    ((50 <=? 0)%float = true -> forall x, x ∈ pnl -> (0 <=? x)%float = true).
Proof.
  apply (rate_shock_sign {[1%positive := rate_book]} 1%positive rate_book
           [1000000]%float [0]%float [0]%float [4]%float 50).
  - reflexivity.
  - exact rate_book_is_book.
  - by repeat constructor.
  - by repeat constructor.
  - by repeat constructor.
  - by repeat constructor.
  - reflexivity.
Defined.

(** A shock on the index alone moves every long position of
    non-negative beta with the index: in a book of finite numbers with
    positive market values, no such position gains when the index falls
    and none loses when it rises. *)
Theorem index_shock_sign (h : store) (r : loc) (df : DataFrame) mv beta oil dur spx :
  h !! r = Some df -> position_book df mv beta oil dur ->
  Forall (fun x => PrimFloat.is_finite x = true /\ (0 <? x)%float = true) mv ->
  Forall (fun x => PrimFloat.is_finite x = true /\ (0 <=? x)%float = true) beta ->
  Forall (fun x => PrimFloat.is_finite x = true) oil ->
  Forall (fun x => PrimFloat.is_finite x = true) dur ->
  PrimFloat.is_finite spx = true ->
  exists pnl h' df',
    simulate_scenario_pnl r spx 0 0 h = Ok (r, h') /\
    h' !! r = Some df' /\ df' !! "ScenarioPnL" = Some (NumCol pnl) /\
    length pnl = length mv /\
    ((spx <=? 0)%float = true -> forall x, x ∈ pnl -> (x <=? 0)%float = true) /\
    ((0 <=? spx)%float = true -> forall x, x ∈ pnl -> (0 <=? x)%float = true).
Proof.
  intros Hr Hbook Fm Fb Fo Fd Fs.
  eexists _, _, _. rewrite (simulate_ok h r df mv beta oil dur) by done.
  split; [reflexivity|]. rewrite lookup_insert_eq. split; [reflexivity|].
  rewrite lookup_insert_eq. split; [reflexivity|].
  destruct Hbook as (_ & _ & _ & _ & Lb & Lo & Ld).
  split; [by apply length_scenario_pnl|].
  rewrite Forall_forall in Fm, Fb, Fo, Fd.
  assert (Hterm : forall s x, sf_signed s (Prim2SF spx) ->
            x ∈ scenario_pnl mv beta oil dur spx (0 / 10000) 0 ->
            sf_signed s (Prim2SF x)).
  { intros s x Hs Hx.
    unfold scenario_pnl, arr_mul, arr_sub, arr_add, arr_scale in Hx.
    apply elem_of_zip_with in Hx as (m & t & -> & Hm & Ht).
    apply elem_of_zip_with in Ht as (t1 & t2 & -> & Ht1 & Ht2).
    apply elem_of_zip_with in Ht1 as (t3 & t4 & -> & Ht3 & Ht4).
    apply list_elem_of_fmap in Ht2 as (d & -> & Hd).
    apply list_elem_of_fmap in Ht3 as (b & -> & Hb).
    apply list_elem_of_fmap in Ht4 as (o & -> & Ho).
    destruct (Fm m Hm), (Fb b Hb). apply beta_term_signed; auto. }
  split.
  - intros Hs%leb_signed_zero x Hx. apply (signed_leb true), (Hterm true); done.
  - intros Hs%leb_zero_signed x Hx. apply (signed_leb false), (Hterm false); done.
Qed.

Lemma index_shock_sign_witness :
  exists pnl h' df',
    simulate_scenario_pnl 1%positive (-0.15) 0 0 {[1%positive := crash_book]}
      = Ok (1%positive, h') /\
    h' !! 1%positive = Some df' /\ df' !! "ScenarioPnL" = Some (NumCol pnl) /\
    length pnl = length [1767307.88; 1068520.7; 3387057.42]%float /\
    ((-0.15 <=? 0)%float = true -> forall x, x ∈ pnl -> (x <=? 0)%float = true) /\
    ((0 <=? -0.15)%float = true -> forall x, x ∈ pnl -> (0 <=? x)%float = true).
Proof.
  apply (index_shock_sign {[1%positive := crash_book]} 1%positive crash_book
           [1767307.88; 1068520.7; 3387057.42]%float [0.676; 0.7; 1.134]%float
           [0; 0; 0]%float [0; 0; 0]%float (-0.15)).
  - reflexivity.
  - repeat split; reflexivity.
  - by repeat constructor.
  - by repeat constructor.
  - by repeat constructor.
  - by repeat constructor.
  - reflexivity.
Defined.

(** ** Runs of the engine on one frame *)

Lemma get_num_insert_ne (df : DataFrame) c v name :
  c ≠ name -> get_num (<[c := v]> df) name = get_num df name.
Proof. intros H. unfold get_num. by rewrite lookup_insert_ne. Qed.

(** A second run on the frame a first run returned gives what it gives
    on the frame before the first run: the scenario column is overwritten,
    and nothing of the earlier scenario is left in the result. *)
Theorem rerun_overwrites (h h1 : store) (r r' : loc) spx1 bps1 oil1 spx2 bps2 oil2 :
  simulate_scenario_pnl r spx1 bps1 oil1 h = Ok (r', h1) ->
  simulate_scenario_pnl r' spx2 bps2 oil2 h1 = simulate_scenario_pnl r spx2 bps2 oil2 h.
Proof.
  unfold simulate_scenario_pnl, deref. destruct (h !! r) as [df|] eqn:Hr; [|done].
  simpl.
  destruct (get_num df "MarketValueUSD") as [mv|] eqn:Hmv; [|done]. simpl.
  destruct (get_num df "Beta_SPX") as [beta|] eqn:Hb; [|done]. simpl.
  destruct (get_num df "Delta_Oil") as [oil|] eqn:Ho; [|done]. simpl.
  destruct (get_num df "Duration") as [dur|] eqn:Hd; [|done]. simpl.
  intros [= <- <-]. rewrite lookup_insert_eq. simpl.
  rewrite !get_num_insert_ne by done. rewrite Hmv, Hb, Ho, Hd. simpl.
  by rewrite !insert_insert_eq.
Qed.

Lemma rerun_overwrites_witness :
  exists h1,
    simulate_scenario_pnl 1%positive (-0.15) 0 0 {[1%positive := crash_book]}
      = Ok (1%positive, h1) /\
    simulate_scenario_pnl 1%positive 0 50 0 h1
      = simulate_scenario_pnl 1%positive 0 50 0 {[1%positive := crash_book]}.
Proof.
  eexists. split; [reflexivity|].
  apply (rerun_overwrites _ _ 1%positive 1%positive (-0.15) 0 0). reflexivity.
Defined.

(** ** The summary table *)

#[local] Instance str_le_total : Total str_le.
Proof.
  intros s1 s2. unfold str_le, String.leb.
  rewrite (String.compare_antisym s1 s2).
  destruct (String.compare s2 s1); simpl; auto.
Qed.

Lemma group_keys_sorted keys : Sorted str_le (group_keys keys).
Proof. apply Sorted_merge_sort, _. Qed.

Lemma group_keys_NoDup keys : NoDup (group_keys keys).
Proof.
  unfold group_keys. rewrite merge_sort_Permutation. apply NoDup_remove_dups.
Qed.

Lemma elem_of_group_keys keys c : c ∈ group_keys keys <-> c ∈ keys.
Proof.
  unfold group_keys. rewrite merge_sort_Permutation. apply elem_of_remove_dups.
Qed.

Lemma group_members_nonempty {T : Type} (c : string) keys : forall vals : list T,
  length keys = length vals -> c ∈ keys -> group_members c keys vals ≠ [].
Proof.
  induction keys as [|k keys IH]; intros [|v vals] Hlen Hin; try done.
  - by apply elem_of_nil in Hin.
  - rewrite group_members_cons. destruct (String.eqb_spec k c) as [->|Hne]; [done|].
    apply IH; [by injection Hlen|]. apply elem_of_cons in Hin as [->|Hin]; done.
Qed.

(** The summary table has one row for each asset class that occurs in the
    book, in increasing order of the class names and without repetition;
    every class row stands for at least one position of its class; then
    comes the row of totals, whose average is missing. *)
Theorem summary_rows (df : DataFrame) pnl classes :
  df !! "ScenarioPnL" = Some (NumCol pnl) -> df !! "AssetClass" = Some (StrCol classes) ->
  length classes = length pnl ->
  exists rows tr,
    summarize df = Ok (rows ++ [tr], f64_sum pnl) /\
    Sorted str_le (sr_class <$> rows) /\
    NoDup (sr_class <$> rows) /\
    (forall c, c ∈ (sr_class <$> rows) <-> c ∈ classes) /\
    (forall row, row ∈ rows -> group_members (sr_class row) classes pnl ≠ []) /\
    sr_class tr = "**TOTAL**"%string /\
    PrimFloat.is_nan (sr_avg tr) = true.
Proof.
  intros Hp Hc Hlen.
  destruct (summarize_rows df pnl classes Hp Hc)
    as (rows & tr & Hs & Hk & _ & _ & Ht & _ & Ha & _).
  exists rows, tr. split; [done|]. rewrite Hk.
  split; [apply group_keys_sorted|]. split; [apply group_keys_NoDup|].
  split; [apply elem_of_group_keys|]. split; [|by rewrite Ha].
  intros row Hrow. apply group_members_nonempty; [done|].
  apply elem_of_group_keys. rewrite <- Hk. by apply list_elem_of_fmap_2.
Qed.

Lemma summary_rows_witness :
  exists rows tr,
    summarize (<["ScenarioPnL" := NumCol [1; 2; 4]%float]> crash_book)
      = Ok (rows ++ [tr], f64_sum [1; 2; 4]%float) /\
    Sorted str_le (sr_class <$> rows) /\
    NoDup (sr_class <$> rows) /\
    (forall c, c ∈ (sr_class <$> rows) <-> c ∈ ["Equity"; "FX"; "FX"]) /\
    (forall row, row ∈ rows ->
       group_members (sr_class row) ["Equity"; "FX"; "FX"] [1; 2; 4]%float ≠ []) /\
    sr_class tr = "**TOTAL**"%string /\
    PrimFloat.is_nan (sr_avg tr) = true.
Proof.
  apply (summary_rows _ [1; 2; 4]%float ["Equity"; "FX"; "FX"]); reflexivity.
Defined.

(** ** Counts of the summary table *)

Lemma group_members_map {A B : Type} (f : A -> B) k keys : forall vals,
  group_members k keys (map f vals) = map f (group_members k keys vals).
Proof.
  unfold group_members.
  induction keys as [|k0 keys IH]; intros [|v vals]; simpl; try done.
  destruct (String.eqb k0 k); simpl; by rewrite IH.
Qed.

Lemma count_as_sum (l : list f64) :
  fold_left Z.add (map (fun x => if PrimFloat.is_nan x then 0 else 1) l) 0
  = Z.of_nat (f64_count l).
Proof.
  unfold f64_count, series_count.
  induction l as [|x l IH]; simpl; [done|].
  rewrite fold_left_Zadd.
  destruct (PrimFloat.is_nan x); simpl; rewrite IH; lia.
Qed.

Lemma count_no_nan (l : list f64) :
  Forall (fun x => PrimFloat.is_nan x = false) l -> f64_count l = length l.
Proof.
  unfold f64_count, series_count.
  induction 1 as [|x l Hx _ IH]; simpl; [done|]. rewrite Hx. simpl. by rewrite IH.
Qed.

(** The count in the row of totals is the number of positions whose P&L
    is not missing: every such position is counted in exactly one class
    row. For a P&L column without missing values it is the number of
    positions of the book. *)
Theorem count_conservation (df : DataFrame) pnl classes :
  df !! "ScenarioPnL" = Some (NumCol pnl) -> df !! "AssetClass" = Some (StrCol classes) ->
  length classes = length pnl ->
  exists rows tr,
    summarize df = Ok (rows ++ [tr], f64_sum pnl) /\
    sr_n tr = py_sum (sr_n <$> rows) /\
    sr_n tr = Z.of_nat (f64_count pnl) /\
    (Forall (fun x => PrimFloat.is_nan x = false) pnl -> sr_n tr = Z.of_nat (length pnl)).
Proof.
  intros Hp Hc Hlen.
  destruct (summarize_rows df pnl classes Hp Hc)
    as (rows & tr & Hs & _ & _ & Hn & _ & _ & _ & Htn).
  exists rows, tr. split; [done|]. split; [done|].
  assert (E : sr_n tr = Z.of_nat (f64_count pnl)).
  { rewrite Htn, Hn. unfold py_sum. rewrite <- count_as_sum.
    rewrite <- (group_totals Z.add 0 Z.add_assoc Z.add_comm Z.add_0_l classes
                  (map (fun x => if PrimFloat.is_nan x then 0 else 1) pnl)
                  (group_keys classes));
      [|by rewrite length_map|apply group_keys_NoDup|by intros k; apply elem_of_group_keys].
    f_equal. apply map_ext. intros k.
    by rewrite group_members_map, count_as_sum. }
  split; [exact E|]. intros Hnan. by rewrite E, count_no_nan.
Qed.

Lemma count_conservation_witness :
  exists rows tr,
    summarize (<["ScenarioPnL" := NumCol [1; nan; 4]%float]> crash_book)
      = Ok (rows ++ [tr], f64_sum [1; nan; 4]%float) /\
    sr_n tr = py_sum (sr_n <$> rows) /\
    sr_n tr = Z.of_nat (f64_count [1; nan; 4]%float) /\
    (Forall (fun x => PrimFloat.is_nan x = false) [1; nan; 4]%float ->
     sr_n tr = Z.of_nat (length [1; nan; 4]%float)).
Proof.
  apply (count_conservation _ [1; nan; 4]%float ["Equity"; "FX"; "FX"]); reflexivity.
Defined.

(** ** Resolution of the scenario *)

Lemma dict_get_cons {V : Type} k (v : V) d name :
  dict_get ((k, v) :: d) name = if String.eqb k name then Some v else dict_get d name.
Proof. unfold dict_get. simpl. by destruct (String.eqb k name). Qed.

Lemma resolve_cases name c1 c2 c3 :
  (name = "Custom"%string /\
   resolve_shocks name c1 c2 c3 =
     Some {| spx_shock := (or_zero c1 / 100)%float;
             rates_shock_bps := or_zero c2;
             oil_shock := (or_zero c3 / 100)%float |}) \/
  (name ≠ "Custom"%string /\
   exists sh, dict_get PREDEFINED_SCENARIOS name = Some (Some sh) /\
              resolve_shocks name c1 c2 c3 = Some sh) \/
  (name ≠ "Custom"%string /\ dict_get PREDEFINED_SCENARIOS name = None /\
   resolve_shocks name c1 c2 c3 = Some zero_shocks).
Proof.
  unfold resolve_shocks.
  destruct (String.eqb_spec name "Custom") as [->|Hne]; [by left|right].
  unfold PREDEFINED_SCENARIOS. rewrite !dict_get_cons.
  repeat match goal with
  | |- context [String.eqb ?k name] =>
      destruct (String.eqb_spec k name) as [<-|?]; [by (left; eauto) || done|]
  end.
  by right.
Qed.

Lemma zero_shock_column mv beta oil dur x :
  Forall (fun x => PrimFloat.is_finite x = true) mv ->
  Forall (fun x => PrimFloat.is_finite x = true) beta ->
  Forall (fun x => PrimFloat.is_finite x = true) oil ->
  Forall (fun x => PrimFloat.is_finite x = true) dur ->
  x ∈ scenario_pnl mv beta oil dur 0 (0 / 10000) 0 -> (x =? 0)%float = true.
Proof.
  intros Fm Fb Fo Fd Hx.
  unfold scenario_pnl, arr_mul, arr_sub, arr_add, arr_scale in Hx.
  apply elem_of_zip_with in Hx as (m & t & -> & Hm & Ht).
  apply elem_of_zip_with in Ht as (t1 & t2 & -> & Ht1 & Ht2).
  apply elem_of_zip_with in Ht1 as (t3 & t4 & -> & Ht3 & Ht4).
  apply list_elem_of_fmap in Ht2 as (d & -> & Hd).
  apply list_elem_of_fmap in Ht3 as (b & -> & Hb).
  apply list_elem_of_fmap in Ht4 as (o & -> & Ho).
  rewrite Forall_forall in Fm, Fb, Fo, Fd.
  apply zero_shock_term; auto.
Qed.

(** Whatever the scenario name and the custom inputs, the run handler
    passes a triple of shocks to the engine: the [None] stored under
    [Custom] is never unpacked, a name of the dictionary gets its entry,
    and any other name gets the three zeros of the baseline. *)
Theorem scenario_always_resolved (h : store) (r : loc) (df : DataFrame)
    mv beta oil dur name c1 c2 c3 :
  h !! r = Some df -> position_book df mv beta oil dur ->
  dict_get PREDEFINED_SCENARIOS "Custom" = Some None /\
  exists sh h',
    resolve_shocks name c1 c2 c3 = Some sh /\
    simulate_with r (resolve_shocks name c1 c2 c3) h = Ok (r, h') /\
    (name ≠ "Custom"%string ->
     forall e, dict_get PREDEFINED_SCENARIOS name = Some e -> e = Some sh) /\
    (name ≠ "Custom"%string -> dict_get PREDEFINED_SCENARIOS name = None ->
     sh = zero_shocks).
Proof.
  intros Hr Hbook. split; [reflexivity|].
  destruct (resolve_cases name c1 c2 c3)
    as [(-> & E)|[(Hne & sh & Hd & E)|(Hne & Hd & E)]];
    rewrite E; eexists _, _; (split; [reflexivity|]); simpl;
    rewrite (simulate_ok h r df mv beta oil dur) by done;
    (split; [reflexivity|]); split; try done.
  - intros _ e He. rewrite Hd in He. by injection He as <-.
  - intros _ Hn. by rewrite Hd in Hn.
  - intros _ e He. by rewrite Hd in He.
Qed.

Lemma scenario_always_resolved_witness :
  dict_get PREDEFINED_SCENARIOS "Custom" = Some None /\
  exists sh h',
    resolve_shocks "Oil Spike (+20%)" None None None = Some sh /\
    simulate_with 1%positive (resolve_shocks "Oil Spike (+20%)" None None None)
      {[1%positive := crash_book]} = Ok (1%positive, h') /\
    ("Oil Spike (+20%)" ≠ "Custom"%string ->
     forall e, dict_get PREDEFINED_SCENARIOS "Oil Spike (+20%)" = Some e -> e = Some sh) /\
    ("Oil Spike (+20%)" ≠ "Custom"%string ->
     dict_get PREDEFINED_SCENARIOS "Oil Spike (+20%)" = None -> sh = zero_shocks).
Proof.
  apply (scenario_always_resolved {[1%positive := crash_book]} 1%positive crash_book
           [1767307.88; 1068520.7; 3387057.42]%float [0.676; 0.7; 1.134]%float
           [0; 0; 0]%float [0; 0; 0]%float).
  - reflexivity.
  - repeat split; reflexivity.
Defined.

Lemma or_zero_zero c :
  (forall x, c = Some x -> (x =? 0)%float = true) -> or_zero c = 0%float.
Proof. intros H. destruct c as [x|]; [|done]. simpl. by rewrite (H x). Qed.

(** A run under the baseline, under a name that is not in the dictionary,
    or under [Custom] with every input empty or zero, gives every position
    of a book of finite numbers a P&L equal to 0. *)
Theorem baseline_runs_flat (h : store) (r : loc) (df : DataFrame)
    mv beta oil dur name c1 c2 c3 :
  h !! r = Some df -> position_book df mv beta oil dur ->
  Forall (fun x => PrimFloat.is_finite x = true) mv ->
  Forall (fun x => PrimFloat.is_finite x = true) beta ->
  Forall (fun x => PrimFloat.is_finite x = true) oil ->
  Forall (fun x => PrimFloat.is_finite x = true) dur ->
  name = "None (Baseline)"%string \/
  (name ≠ "Custom"%string /\ dict_get PREDEFINED_SCENARIOS name = None) \/
  (name = "Custom"%string /\
   Forall (fun c : option f64 => forall x, c = Some x -> (x =? 0)%float = true)
     [c1; c2; c3]) ->
  exists pnl h' df',
    simulate_with r (resolve_shocks name c1 c2 c3) h = Ok (r, h') /\
    h' !! r = Some df' /\ df' !! "ScenarioPnL" = Some (NumCol pnl) /\
    length pnl = length mv /\
    forall x, x ∈ pnl -> (x =? 0)%float = true.
Proof.
  intros Hr Hbook Fm Fb Fo Fd Hname.
  assert (E : resolve_shocks name c1 c2 c3 = Some zero_shocks).
  { destruct Hname as [->|[(Hne & Hd)|(-> & Hc)]]; [done| |].
    - destruct (resolve_cases name c1 c2 c3)
        as [(-> & _)|[(_ & sh & Hd' & _)|(_ & _ & E)]]; [done| |done].
      by rewrite Hd in Hd'.
    - apply Forall_cons in Hc as [H1 Hc]. apply Forall_cons in Hc as [H2 Hc].
      apply Forall_cons in Hc as [H3 _].
      unfold resolve_shocks. simpl.
      by rewrite !or_zero_zero. }
  rewrite E. simpl.
  eexists _, _, _. rewrite (simulate_ok h r df mv beta oil dur) by done.
  split; [reflexivity|]. rewrite lookup_insert_eq. split; [reflexivity|].
  rewrite lookup_insert_eq. split; [reflexivity|].
  destruct Hbook as (_ & _ & _ & _ & Lb & Lo & Ld).
  split; [by apply length_scenario_pnl|].
  intros x. by apply zero_shock_column.
Qed.

Lemma baseline_runs_flat_witness :
  exists pnl h' df',
    simulate_with 1%positive (resolve_shocks "Custom" (Some (-0)%float) None (Some 0%float))
      {[1%positive := crash_book]} = Ok (1%positive, h') /\
    h' !! 1%positive = Some df' /\ df' !! "ScenarioPnL" = Some (NumCol pnl) /\
    length pnl = length [1767307.88; 1068520.7; 3387057.42]%float /\
    forall x, x ∈ pnl -> (x =? 0)%float = true.
Proof.
  apply (baseline_runs_flat {[1%positive := crash_book]} 1%positive crash_book
           [1767307.88; 1068520.7; 3387057.42]%float [0.676; 0.7; 1.134]%float
           [0; 0; 0]%float [0; 0; 0]%float).
  - reflexivity.
  - repeat split; reflexivity.
  - repeat constructor.
  - repeat constructor.
  - repeat constructor.
  - repeat constructor.
  - right. right. split; [reflexivity|].
    repeat constructor; intros x [= <-]; reflexivity.
Defined.

(** ** The portfolios of the selection box *)

Lemma ord_ascii_of_nat n : (n < 256)%nat -> ord (Ascii.ascii_of_nat n) = Z.of_nat n.
Proof.
  intros H. unfold ord.
  rewrite <- (Ascii.nat_ascii_embedding n) at 2 by done.
  unfold Ascii.nat_of_ascii. by rewrite N_nat_Z.
Qed.

Lemma ord_sum_portfolio_name i :
  (i < 191)%nat -> ord_sum (portfolio_name i) = 1055 + Z.of_nat i.
Proof.
  intros H. unfold portfolio_name, ord_sum.
  change (String.list_ascii_of_string ("Portfolio " +:+ String (Ascii.ascii_of_nat (65 + i)) EmptyString))
    with (String.list_ascii_of_string "Portfolio " ++ [Ascii.ascii_of_nat (65 + i)]).
  rewrite map_app. unfold py_sum. rewrite fold_left_app. simpl.
  rewrite ord_ascii_of_nat by lia. vm_compute ord. lia.
Qed.

(** The names of the selection box have pairwise different seeds, and
    the seed of each is the seed of the one before plus one: the number
    [ord_sum + 1] that seeds the risk history of a portfolio is the number
    that seeds the positions of the next one. *)
Theorem portfolio_seeds (i j : nat) :
  (i < 190)%nat -> (j < 190)%nat ->
  (ord_sum (portfolio_name i) = ord_sum (portfolio_name j) -> i = j) /\
  ord_sum (portfolio_name i) + 1 = ord_sum (portfolio_name (S i)) /\
  NoDup (ord_sum <$> portfolio_list).
Proof.
  intros Hi Hj. rewrite !ord_sum_portfolio_name by lia.
  split; [lia|]. split; [lia|]. apply (bool_decide_unpack _). by vm_compute.
Qed.

Lemma portfolio_seeds_witness :
  (ord_sum (portfolio_name 0) = ord_sum (portfolio_name 3) -> 0%nat = 3%nat) /\
  ord_sum (portfolio_name 0) + 1 = ord_sum (portfolio_name 1) /\
  NoDup (ord_sum <$> portfolio_list).
Proof. apply (portfolio_seeds 0 3); lia. Defined.

(** ** The generated book *)

Lemma positions_frame np name s :
  exists nz cls mvs b1 b2 dd oo (s1 s2 s3 s4 s5 s6 s7 : rng_state np),
    rng_randint np 10 30 (rng_seed np (ord_sum name)) = (nz, s1) /\
    rng_choice np ["Equity"; "Fixed Income"; "FX"; "Commodity"]%string (Z.to_nat nz)
      [0.5; 0.2; 0.15; 0.15]%float s1 = (cls, s2) /\
    rng_uniform np 50000 5000000 (Z.to_nat nz) s2 = (mvs, s3) /\
    rng_normal np 1 0.5 (Z.to_nat nz) s3 = (b1, s4) /\
    rng_normal np 0.1 0.1 (Z.to_nat nz) s4 = (b2, s5) /\
    rng_normal np 5 2 (Z.to_nat nz) s5 = (dd, s6) /\
    rng_normal np 0.05 0.2 (Z.to_nat nz) s6 = (oo, s7) /\
    generate_dummy_positions np name s =
      (<["Ticker" := StrCol ((fun i : nat => "TICKER_" +:+ pretty i) <$> seq 0 (Z.to_nat nz))]>
       (<["AssetClass" := StrCol cls]>
       (<["MarketValueUSD" := NumCol (np_round np 2 mvs)]>
       (<["Beta_SPX" := NumCol (np_round np 3
            (arr_add (arr_mul b1 (mask_eq cls "Equity"))
                     (arr_mul b2 (mask_ne cls "Equity"))))]>
       (<["Duration" := NumCol (np_round np 3
            (clip_min 0 <$> arr_mul dd (mask_eq cls "Fixed Income")))]>
       (<["Delta_Oil" := NumCol (np_round np 3
            (arr_mul oo (mask_eq cls "Commodity")))]> ∅))))), s7).
Proof.
  unfold generate_dummy_positions.
  destruct (rng_randint np 10 30 _) as [nz s1] eqn:E1.
  destruct (rng_choice np _ _ _ s1) as [cls s2] eqn:E2.
  destruct (rng_uniform np 50000 5000000 _ s2) as [mvs s3] eqn:E3.
  destruct (rng_normal np 1 0.5 _ s3) as [b1 s4] eqn:E4.
  destruct (rng_normal np 0.1 0.1 _ s4) as [b2 s5] eqn:E5.
  destruct (rng_normal np 5 2 _ s5) as [dd s6] eqn:E6.
  destruct (rng_normal np 0.05 0.2 _ s6) as [oo s7] eqn:E7.
  exists nz, cls, mvs, b1, b2, dd, oo, s1, s2, s3, s4, s5, s6, s7.
  by rewrite E2, E3, E4, E5, E6, E7.
Qed.

Lemma length_np_round np k a : length (np_round np k a) = length a.
Proof. unfold np_round. by rewrite length_fmap. Qed.

Lemma generated_book np (Hnp : numpy_contract np) name s :
  exists (n : nat) classes mv beta dur oil,
    n = Z.to_nat (fst (rng_randint np 10 30 (rng_seed np (ord_sum name)))) /\
    fst (generate_dummy_positions np name s) =
      <["Ticker" := StrCol ((fun i : nat => "TICKER_" +:+ pretty i) <$> seq 0 n)]>
      (<["AssetClass" := StrCol classes]>
      (<["MarketValueUSD" := NumCol mv]>
      (<["Beta_SPX" := NumCol beta]>
      (<["Duration" := NumCol dur]>
      (<["Delta_Oil" := NumCol oil]> ∅))))) /\
    length classes = n /\ length mv = n /\ length beta = n /\
    length dur = n /\ length oil = n /\
    position_book (fst (generate_dummy_positions np name s)) mv beta oil dur.
Proof.
  destruct (positions_frame np name s)
    as (nz & cls & mvs & b1 & b2 & dd & oo & s1 & s2 & s3 & s4 & s5 & s6 & s7 &
        Hn & Hc & Hu & H1 & H2 & Hd & Ho & ->).
  rewrite Hn. cbn [fst] in *.
  set (n := Z.to_nat nz) in *.
  pose proof (choice_length np Hnp ["Equity"; "Fixed Income"; "FX"; "Commodity"]%string
                n [0.5; 0.2; 0.15; 0.15]%float s1) as Lc.
  pose proof (uniform_length np Hnp 50000 5000000 n s2) as Lu.
  pose proof (normal_length np Hnp 1 0.5 n s3) as L1.
  pose proof (normal_length np Hnp 0.1 0.1 n s4) as L2.
  pose proof (normal_length np Hnp 5 2 n s5) as Ld.
  pose proof (normal_length np Hnp 0.05 0.2 n s6) as Lo.
  rewrite Hc in Lc. rewrite Hu in Lu. rewrite H1 in L1. rewrite H2 in L2.
  rewrite Hd in Ld. rewrite Ho in Lo. cbn [fst] in *.
  assert (Lmv : length (np_round np 2 mvs) = n) by by rewrite length_np_round.
  assert (Lb : length (np_round np 3 (arr_add (arr_mul b1 (mask_eq cls "Equity"))
                                        (arr_mul b2 (mask_ne cls "Equity")))) = n).
  { rewrite length_np_round. unfold arr_add, arr_mul, mask_eq, mask_ne.
    rewrite !length_zip_with, !length_fmap, L1, L2, Lc. by rewrite !Nat.min_id. }
  assert (Ldur : length (np_round np 3
                   (clip_min 0 <$> arr_mul dd (mask_eq cls "Fixed Income"))) = n).
  { rewrite length_np_round, length_fmap. unfold arr_mul, mask_eq.
    rewrite length_zip_with, length_fmap, Ld, Lc. apply Nat.min_id. }
  assert (Loil : length (np_round np 3 (arr_mul oo (mask_eq cls "Commodity"))) = n).
  { rewrite length_np_round. unfold arr_mul, mask_eq.
    rewrite length_zip_with, length_fmap, Lo, Lc. apply Nat.min_id. }
  exists n. eexists _, _, _, _, _.
  split; [reflexivity|]. split; [reflexivity|].
  repeat (split; [done|]).
  unfold position_book. rewrite Lmv, Lb, Ldur, Loil. by repeat split.
Qed.

Section Book.
Context (np : NumPy) (Hnp : numpy_contract np).
Hypothesis randint_range :
  forall lo hi s, lo < hi -> lo <= fst (rng_randint np lo hi s) < hi.
Hypothesis rint_zero :
  forall x, (x =? 0)%float = true -> (np_rint np x =? 0)%float = true.

(** A generated book has between 10 and 29 positions and exactly the six
    columns [Ticker], [AssetClass], [MarketValueUSD], [Beta_SPX],
    [Duration] and [Delta_Oil], each with one entry per position; the
    tickers are [TICKER_0], [TICKER_1], ... in order, all different; and
    the book has what the engine reads. *)
Theorem book_shape name s :
  exists (n : nat) classes mv beta dur oil,
    (10 <= n < 30)%nat /\
    fst (generate_dummy_positions np name s) =
      <["Ticker" := StrCol ((fun i : nat => "TICKER_" +:+ pretty i) <$> seq 0 n)]>
      (<["AssetClass" := StrCol classes]>
      (<["MarketValueUSD" := NumCol mv]>
      (<["Beta_SPX" := NumCol beta]>
      (<["Duration" := NumCol dur]>
      (<["Delta_Oil" := NumCol oil]> ∅))))) /\
    NoDup ((fun i : nat => "TICKER_" +:+ pretty i) <$> seq 0 n) /\
    length classes = n /\ length mv = n /\ length beta = n /\
    length dur = n /\ length oil = n /\
    position_book (fst (generate_dummy_positions np name s)) mv beta oil dur.
Proof.
  destruct (generated_book np Hnp name s)
    as (n & classes & mv & beta & dur & oil & Hn & Hdf & Hlen).
  pose proof (randint_range 10 30 (rng_seed np (ord_sum name)) ltac:(lia)) as Hr.
  exists n, classes, mv, beta, dur, oil.
  split; [lia|]. split; [done|].
  split; [apply (NoDup_fmap_2 _), NoDup_seq|]. done.
Qed.

Lemma round_zero k m e y :
  Prim2SF (pow10 k) = S754_finite false m e ->
  (y =? 0)%float = true ->
  (np_rint np (y * pow10 k) / pow10 k =? 0)%float = true.
Proof.
  intros Hp Hy.
  assert (H1 : (y * pow10 k =? 0)%float = true).
  { rewrite FloatAxioms.eqb_spec in *. rewrite mul_spec, Hp.
    change (Prim2SF 0) with (S754_zero false) in *.
    by destruct (Prim2SF y) as [[]|[]| |[] ? ?]. }
  apply rint_zero in H1.
  rewrite FloatAxioms.eqb_spec in *. rewrite div_spec, Hp.
  change (Prim2SF 0) with (S754_zero false) in *.
  by destruct (Prim2SF (np_rint np (y * pow10 k))) as [[]|[]| |[] ? ?].
Qed.

Lemma masked_zero x : PrimFloat.is_finite x = true -> (x * 0 =? 0)%float = true.
Proof.
  intros Hx. apply is_finite_sf in Hx.
  rewrite FloatAxioms.eqb_spec, mul_spec.
  change (Prim2SF 0) with (S754_zero false).
  by destruct (Prim2SF x) as [[]|[]| |[] ? ?].
Qed.

Lemma clip_zero y : (y =? 0)%float = true -> (clip_min 0 y =? 0)%float = true.
Proof.
  intros Hy. unfold clip_min, np_maximum.
  by destruct (0 <=? y)%float, (is_nan y).
Qed.

(** In a generated book only fixed-income positions have a duration and
    only commodity positions have an oil delta: for every position of
    another class the stored value equals 0. *)
Theorem sensitivities_masked name s :
  exists classes dur oil,
    fst (generate_dummy_positions np name s) !! "AssetClass" = Some (StrCol classes) /\
    fst (generate_dummy_positions np name s) !! "Duration" = Some (NumCol dur) /\
    fst (generate_dummy_positions np name s) !! "Delta_Oil" = Some (NumCol oil) /\
    forall i c, classes !! i = Some c ->
      (c ≠ "Fixed Income"%string ->
       exists d, dur !! i = Some d /\ (d =? 0)%float = true) /\
      (c ≠ "Commodity"%string ->
       exists o, oil !! i = Some o /\ (o =? 0)%float = true).
Proof.
  destruct (positions_frame np name s)
    as (nz & cls & mvs & b1 & b2 & dd & oo & s1 & s2 & s3 & s4 & s5 & s6 & s7 &
        Hn & Hc & Hu & H1 & H2 & Hd & Ho & ->).
  set (n := Z.to_nat nz) in *.
  pose proof (choice_length np Hnp ["Equity"; "Fixed Income"; "FX"; "Commodity"]%string
                n [0.5; 0.2; 0.15; 0.15]%float s1) as Lc.
  pose proof (normal_length np Hnp 5 2 n s5) as Ld.
  pose proof (normal_length np Hnp 0.05 0.2 n s6) as Lo.
  assert (Fd := fun x => normal_finite np Hnp 5 2 n s5 x eq_refl eq_refl).
  assert (Fo := fun x => normal_finite np Hnp 0.05 0.2 n s6 x eq_refl eq_refl).
  rewrite Hc in Lc. rewrite Hd in Ld, Fd. rewrite Ho in Lo, Fo. cbn [fst] in *.
  eexists _, _, _.
  rewrite !lookup_insert_ne, !lookup_insert_eq by done.
  rewrite !lookup_insert_ne, !lookup_insert_eq by done.
  split; [reflexivity|]. split; [reflexivity|]. split; [reflexivity|].
  intros i c Hi. pose proof (lookup_lt_Some _ _ _ Hi) as Hlt.
  split; intros Hne.
  - destruct (lookup_lt_is_Some_2 dd i) as [x Hx]; [lia|].
    eexists. unfold np_round, arr_mul, mask_eq.
    rewrite !list_lookup_fmap, lookup_zip_with, Hx, list_lookup_fmap, Hi. simpl.
    split; [reflexivity|].
    apply (round_zero 3 8796093022208000 (-43)); [reflexivity|]. apply clip_zero.
    destruct (String.eqb_spec c "Fixed Income"); [done|].
    apply masked_zero, Fd. by eapply list_elem_of_lookup_2.
  - destruct (lookup_lt_is_Some_2 oo i) as [x Hx]; [lia|].
    eexists. unfold np_round, arr_mul, mask_eq.
    rewrite !list_lookup_fmap, lookup_zip_with, Hx, list_lookup_fmap, Hi. simpl.
    split; [reflexivity|].
    apply (round_zero 3 8796093022208000 (-43)); [reflexivity|].
    destruct (String.eqb_spec c "Commodity"); [done|].
    apply masked_zero, Fo. by eapply list_elem_of_lookup_2.
Qed.

End Book.

(** ** The NAV path and the risk figures *)

Lemma fnormal_finite a b x : fnormal a b x -> PrimFloat.is_finite x = true.
Proof.
  intros H. unfold PrimFloat.is_finite. rewrite (fnormal_not_nan a b x H). simpl.
  unfold is_infinity. rewrite FloatAxioms.eqb_spec, abs_spec.
  unfold fnormal in H. by destruct (Prim2SF x) as [| | |[] m e].
Qed.

Lemma fnormal_exact a b x : fnormal a b x -> exists e, a <= e <= b /\ fnormal e e x.
Proof.
  unfold fnormal. destruct (Prim2SF x) as [| | |[] m e]; try done.
  intros [Hd He]. exists e. simpl. lia.
Qed.

Lemma fnormal_ltb a b c d x y :
  fnormal a b x -> fnormal c d y -> b < c -> (x <? y)%float = true.
Proof.
  unfold fnormal. rewrite ltb_spec.
  destruct (Prim2SF x) as [| | |[] mx ex]; try done.
  destruct (Prim2SF y) as [| | |[] my ey]; try done.
  intros [_ Hx] [_ Hy] Hlt. unfold SFltb, SFcompare.
  by destruct (Z.compare_spec ex ey); [lia| |lia].
Qed.

Lemma date_range_end_lookup today n t d :
  date_range_end today n !! t = Some d -> d = today - Z.of_nat n + 1 + Z.of_nat t.
Proof.
  unfold date_range_end. rewrite list_lookup_fmap.
  destruct (seq 0 n !! t) as [i|] eqn:E; [|done].
  apply lookup_seq in E as [-> _]. simpl. by intros [= <-].
Qed.

Section Path.
Context (np : NumPy) (Hnp : numpy_contract np).

(** The risk history covers 504 consecutive days that end today, and at
    every one of them the NAV is a positive finite number: with daily
    returns of at most one half in magnitude the path never reaches zero
    and never overflows. *)
Theorem nav_positive today name s :
  exists dates navs,
    fst (generate_dummy_risk_history np today name s) !! "Date" = Some (DateCol dates) /\
    fst (generate_dummy_risk_history np today name s) !! "NAV" = Some (NumCol navs) /\
    length dates = 504%nat /\ length navs = 504%nat /\
    (forall t d, dates !! t = Some d -> d = today - 503 + Z.of_nat t) /\
    dates !! 503%nat = Some today /\
    forall x, x ∈ navs -> (0 <? x)%float = true /\ PrimFloat.is_finite x = true.
Proof.
  destruct (history_frame np today name s) as (r & u & m & s1 & s2 & s3 & Hr & Hu & Hm & ->).
  pose proof (normal_length np Hnp 0.0005 0.01 n_days (rng_seed np (ord_sum name + 1))) as Lr.
  pose proof (nav_normal np Hnp n_days (rng_seed np (ord_sum name + 1))) as Nnav.
  rewrite Hr in Lr, Nnav. cbn [fst] in *.
  assert (Hd : (n_days <= 504)%nat) by (vm_compute; lia).
  specialize (Nnav Hd).
  eexists _, _.
  rewrite lookup_insert_eq.
  rewrite lookup_insert_ne, lookup_insert_eq by done.
  split; [reflexivity|]. split; [reflexivity|].
  split; [unfold date_range_end; rewrite length_fmap, length_seq; reflexivity|].
  split; [rewrite length_history_nav, Lr; reflexivity|].
  split; [|split].
  - intros t d Ht. apply date_range_end_lookup in Ht. rewrite Ht.
    change (Z.of_nat n_days) with 504. lia.
  - unfold date_range_end. rewrite list_lookup_fmap.
    rewrite (lookup_seq_lt 0 n_days 503) by (vm_compute; lia). simpl. f_equal.
    change (Z.of_nat n_days) with 504. lia.
  - intros x Hx. rewrite Forall_forall in Nnav. specialize (Nnav x Hx).
    split; [by eapply fnormal_pos|by eapply fnormal_finite].
Qed.

(** At every point of the risk history the value at risk and the expected
    shortfall are below the NAV. *)
Theorem risk_below_nav today name s :
  exists navs vars ess,
    fst (generate_dummy_risk_history np today name s) !! "NAV" = Some (NumCol navs) /\
    fst (generate_dummy_risk_history np today name s) !! "VaR_99_USD" = Some (NumCol vars) /\
    fst (generate_dummy_risk_history np today name s) !! "ES_99_USD" = Some (NumCol ess) /\
    forall t nav v e, navs !! t = Some nav -> vars !! t = Some v -> ess !! t = Some e ->
      (v <? nav)%float = true /\ (e <? nav)%float = true.
Proof.
  destruct (history_frame np today name s) as (r & u & m & s1 & s2 & s3 & Hr & Hu & Hm & ->).
  pose proof (nav_normal np Hnp n_days (rng_seed np (ord_sum name + 1))) as Nnav.
  pose proof (uniform_normal np Hnp 0.01 0.03 _ (-59) _ (-58) n_days s1 eq_refl eq_refl) as Nu.
  pose proof (uniform_normal np Hnp 1.2 1.5 _ (-52) _ (-52) n_days s2 eq_refl eq_refl) as Nm.
  rewrite Hr in Nnav. rewrite Hu in Nu. rewrite Hm in Nm. cbn [fst] in *.
  assert (Hd : (n_days <= 504)%nat) by (vm_compute; lia).
  specialize (Nnav Hd).
  specialize (Nu ltac:(lia) eq_refl). specialize (Nm ltac:(lia) eq_refl).
  eexists _, _, _.
  rewrite !lookup_insert_ne, !lookup_insert_eq by done.
  rewrite !lookup_insert_ne, !lookup_insert_eq by done.
  rewrite !lookup_insert_ne, !lookup_insert_eq by done.
  split; [reflexivity|]. split; [reflexivity|]. split; [reflexivity|].
  intros t nav v e Hnav Hv He.
  apply lookup_zip_with_Some in He as (v' & mt & -> & Hv' & Hmt).
  rewrite Hv in Hv'. injection Hv' as <-.
  apply lookup_zip_with_Some in Hv as (ut & nt & -> & Hut & Hnt).
  rewrite Hnav in Hnt. injection Hnt as <-.
  pose proof (proj1 (Forall_lookup _ _) Nnav _ _ Hnav) as Pn.
  pose proof (proj1 (Forall_lookup _ _) Nu _ _ Hut) as Pu.
  pose proof (proj1 (Forall_lookup _ _) Nm _ _ Hmt) as Pm.
  apply fnormal_exact in Pn as (en & Hen & Pn).
  assert (Pv : fnormal (-59 + en + 52) (-58 + en + 53) (ut * nav)%float).
  { apply (fnormal_mul _ _ _ _ _ _ Pu Pn); lia. }
  assert (Pe : fnormal (-59 + en + 52 + -52 + 52) (-58 + en + 53 + -52 + 53)
                 (ut * nav * mt)%float).
  { apply (fnormal_mul _ _ _ _ _ _ Pv Pm); lia. }
  split.
  - eapply fnormal_ltb; [exact Pv|exact Pn|lia].
  - eapply fnormal_ltb; [exact Pe|exact Pn|lia].
Qed.

End Path.

(** ** Books of one asset class *)

Lemma remove_dups_one (c : string) l :
  Forall (eq c) l -> l ≠ [] -> remove_dups l = [c].
Proof.
  induction 1 as [|x l <- Hl IH]; [done|]. intros _. simpl.
  destruct l as [|y l]; [done|].
  destruct (decide_rel elem_of c (y :: l)) as [_|Hn]; [by apply IH|].
  destruct Hn. apply Forall_cons in Hl as [<- _]. left.
Qed.

Lemma group_members_one {T : Type} (c : string) keys : forall vals : list T,
  Forall (eq c) keys -> length keys = length vals -> group_members c keys vals = vals.
Proof.
  induction keys as [|k keys IH]; intros [|v vals] Hk Hlen; try done.
  apply Forall_cons in Hk as [<- Hk].
  rewrite group_members_cons, String.eqb_refl. f_equal. apply IH; [done|].
  by injection Hlen.
Qed.

Lemma sum_of_one x :
  PrimFloat.is_nan x = false -> (f64_sum [x] =? x)%float = true.
Proof.
  intros Hx. unfold f64_sum, series_sum, pairwise_sum. simpl. rewrite Hx.
  revert Hx. unfold PrimFloat.is_nan. rewrite !FloatAxioms.eqb_spec, !add_spec.
  change (Prim2SF 0) with (S754_zero false).
  destruct (Prim2SF x) as [[]|[]| |[] m e]; try done.
  all: intros _; unfold SFeqb; simpl.
  all: by rewrite Z.compare_refl, Pos.compare_cont_refl.
Qed.

(** When every position of the book has the same asset class, the
    summary is one class row followed by the row of totals, which repeats
    it: the same count, and the same total as long as the class total is a
    number. The class total is the compensated sum of the column; it need
    not be the total returned with the summary, which is [Series.sum()] of
    the column: for the P&L 0.1, 0.2, 0.3 the two are 0.6 and
    0.6000000000000001. *)
Theorem single_class_total_row (df : DataFrame) pnl classes c :
  df !! "ScenarioPnL" = Some (NumCol pnl) -> df !! "AssetClass" = Some (StrCol classes) ->
  length classes = length pnl -> classes ≠ [] -> Forall (eq c) classes ->
  (exists row tr,
    summarize df = Ok ([row; tr], f64_sum pnl) /\
    sr_class row = c /\ sr_total row = f64_group_sum pnl /\
    sr_n row = Z.of_nat (f64_count pnl) /\
    sr_class tr = "**TOTAL**"%string /\ sr_n tr = sr_n row /\
    (PrimFloat.is_nan (sr_total row) = false ->
     (sr_total tr =? sr_total row)%float = true)) /\
  f64_group_sum [0.1; 0.2; 0.3]%float = 0.6%float /\
  f64_sum [0.1; 0.2; 0.3]%float = 0.6000000000000001%float.
Proof.
  intros Hp Hc Hlen Hne Hall. split; [|split; reflexivity].
  unfold summarize, get_num, get_str.
  rewrite Hp; simpl. rewrite Hc; simpl.
  unfold group_keys. rewrite (remove_dups_one c) by done.
  change (merge_sort str_le [c]) with [c]. cbn [map app].
  rewrite (group_members_one c) by done.
  eexists _, _. split; [reflexivity|]. cbn [sr_class sr_total sr_n].
  repeat (split; [reflexivity|]).
  apply sum_of_one.
Qed.

Lemma single_class_total_row_witness :
  (exists row tr,
    summarize (<["ScenarioPnL" := NumCol [-40000]%float]> rate_book)
      = Ok ([row; tr], f64_sum [-40000]%float) /\
    sr_class row = "Fixed Income"%string /\ sr_total row = f64_group_sum [-40000]%float /\
    sr_n row = Z.of_nat (f64_count [-40000]%float) /\
    sr_class tr = "**TOTAL**"%string /\ sr_n tr = sr_n row /\
    (PrimFloat.is_nan (sr_total row) = false ->
     (sr_total tr =? sr_total row)%float = true)) /\
  f64_group_sum [0.1; 0.2; 0.3]%float = 0.6%float /\
  f64_sum [0.1; 0.2; 0.3]%float = 0.6000000000000001%float.
Proof.
  apply (single_class_total_row _ [-40000]%float ["Fixed Income"]%string).
  - reflexivity.
  - reflexivity.
  - reflexivity.
  - done.
  - by repeat constructor.
Defined.

(** ** The risk history and the day of the call *)

(** The risk figures of a portfolio depend on its name only: two calls
    for the same name, on whatever days and in whatever generator states,
    return frames that agree on every column but [Date], and leave the
    generator in the same state; the dates are those of the first call
    shifted by the number of days between the calls. *)
Theorem history_figures_fixed (np : NumPy) (today1 today2 : Z) (name : string)
    (s1 s2 : rng_state np) :
  (forall c, c ≠ "Date"%string ->
     fst (generate_dummy_risk_history np today1 name s1) !! c
       = fst (generate_dummy_risk_history np today2 name s2) !! c) /\
  snd (generate_dummy_risk_history np today1 name s1)
    = snd (generate_dummy_risk_history np today2 name s2) /\
  exists d1 d2,
    fst (generate_dummy_risk_history np today1 name s1) !! "Date" = Some (DateCol d1) /\
    fst (generate_dummy_risk_history np today2 name s2) !! "Date" = Some (DateCol d2) /\
    d2 = (fun d => d + (today2 - today1)) <$> d1.
Proof.
  destruct (history_frame np today1 name s1)
    as (r & u & m & t1 & t2 & t3 & Hr & Hu & Hm & ->).
  destruct (history_frame np today2 name s2)
    as (r' & u' & m' & t1' & t2' & t3' & Hr' & Hu' & Hm' & ->).
  rewrite Hr in Hr'. injection Hr' as <- <-.
  rewrite Hu in Hu'. injection Hu' as <- <-.
  rewrite Hm in Hm'. injection Hm' as <- <-.
  cbn [fst snd]. split; [|split; [reflexivity|]].
  - intros c Hc. by rewrite !(lookup_insert_ne _ "Date") by done.
  - eexists _, _. rewrite !lookup_insert_eq. split; [reflexivity|]. split; [reflexivity|].
    unfold date_range_end. rewrite <- list_fmap_compose.
    apply list_fmap_ext. intros _ i _. simpl. lia.
Qed.

(** ** The order of the class rows *)

Lemma string_compare_cons c1 s1 c2 s2 :
  String.compare (String c1 s1) (String c2 s2) =
    match Ascii.compare c1 c2 with
    | Eq => String.compare s1 s2
    | o => o
    end.
Proof. reflexivity. Qed.

Lemma string_compare_trans s1 : forall s2 s3,
  String.compare s1 s2 ≠ Gt -> String.compare s2 s3 ≠ Gt -> String.compare s1 s3 ≠ Gt.
Proof.
  induction s1 as [|c1 s1 IH]; intros [|c2 s2] [|c3 s3] H12 H23; try done.
  rewrite string_compare_cons in *. unfold Ascii.compare in *.
  destruct (N.compare_spec (Ascii.N_of_ascii c1) (Ascii.N_of_ascii c2)) as [E12|L12|G12];
  destruct (N.compare_spec (Ascii.N_of_ascii c2) (Ascii.N_of_ascii c3)) as [E23|L23|G23];
  destruct (N.compare_spec (Ascii.N_of_ascii c1) (Ascii.N_of_ascii c3)) as [E13|L13|G13];
  try done; try lia.
  by eapply IH.
Qed.

Lemma leb_compare s1 s2 : String.leb s1 s2 = true <-> String.compare s1 s2 ≠ Gt.
Proof. unfold String.leb. by destruct (String.compare s1 s2). Qed.

#[local] Instance str_le_trans : Transitive str_le.
Proof.
  intros s1 s2 s3. unfold str_le. rewrite !leb_compare. apply string_compare_trans.
Qed.

#[local] Instance str_le_antisym : AntiSymm (=) str_le.
Proof. intros s1 s2. apply String.leb_antisym. Qed.

(** The class rows of the summary come in the order Commodity, Equity,
    FX, Fixed Income (strings compare by character code, so [FX] comes
    before [Fixed Income]), with a row for exactly the classes that occur
    in the book: at most four class rows. *)
Theorem summary_class_order (df : DataFrame) pnl classes :
  df !! "ScenarioPnL" = Some (NumCol pnl) -> df !! "AssetClass" = Some (StrCol classes) ->
  Forall (fun c : string => c ∈ ["Equity"; "Fixed Income"; "FX"; "Commodity"]%string) classes ->
  exists rows tr,
    summarize df = Ok (rows ++ [tr], f64_sum pnl) /\
    sr_class <$> rows
      = filter (fun c : string => c ∈ classes) ["Commodity"; "Equity"; "FX"; "Fixed Income"]%string /\
    (length rows <= 4)%nat.
Proof.
  intros Hp Hc Hall.
  destruct (summarize_rows df pnl classes Hp Hc)
    as (rows & tr & Hs & Hk & _).
  exists rows, tr. split; [done|].
  assert (K : group_keys classes
    = filter (fun c : string => c ∈ classes) ["Commodity"; "Equity"; "FX"; "Fixed Income"]%string).
  { apply (Sorted_unique str_le).
    - apply group_keys_sorted.
    - rewrite !filter_cons, filter_nil.
      repeat case_decide; repeat constructor; done.
    - apply NoDup_Permutation.
      + apply group_keys_NoDup.
      + apply NoDup_filter. apply (bool_decide_unpack _). by vm_compute.
      + intros c. rewrite elem_of_group_keys, list_elem_of_filter.
        rewrite Forall_forall in Hall. split; [|tauto].
        intros Hin. split; [done|]. specialize (Hall c Hin).
        rewrite !elem_of_cons in *. tauto. }
  rewrite Hk. split; [exact K|].
  rewrite <- (length_fmap sr_class), Hk, K.
  etrans; [apply length_filter|]. simpl. lia.
Qed.

Lemma summary_class_order_witness :
  exists rows tr,
    summarize (<["ScenarioPnL" := NumCol [1; 2; 4]%float]>
               (<["AssetClass" := StrCol ["Fixed Income"; "FX"; "FX"]]> crash_book))
      = Ok (rows ++ [tr], f64_sum [1; 2; 4]%float) /\
    sr_class <$> rows
      = filter (fun c : string => c ∈ ["Fixed Income"; "FX"; "FX"]%string)
          ["Commodity"; "Equity"; "FX"; "Fixed Income"]%string /\
    (length rows <= 4)%nat.
Proof.
  apply (summary_class_order _ [1; 2; 4]%float ["Fixed Income"; "FX"; "FX"]%string).
  - reflexivity.
  - reflexivity.
  - repeat constructor; rewrite !elem_of_cons; tauto.
Defined.

(** ** A run of the handler *)

Section Run.
Context (np : NumPy) (Hnp : numpy_contract np).

(** A run of the handler does not fail, whatever the scenario name and
    the custom inputs, for every portfolio name whose seed is one that
    [np.random.seed] accepts (at most 2^32 - 1): it stores the generated
    book with its scenario column as a new frame, leaves the frames of
    earlier runs as they are, and returns the summary and the total of
    that frame; the scenario column has one entry for each position. *)
Theorem run_succeeds portfolio scenario c1 c2 c3 (s : rng_state np) (h : store) :
  ord_sum portfolio <= 4294967295 ->
  exists res df' pnl,
    run_scenario np portfolio scenario c1 c2 c3 s h
      = Ok (res, snd (generate_dummy_positions np portfolio s), <[res_frame res := df']> h) /\
    res_portfolio res = portfolio /\
    h !! res_frame res = None /\
    df' = <["ScenarioPnL" := NumCol pnl]> (fst (generate_dummy_positions np portfolio s)) /\
    length pnl = Z.to_nat (fst (rng_randint np 10 30 (rng_seed np (ord_sum portfolio)))) /\
    summarize df' = Ok (res_summary res, res_total_pnl res) /\
    res_total_pnl res = f64_sum pnl.
Proof.
  intros _. unfold run_scenario.
  destruct (generated_book np Hnp portfolio s)
    as (n & classes & mv & beta & dur & oil & Hn & Hdf & Lc & Lmv & Lb & Ld & Lo & Hbook).
  destruct (generate_dummy_positions np portfolio s) as [df s'] eqn:Hgen. cbn [fst snd] in *.
  set (r := fresh (dom h)).
  assert (Hfresh : h !! r = None).
  { apply not_elem_of_dom. apply is_fresh. }
  destruct (resolve_cases scenario c1 c2 c3)
    as [(_ & E)|[(_ & sh & _ & E)|(_ & _ & E)]]; rewrite E; simpl.
  all: rewrite (simulate_ok _ r df mv beta oil dur) by (by rewrite ?lookup_insert_eq).
  all: simpl; unfold deref; rewrite lookup_insert_eq; simpl.
  all: rewrite insert_insert_eq.
  all: match goal with
       | |- context [summarize (<["ScenarioPnL" := NumCol ?p]> ?d)] =>
           destruct (summarize_ok (<["ScenarioPnL" := NumCol p]> d) p classes)
             as (rows & tr & Hs & _);
             [by rewrite lookup_insert_eq
             |rewrite lookup_insert_ne by done; rewrite Hdf;
              by rewrite lookup_insert_ne, lookup_insert_eq by done|];
           rewrite Hs; simpl;
           exists {| res_portfolio := portfolio; res_summary := rows ++ [tr];
                     res_total_pnl := f64_sum p; res_frame := r |};
           eexists _, p; split; [reflexivity|]; simpl;
           split; [reflexivity|]; split; [exact Hfresh|]; split; [reflexivity|];
           split; [|by split]
       end.
  all: rewrite length_scenario_pnl by congruence; by rewrite Lmv, Hn.
Qed.

End Run.

(** ** The further theorems at concrete inputs *)

Lemma demo_randint_range lo hi (s : rng_state demo_numpy) :
  lo < hi -> lo <= fst (rng_randint demo_numpy lo hi s) < hi.
Proof.
  intros H. simpl. destruct (Z.ltb_spec lo hi); [|lia].
  pose proof (Z.mod_pos_bound (lcg_next s) (hi - lo)). lia.
Qed.

Lemma demo_rint_zero x :
  (x =? 0)%float = true -> (np_rint demo_numpy x =? 0)%float = true.
Proof. done. Qed.

Lemma book_shape_witness :
  exists (n : nat) classes mv beta dur oil,
    (10 <= n < 30)%nat /\
    fst (generate_dummy_positions demo_numpy "Portfolio A" 0) =
      <["Ticker" := StrCol ((fun i : nat => "TICKER_" +:+ pretty i) <$> seq 0 n)]>
      (<["AssetClass" := StrCol classes]>
      (<["MarketValueUSD" := NumCol mv]>
      (<["Beta_SPX" := NumCol beta]>
      (<["Duration" := NumCol dur]>
      (<["Delta_Oil" := NumCol oil]> ∅))))) /\
    NoDup ((fun i : nat => "TICKER_" +:+ pretty i) <$> seq 0 n) /\
    length classes = n /\ length mv = n /\ length beta = n /\
    length dur = n /\ length oil = n /\
    position_book (fst (generate_dummy_positions demo_numpy "Portfolio A" 0)) mv beta oil dur.
Proof.
  exact (book_shape demo_numpy demo_numpy_contract demo_randint_range "Portfolio A" 0).
Defined.

Lemma sensitivities_masked_witness :
  exists classes dur oil,
    fst (generate_dummy_positions demo_numpy "Portfolio A" 0) !! "AssetClass"
      = Some (StrCol classes) /\
    fst (generate_dummy_positions demo_numpy "Portfolio A" 0) !! "Duration"
      = Some (NumCol dur) /\
    fst (generate_dummy_positions demo_numpy "Portfolio A" 0) !! "Delta_Oil"
      = Some (NumCol oil) /\
    forall i c, classes !! i = Some c ->
      (c ≠ "Fixed Income"%string ->
       exists d, dur !! i = Some d /\ (d =? 0)%float = true) /\
      (c ≠ "Commodity"%string ->
       exists o, oil !! i = Some o /\ (o =? 0)%float = true).
Proof.
  exact (sensitivities_masked demo_numpy demo_numpy_contract demo_rint_zero "Portfolio A" 0).
Defined.

Lemma nav_positive_witness :
  exists dates navs,
    fst (generate_dummy_risk_history demo_numpy 20000 "Portfolio A" 0) !! "Date"
      = Some (DateCol dates) /\
    fst (generate_dummy_risk_history demo_numpy 20000 "Portfolio A" 0) !! "NAV"
      = Some (NumCol navs) /\
    length dates = 504%nat /\ length navs = 504%nat /\
    (forall t d, dates !! t = Some d -> d = 20000 - 503 + Z.of_nat t) /\
    dates !! 503%nat = Some 20000 /\
    forall x, x ∈ navs -> (0 <? x)%float = true /\ PrimFloat.is_finite x = true.
Proof.
  exact (nav_positive demo_numpy demo_numpy_contract 20000 "Portfolio A" 0).
Defined.

Lemma risk_below_nav_witness :
  exists navs vars ess,
    fst (generate_dummy_risk_history demo_numpy 20000 "Portfolio A" 0) !! "NAV"
      = Some (NumCol navs) /\
    fst (generate_dummy_risk_history demo_numpy 20000 "Portfolio A" 0) !! "VaR_99_USD"
      = Some (NumCol vars) /\
    fst (generate_dummy_risk_history demo_numpy 20000 "Portfolio A" 0) !! "ES_99_USD"
      = Some (NumCol ess) /\
    forall t nav v e, navs !! t = Some nav -> vars !! t = Some v -> ess !! t = Some e ->
      (v <? nav)%float = true /\ (e <? nav)%float = true.
Proof.
  exact (risk_below_nav demo_numpy demo_numpy_contract 20000 "Portfolio A" 0).
Defined.

Lemma run_succeeds_witness :
  exists res df' pnl,
    run_scenario demo_numpy "Portfolio A" "Market Crash (-15% SPX)" None None None 0 ∅
      = Ok (res, snd (generate_dummy_positions demo_numpy "Portfolio A" 0),
            <[res_frame res := df']> ∅) /\
    res_portfolio res = "Portfolio A"%string /\
    (∅ : store) !! res_frame res = None /\
    df' = <["ScenarioPnL" := NumCol pnl]>
            (fst (generate_dummy_positions demo_numpy "Portfolio A" 0)) /\
    length pnl = Z.to_nat (fst (rng_randint demo_numpy 10 30
                                  (rng_seed demo_numpy (ord_sum "Portfolio A")))) /\
    summarize df' = Ok (res_summary res, res_total_pnl res) /\
    res_total_pnl res = f64_sum pnl.
Proof.
  apply (run_succeeds demo_numpy demo_numpy_contract
           "Portfolio A" "Market Crash (-15% SPX)" None None None 0 ∅).
  vm_compute. discriminate.
Defined.
